(** * Bundling of dotnet project references into a deployment archive

    A shallow embedding of the "project references" region of
    [azure/cli/command_modules/appservice/_create_util.py]
    ([_get_dotnet_main_project_csproj], [_get_dotnet_project_references],
    [_get_dotnet_transitive_missing_references], [_append_dotnet_references],
    [zip_dotnet_project_references]) and of its caller
    [zip_contents_from_dir], together with the properties of the bundler
    that hold, or fail, on that code.

    The Python code is effectful: it lists directories, parses manifests,
    and builds zip archives on disk.  It is embedded in a state-and-exception
    monad over a model of the file system; the library calls it makes
    ([os.path], [os.walk], [zipfile], [ElementTree]) are modelled after
    CPython's POSIX behaviour.

    The other helpers of the module that compute on what they are handed
    (runtime detection, names of apps and plans, versions, locations) are
    embedded after the bundler, and their properties follow those of the
    bundler. *)

From Stdlib Require Import Ascii String.
From Stdlib Require DecimalString DecimalNat.
From stdpp Require Import base option list gmap strings.

Local Open Scope string_scope.
Local Open Scope list_scope.
Local Open Scope nat_scope.
#[local] Set Warnings "-register-all,-clear-no-such-hyp".

(** ** Python strings *)

Module Py.

(** [s.startswith(p)] *)
Definition startswith (s p : string) : bool := String.prefix p s.

(** [s.endswith(p)] *)
Definition endswith (s p : string) : bool :=
  String.prefix (String.rev p) (String.rev s).

(** [s[n:]] *)
Fixpoint slice_from (n : nat) (s : string) : string :=
  match n, s with
  | 0, _ => s
  | S n', String _ s' => slice_from n' s'
  | S _, EmptyString => EmptyString
  end.

(** [s[:n]] *)
Fixpoint slice_to (n : nat) (s : string) : string :=
  match n, s with
  | S n', String c s' => String c (slice_to n' s')
  | _, _ => EmptyString
  end.

(** [p in s] for strings: [p] occurs in [s] as a contiguous substring. *)
Fixpoint contains (s p : string) : bool :=
  String.prefix p s ||
  match s with
  | EmptyString => false
  | String _ s' => contains s' p
  end.

(** [s.replace(old, new)] for a non-empty [old]: occurrences are found from
    the left and do not overlap; [skip] counts the characters of the current
    occurrence that remain to be dropped. *)
Fixpoint replace_go (old new : string) (skip : nat) (s : string) : string :=
  match s with
  | EmptyString => EmptyString
  | String c s' =>
      match skip with
      | S k => replace_go old new k s'
      | 0 =>
          if String.prefix old s
          then new +:+ replace_go old new (String.length old - 1) s'
          else String c (replace_go old new 0 s')
      end
  end.

(** [s.replace(old, new)] for the empty [old] puts [new] before every
    character and at the end. *)
Fixpoint replace_empty (new s : string) : string :=
  match s with
  | EmptyString => new
  | String c s' => new +:+ String c (replace_empty new s')
  end.

Definition replace (s old new : string) : string :=
  match old with
  | EmptyString => replace_empty new s
  | _ => replace_go old new 0 s
  end.

Definition lower_ascii (c : ascii) : ascii :=
  let n := nat_of_ascii c in
  if (65 <=? n)%nat && (n <=? 90)%nat then ascii_of_nat (n + 32) else c.

(** [s.lower()] on ASCII text *)
Fixpoint lower (s : string) : string :=
  match s with
  | EmptyString => EmptyString
  | String c s' => String (lower_ascii c) (lower s')
  end.

(** [s.split('/')]: always at least one component. *)
Fixpoint split_slash (s : string) : list string :=
  match s with
  | EmptyString => [EmptyString]
  | String c s' =>
      if Ascii.eqb c "/" then EmptyString :: split_slash s'
      else match split_slash s' with
           | h :: t => String c h :: t
           | [] => [String c EmptyString]
           end
  end.

(** ['/'.join(l)] *)
Fixpoint join_slash (l : list string) : string :=
  match l with
  | [] => EmptyString
  | [x] => x
  | x :: l' => x +:+ "/" +:+ join_slash l'
  end.

(** Truthiness of a string, and the builtin [any] over strings. *)
Definition truthy (s : string) : bool :=
  match s with EmptyString => false | _ => true end.

Definition any (l : list string) : bool := existsb truthy l.

(** A [dict] with string keys keeps insertion order; assigning to a key that
    is present replaces the value and keeps the key's position. *)
Fixpoint dict_set {V} (d : list (string * V)) (k : string) (v : V)
  : list (string * V) :=
  match d with
  | [] => [(k, v)]
  | (k', v') :: d' =>
      if String.eqb k' k then (k', v) :: d' else (k', v') :: dict_set d' k v
  end.

End Py.

(** ** [os.path] on POSIX *)

Module PosixPath.

(** One step of [os.path.join]. *)
Definition join2 (a b : string) : string :=
  if Py.startswith b "/" then b
  else if negb (Py.truthy a) || Py.endswith a "/" then a +:+ b
  else a +:+ "/" +:+ b.

(** [os.path.join(a, *p)] *)
Definition join (a : string) (p : list string) : string := fold_left join2 p a.

(** [(p[:i], p[i:])] for [i = p.rfind('/') + 1]. *)
Fixpoint rsplit (p : string) : string * string :=
  match p with
  | EmptyString => (EmptyString, EmptyString)
  | String c p' =>
      let '(h, t) := rsplit p' in
      match h with
      | EmptyString =>
          if Ascii.eqb c "/" then (String c EmptyString, p')
          else (EmptyString, String c p')
      | _ => (String c h, t)
      end
  end.

Fixpoint all_slashes (s : string) : bool :=
  match s with
  | EmptyString => true
  | String c s' => Ascii.eqb c "/" && all_slashes s'
  end.

(** [s.rstrip('/')], on the reversed string. *)
Fixpoint lstrip_slashes (s : string) : string :=
  match s with
  | String c s' => if Ascii.eqb c "/" then lstrip_slashes s' else s
  | EmptyString => EmptyString
  end.

Definition rstrip_slashes (s : string) : string :=
  String.rev (lstrip_slashes (String.rev s)).

(** [os.path.dirname] *)
Definition dirname (p : string) : string :=
  let head := fst (rsplit p) in
  if Py.truthy head && negb (all_slashes head) then rstrip_slashes head
  else head.

(** [os.path.basename] *)
Definition basename (p : string) : string := snd (rsplit p).

(** The loop body of [os.path.normpath]; [stack] holds [new_comps] with its
    last element first. *)
Definition norm_step (anchored : bool) (stack : list string) (comp : string)
  : list string :=
  if String.eqb comp EmptyString || String.eqb comp "." then stack
  else if negb (String.eqb comp "..")
          || (negb anchored && match stack with [] => true | _ => false end)
          || match stack with top :: _ => String.eqb top ".." | [] => false end
       then comp :: stack
       else match stack with _ :: rest => rest | [] => [] end.

(** The components [os.path.normpath] keeps, first one first. *)
Definition norm_comps (p : string) : list string :=
  rev (fold_left (norm_step (Py.startswith p "/")) (Py.split_slash p) []).

(** [os.path.normpath] *)
Definition normpath (p : string) : string :=
  match p with
  | EmptyString => "."
  | _ =>
      let initial_slashes :=
        if Py.startswith p "/"
        then if Py.startswith p "//" && negb (Py.startswith p "///")
             then "//" else "/"
        else EmptyString in
      let path := initial_slashes +:+ Py.join_slash (norm_comps p) in
      match path with EmptyString => "." | _ => path end
  end.

Section Cwd.
(** The process's current directory, [os.getcwd()]. *)
Variable cwd : string.

Definition absolutize (p : string) : string :=
  if Py.startswith p "/" then p else join2 cwd p.

(** [os.path.abspath] *)
Definition abspath (p : string) : string := normpath (absolutize p).

(** The file a path string designates: the components of its absolute,
    normalised form.  Two strings that resolve alike name the same file. *)
Definition resolve (p : string) : list string := norm_comps (absolutize p).
End Cwd.

End PosixPath.

(** ** Manifests, archives and the file system *)

(** An [xml.etree.ElementTree] element: tag, attributes, children. *)
Inductive Element : Type :=
  | Elem (tag : string) (attrib : list (string * string))
         (children : list Element).

Definition tag (e : Element) : string := let 'Elem t _ _ := e in t.
Definition attrib (e : Element) : list (string * string) :=
  let 'Elem _ a _ := e in a.
Definition children (e : Element) : list Element := let 'Elem _ _ c := e in c.

(** A file is plain bytes or a zip archive.  An archive is the list of its
    members in the order they were written; a member whose stored bytes fail
    their integrity check carries no data. *)
Inductive file : Type :=
  | Raw (bytes : string)
  | Zip (members : list (string * option file)).

Abbreviation member := (string * option file)%type.

(** Files are keyed by their resolved path (see [PosixPath.resolve]); a
    directory exists exactly when some file lies below it. *)
Abbreviation path := (list string).

(** The exceptions that the code raises or handles. *)
Inductive exn : Type :=
  | OSError | ValueError | TypeError | ParseError | BadZipFile | LargeZipFile
  | KeyError | IndexError
  | PlainException (msg : string)
  | CLIError (msg : string)
  | FuelExhausted.
  (* [FuelExhausted] is no Python exception: it marks a [while] loop that the
     iteration bound of its embedding cut short. *)

Inductive zmode : Type := ModeR | ModeW | ModeA.

(** What the code asks of its surroundings, in program order. *)
Inductive event : Type :=
  | EvListdir (dir : string)
  | EvParse (file_path : string)
  | EvReadText (file_path : string)
  | EvWalk (top : string)
  | EvZipOpen (zip_path : string) (mode : zmode)
  | EvZipMkdir (zip_path name : string)
  | EvZipWrite (zip_path source arcname : string)
  | EvZipWritestr (zip_path arcname : string)
  | EvZipRead (zip_path name : string)
  | EvRemove (file_path : string)
  | EvRename (src dst : string)
  | EvWarning (msg : string).

Global Instance exn_eq_dec : EqDecision exn.
Proof. solve_decision. Defined.
Global Instance zmode_eq_dec : EqDecision zmode.
Proof. solve_decision. Defined.
Global Instance event_eq_dec : EqDecision event.
Proof. solve_decision. Defined.

Record world : Type := World {
  fs : gmap path file;
  clock : nat  (* number of library calls made so far *)
}.

Inductive result (A : Type) : Type :=
  | Ok (a : A)
  | Raise (e : exn).
Arguments Ok {A} a.
Arguments Raise {A} e.

(** The surroundings of a run: everything the code reads that is not in the
    file system. *)
Record env : Type := Env {
  cwd : string;                          (* os.getcwd() *)
  ET_fromstring : string → option Element;  (* the XML parser; None: ParseError *)
  fault : nat → bool;                    (* the n-th library call fails *)
  pop_sched : nat → nat;                 (* which element set.pop() takes *)
  list_sched : nat → nat;                (* the order of list(a_set) *)
  gettempdir : string;                   (* tempfile.gettempdir() *)
  uuid4 : string;                        (* str(uuid.uuid4()) *)
  (* the constants imported from [._constants]; their values are not in the
     module embedded here *)
  NETCORE_RUNTIME_NAME : string;
  NODE_RUNTIME_NAME : string;
  PYTHON_RUNTIME_NAME : string;
  DOTNET_REFERENCES_DIR_IN_ZIP : string
}.

(** ** The state-and-exception monad *)

Definition M (A : Type) : Type := world → result A * world * list event.

Definition ret {A} (a : A) : M A := λ w, (Ok a, w, []).
Definition raise {A} (e : exn) : M A := λ w, (Raise e, w, []).

Definition bind {A B} (m : M A) (k : A → M B) : M B := λ w,
  match m w with
  | (Ok a, w1, t1) => let '(r, w2, t2) := k a w1 in (r, w2, t1 ++ t2)
  | (Raise e, w1, t1) => (Raise e, w1, t1)
  end.

Global Instance M_ret : MRet M := @ret.
Global Instance M_bind : MBind M := λ A B k m, bind m k.

(** [for x in l: body x] *)
Fixpoint for_each {A} (l : list A) (body : A → M unit) : M unit :=
  match l with
  | [] => ret tt
  | x :: l' => body x;; for_each l' body
  end.

(** [for x in l: acc = body acc x] *)
Fixpoint for_fold {A S} (l : list A) (acc : S) (body : S → A → M S) : M S :=
  match l with
  | [] => ret acc
  | x :: l' => acc' ← body acc x; for_fold l' acc' body
  end.

(** [try: m except classes: handler] *)
Definition try_except {A} (m : M A) (caught : exn → bool) (handler : exn → M A)
  : M A := λ w,
  match m w with
  | (Raise e, w1, t1) =>
      if caught e
      then let '(r, w2, t2) := handler e w1 in (r, w2, t1 ++ t2)
      else (Raise e, w1, t1)
  | ok => ok
  end.

(** ** Library calls *)

Section Library.
Variable E : env.

Definition resolve (p : string) : path := PosixPath.resolve (cwd E) p.
Definition abspath (p : string) : string := PosixPath.abspath (cwd E) p.

(** A library call: it is recorded, takes one tick of the clock, and fails
    with an [OSError] when the surroundings say so (permissions, a full
    disk, ...). *)
Definition io {A} (ev : event) (act : world → result A * world) : M A := λ w,
  let w1 := World (fs w) (S (clock w)) in
  if fault E (clock w) then (Raise OSError, w1, [ev])
  else let '(r, w2) := act w1 in (r, w2, [ev]).

(** [drop (length d) k] when [d] is a prefix of [k]. *)
Fixpoint strip_prefix (d k : path) : option path :=
  match d, k with
  | [], _ => Some k
  | x :: d', y :: k' => if String.eqb x y then strip_prefix d' k' else None
  | _ :: _, [] => None
  end.

(** The names directly inside directory [d]. *)
Definition dir_entries (files : gset path) (d : path) : list string :=
  remove_dups
    (omap (λ k, match strip_prefix d k with
                | Some (name :: _) => Some name
                | _ => None
                end) (elements files)).

Definition is_dir (files : gset path) (d : path) : bool :=
  match dir_entries files d with [] => false | _ => true end.

(** [os.listdir] *)
Definition os_listdir (dir : string) : M (list string) :=
  io (EvListdir dir) (λ w,
    match dir_entries (dom (fs w)) (resolve dir) with
    | [] => (Raise OSError, w)
    | names => (Ok names, w)
    end).

Fixpoint split_last {A} (l : list A) : option (list A * A) :=
  match l with
  | [] => None
  | [x] => Some ([], x)
  | x :: l' =>
      match split_last l' with
      | Some (i, y) => Some (x :: i, y)
      | None => None
      end
  end.

(** The files [os.walk(top)] reaches, as pairs [(dirname, filename)], when
    the caller prunes the sub-directories that [keep_dir] rejects
    ([subdirs[:] = ...]).  [os.walk] swallows the errors of the directories
    it cannot list, so a missing [top] yields nothing. *)
Definition walk_files (files : gset path) (top : string)
    (keep_dir : string → bool) : list (string * string) :=
  omap (λ k, match strip_prefix (resolve top) k with
              | Some rel =>
                  match split_last rel with
                  | Some (subdirs, filename) =>
                      if forallb keep_dir subdirs
                      then Some (PosixPath.join top subdirs, filename)
                      else None
                  | None => None
                  end
              | None => None
              end) (elements files).

Definition os_walk (top : string) (keep_dir : string → bool)
  : M (list (string * string)) := λ w,
  (Ok (walk_files (dom (fs w)) top keep_dir), w, [EvWalk top]).

(** [ET.parse(path).getroot()] *)
Definition ET_parse (file_path : string) : M Element :=
  io (EvParse file_path) (λ w,
    match fs w !! resolve file_path with
    | None => (Raise OSError, w)
    | Some (Zip _) => (Raise ParseError, w)
    | Some (Raw text) =>
        match ET_fromstring E text with
        | Some root => (Ok root, w)
        | None => (Raise ParseError, w)
        end
    end).

(** [open(path, "r", encoding="utf-8-sig").read()] *)
Definition read_text (file_path : string) : M string :=
  io (EvReadText file_path) (λ w,
    match fs w !! resolve file_path with
    | None => (Raise OSError, w)
    | Some (Zip _) => (Raise ValueError, w)
    | Some (Raw text) => (Ok text, w)
    end).

(** Appending a member to the archive stored at [zip_path]; when no archive
    is there any more the handle is unusable, a [ValueError]. *)
Definition add_member (zip_path : string) (m : member) (w : world)
  : result unit * world :=
  match fs w !! resolve zip_path with
  | Some (Zip ms) =>
      (Ok tt, World (<[resolve zip_path := Zip (ms ++ [m])]> (fs w)) (clock w))
  | _ => (Raise ValueError, w)
  end.

(** [zipfile.ZipFile(path, "w")]: a new, empty archive. *)
Definition zip_open_w (zip_path : string) : M unit :=
  io (EvZipOpen zip_path ModeW) (λ w,
    (Ok tt, World (<[resolve zip_path := Zip []]> (fs w)) (clock w))).

(** [zipfile.ZipFile(path, "a")]: an existing archive is kept; a file that
    is no archive gets an empty archive appended, which is all that readers
    of the archive see. *)
Definition zip_open_a (zip_path : string) : M unit :=
  io (EvZipOpen zip_path ModeA) (λ w,
    match fs w !! resolve zip_path with
    | Some (Zip _) => (Ok tt, w)
    | _ => (Ok tt, World (<[resolve zip_path := Zip []]> (fs w)) (clock w))
    end).

(** [zipfile.ZipFile(path, "r")], giving the archive's members. *)
Definition zip_open_r (zip_path : string) : M (list member) :=
  io (EvZipOpen zip_path ModeR) (λ w,
    match fs w !! resolve zip_path with
    | Some (Zip ms) => (Ok ms, w)
    | Some (Raw _) => (Raise BadZipFile, w)
    | None => (Raise OSError, w)
    end).

(** [ZipFile.mkdir(name)] *)
Definition zip_mkdir (zip_path name : string) : M unit :=
  io (EvZipMkdir zip_path name)
     (add_member zip_path
        (if Py.endswith name "/" then name else name +:+ "/",
         Some (Raw EmptyString))).

(** [ZipFile.write(source, arcname)].  The member's name is
    [normpath(arcname)] without its leading slashes
    ([ZipInfo.from_file]); a directory gives an empty member whose name
    ends in a slash. *)
Definition zip_write (zip_path source arcname : string) : M unit :=
  io (EvZipWrite zip_path source arcname) (λ w,
    let name := PosixPath.lstrip_slashes (PosixPath.normpath arcname) in
    match fs w !! resolve source with
    | Some f =>
        match name with
        | EmptyString => (Raise IndexError, w)
        | _ => add_member zip_path (name, Some f) w
        end
    | None =>
        if is_dir (dom (fs w)) (resolve source)
        then match name with
             | EmptyString => (Raise IndexError, w)
             | _ => add_member zip_path (name +:+ "/", Some (Raw EmptyString)) w
             end
        else (Raise OSError, w)
    end).

(** [ZipFile.writestr(name, data)] *)
Definition zip_writestr (zip_path name : string) (data : file) : M unit :=
  io (EvZipWritestr zip_path name) (add_member zip_path (name, Some data)).

(** [ZipFile.getinfo(name)]: of several members with one name the archive
    answers with the last. *)
Fixpoint getinfo (ms : list member) (name : string) : option (option file) :=
  match ms with
  | [] => None
  | (n, d) :: ms' =>
      match getinfo ms' name with
      | Some d' => Some d'
      | None => if String.eqb n name then Some d else None
      end
  end.

(** [ZipFile.open(name).read()] on an archive opened for reading. *)
Definition zip_read (zip_path : string) (ms : list member) (name : string)
  : M file :=
  io (EvZipRead zip_path name) (λ w,
    match getinfo ms name with
    | Some (Some data) => (Ok data, w)
    | Some None => (Raise BadZipFile, w)
    | None => (Raise KeyError, w)
    end).

(** [os.remove] *)
Definition os_remove (file_path : string) : M unit :=
  io (EvRemove file_path) (λ w,
    match fs w !! resolve file_path with
    | Some _ => (Ok tt, World (delete (resolve file_path) (fs w)) (clock w))
    | None => (Raise OSError, w)
    end).

(** [os.rename] of a file. *)
Definition os_rename (src dst : string) : M unit :=
  io (EvRename src dst) (λ w,
    match fs w !! resolve src with
    | Some f =>
        (Ok tt, World (<[resolve dst := f]> (delete (resolve src) (fs w)))
                      (clock w))
    | None => (Raise OSError, w)
    end).

(** [logger.warning] *)
Definition logger_warning (msg : string) : M unit := λ w,
  (Ok tt, w, [EvWarning msg]).

End Library.

(** ** The bundler *)

Section Bundler.
Variable E : env.

(** [dirPath] names its only [.csproj] entry, or the call fails. *)
Definition _get_dotnet_main_project_csproj (dirPath : string) : M string :=
  file_list ← os_listdir E dirPath;
  let ll := List.filter (λ x, Py.endswith x ".csproj") file_list in
  match ll with
  | [x] => mret (PosixPath.join dirPath [x])
  | _ =>
      raise (PlainException
               (dirPath +:+ " should contain only one .csproj file"))
  end.

(** [e.findall(t)]: the children of [e] with tag [t]. *)
Definition findall (e : Element) (t : string) : list Element :=
  List.filter (λ c, String.eqb (tag c) t) (children e).

(** [e.find(t)]: the first of them. *)
Definition find (e : Element) (t : string) : option Element :=
  head (findall e t).

(** [attrib[k]] *)
Fixpoint attrib_get (a : list (string * string)) (k : string)
  : option string :=
  match a with
  | [] => None
  | (k', v) :: a' => if String.eqb k' k then Some v else attrib_get a' k
  end.

(** The [ProjectReference] children of the [ItemGroup]s of the root. *)
Definition project_references (root : Element) : list Element :=
  let item_groups :=
    List.filter (λ item, bool_decide (find item "ProjectReference" ≠ None))
                (findall root "ItemGroup") in
  flat_map (λ i, List.filter (λ project,
                                String.eqb (tag project) "ProjectReference")
                             (children i))
           item_groups.

(** Their [Include] attributes that end in [.csproj]; a reference without
    the attribute is a [KeyError]. *)
Fixpoint includes (projects : list Element) : result (list string) :=
  match projects with
  | [] => Ok []
  | project :: rest =>
      match attrib_get (attrib project) "Include" with
      | None => Raise KeyError
      | Some include =>
          match includes rest with
          | Ok abs_references =>
              Ok (if Py.endswith include ".csproj"
                  then include :: abs_references else abs_references)
          | Raise e => Raise e
          end
      end
  end.

Definition _get_dotnet_project_references (csproj_path : string)
  : M (list string) :=
  root ← ET_parse E csproj_path;
  match includes (project_references root) with
  | Ok abs_references => mret abs_references
  | Raise e => raise e
  end.

(** [any(a_set)] *)
Definition any_set (s : gset string) : bool := Py.any (elements s).

(** [a_set.pop()]: some element, chosen by the surroundings. *)
Definition set_pop (choice : nat) (s : gset string)
  : option (string * gset string) :=
  match elements s !! (choice `mod` length (elements s)) with
  | Some x => Some (x, s ∖ {[x]})
  | None => None
  end.

Definition insert_at {A} (i : nat) (x : A) (l : list A) : list A :=
  take i l ++ x :: drop i l.

Fixpoint arrange {A} (sched : nat → nat) (l : list A) : list A :=
  match l with
  | [] => []
  | x :: l' =>
      insert_at (sched (length l') `mod` S (length l')) x (arrange sched l')
  end.

(** [list(a_set)]: the elements in an order chosen by the surroundings. *)
Definition list_of_set (s : gset string) : list string :=
  arrange (list_sched E) (elements s).

(** The [for] loop of the closure: what one parsed manifest adds. *)
Definition suggest (acc : list string * gset string)
    (suggested_reference : string) : list string * gset string :=
  let '(result_references, newReference) := acc in
  if bool_decide (suggested_reference ∈ result_references)
  then acc
  else (result_references ++ [suggested_reference],
        {[suggested_reference]} ∪ newReference).

(** The [while any(newReference)] loop, [n] iterations in, cut off after
    [fuel] more. *)
Fixpoint closure_loop (fuel n : nat) (result_references : list string)
    (newReference : gset string) : M (list string) :=
  if any_set newReference then
    match fuel with
    | 0 => raise FuelExhausted
    | S fuel' =>
        match set_pop (pop_sched E n) newReference with
        | None => raise KeyError
        | Some (reference, newReference') =>
            abs_references ← _get_dotnet_project_references reference;
            let '(result_references', newReference'') :=
              fold_left suggest abs_references
                        (result_references, newReference') in
            closure_loop fuel' (S n) result_references' newReference''
        end
    end
  else mret result_references.

(** What a file declares when read as a manifest. *)
Definition declared_references (f : file) : list string :=
  match f with
  | Raw text =>
      match ET_fromstring E text with
      | Some root =>
          match includes (project_references root) with
          | Ok l => l
          | Raise _ => []
          end
      | None => []
      end
  | Zip _ => []
  end.

Definition all_declared (files : gmap path file) : list string :=
  flat_map (λ kv, declared_references (snd kv)) (map_to_list files).

(** Iterations that always suffice for the closure over [files]. *)
Definition closure_bound (files : gmap path file) (current : list string)
  : nat :=
  S (length current + length (all_declared files)).

Definition _get_dotnet_transitive_missing_references
    (current_references : list string) : M (list string) := λ w,
  (result_references ←
     closure_loop (closure_bound (fs w) current_references) 0
                  current_references (list_to_set current_references);
   mret (list_of_set (list_to_set result_references
                        ∖ list_to_set current_references))) w.

Definition skip_build_output (d : string) : bool :=
  negb (String.eqb d "obj" || String.eqb d "bin").

(** The body of [for include in abs_references:] in
    [_append_dotnet_references]. *)
Definition stage_reference (dirPath zip_file_path : string)
    (replace_dict : list (string * string)) (include : string)
  : M (list (string * string)) :=
  let abs_include := abspath E (PosixPath.join dirPath [include]) in
  let dirname_include := PosixPath.dirname abs_include in
  let basename_dir_include := PosixPath.basename dirname_include in
  let csproj_include :=
    PosixPath.join (DOTNET_REFERENCES_DIR_IN_ZIP E)
      [basename_dir_include;
       Py.slice_from (String.length dirname_include + 1) abs_include] in
  (* Copy project references (excluding obj, bin folders) *)
  files ← os_walk E dirname_include skip_build_output;
  for_each files (λ dirname_filename,
    let absname :=
      abspath E (PosixPath.join (fst dirname_filename)
                                [snd dirname_filename]) in
    let arcname :=
      PosixPath.join (DOTNET_REFERENCES_DIR_IN_ZIP E)
        [basename_dir_include;
         Py.slice_from (String.length dirname_include + 1) absname] in
    zip_write E zip_file_path absname arcname);;
  (* backup project reference .csproj and prepare for replacing *)
  zip_write E zip_file_path abs_include (csproj_include +:+ ".bak");;
  mret (Py.dict_set replace_dict include csproj_include).

Definition _append_dotnet_references (dirPath : string)
    (abs_references : list string) (zip_file_path : string)
  : M (list (string * string)) :=
  zip_open_a E zip_file_path;;
  for_fold abs_references [] (stage_reference dirPath zip_file_path).

(** [for k, v in replace_dict.items(): text = text.replace(k, v)] *)
Definition rewrite_manifest (replace_dict : list (string * string))
    (csproj_content : string) : string :=
  fold_left (λ text kv, Py.replace text (fst kv) (snd kv))
            replace_dict csproj_content.

(** Step 4 of [zip_dotnet_project_references]: the original archive's
    members go into the staging archive. *)
Definition copy_original (zip_file_path tmp_zip_file_path : string)
  : M unit :=
  original_zf ← zip_open_r E zip_file_path;
  for_each original_zf (λ original_info,
    if negb (Py.endswith (fst original_info) ".csproj")
    then content ← zip_read E zip_file_path original_zf (fst original_info);
         zip_writestr E tmp_zip_file_path (fst original_info) content
    else mret tt).

(** Steps 1 to 4 of [zip_dotnet_project_references]: everything between
    [if any(abs_references):] and the swap of Step 5. *)
Definition build_staging_archive (dirPath zip_file_path csproj_path : string)
    (abs_references : list string) (tmp_zip_file_path : string) : M unit :=
  (* Step 1 *)
  zip_open_w E tmp_zip_file_path;;
  zip_mkdir E tmp_zip_file_path (DOTNET_REFERENCES_DIR_IN_ZIP E);;
  (* Step 2 *)
  replace_dict ←
    _append_dotnet_references dirPath abs_references tmp_zip_file_path;
  csproj_content ← read_text E csproj_path;
  let new_csproj_content := rewrite_manifest replace_dict csproj_content in
  (* Step 3 *)
  transitives_references ←
    _get_dotnet_transitive_missing_references abs_references;
  (if Py.any transitives_references
   then _append_dotnet_references dirPath transitives_references
                                  tmp_zip_file_path;; mret tt
   else mret tt);;
  (* Step 4 *)
  zip_open_a E tmp_zip_file_path;;
  zip_write E tmp_zip_file_path csproj_path
    (Py.slice_from (String.length dirPath + 1) csproj_path +:+ ".bak");;
  zip_writestr E tmp_zip_file_path
    (Py.slice_from (String.length dirPath + 1) csproj_path)
    (Raw new_csproj_content);;
  copy_original zip_file_path tmp_zip_file_path.

Definition zip_dotnet_project_references (dirPath zip_file_path : string)
  : M unit :=
  csproj_path ← _get_dotnet_main_project_csproj dirPath;
  abs_references ← _get_dotnet_project_references csproj_path;
  if Py.any abs_references then
    let tmp_zip_file_path := zip_file_path +:+ ".tmp" in
    build_staging_archive dirPath zip_file_path csproj_path abs_references
                          tmp_zip_file_path;;
    (* Step 5 *)
    os_remove E zip_file_path;;
    os_rename E tmp_zip_file_path zip_file_path
  else mret tt.

(** The exceptions named by the [except] clause around the bundler. *)
Definition bundling_guard (e : exn) : bool :=
  match e with
  | OSError | ValueError | TypeError | ParseError | BadZipFile
  | LargeZipFile => true
  | _ => false
  end.

Definition is_OSError (e : exn) : bool :=
  match e with OSError => true | _ => false end.

(** [subdirs[:] = ...] by language. *)
Definition keep_subdir (lang d : string) : bool :=
  if String.eqb (Py.lower lang) (NODE_RUNTIME_NAME E)
  then negb (Py.contains d "node_modules")
  else if String.eqb (Py.lower lang) (NETCORE_RUNTIME_NAME E)
  then negb (String.eqb d "obj" || String.eqb d "bin")
  else if String.eqb (Py.lower lang) (PYTHON_RUNTIME_NAME E)
  then negb (Py.contains d "env")
  else true.

(** [files[:] = filtered_files], which only Python projects reach. *)
Definition keep_file (lang filename : string) : bool :=
  if String.eqb (Py.lower lang) (NODE_RUNTIME_NAME E) then true
  else if String.eqb (Py.lower lang) (NETCORE_RUNTIME_NAME E) then true
  else if String.eqb (Py.lower lang) (PYTHON_RUNTIME_NAME E)
  then negb (String.eqb filename ".env")
  else true.

Definition zip_contents_from_dir (dirPath lang : string) : M string :=
  let relroot := abspath E (gettempdir E) in
  let file_val := PosixPath.basename dirPath in
  let file_val_unique := file_val +:+ Py.slice_to 259 (uuid4 E) in
  let zip_file_path := relroot +:+ "/" +:+ file_val_unique +:+ ".zip" in
  let abs_src := abspath E dirPath in
  try_except
    (zip_open_w E zip_file_path;;
     files ← os_walk E dirPath (keep_subdir lang);
     for_each (List.filter (λ df, keep_file lang (snd df)) files)
       (λ '(dirname, filename),
          let absname := abspath E (PosixPath.join dirname [filename]) in
          let arcname := Py.slice_from (String.length abs_src + 1) absname in
          zip_write E zip_file_path absname arcname);;
     if String.eqb (Py.lower lang) (NETCORE_RUNTIME_NAME E)
     then try_except
            (zip_dotnet_project_references abs_src zip_file_path)
            bundling_guard
            (λ _, logger_warning
                    "Analysing and bundling dotnet project references have failed.")
     else mret tt)
    is_OSError
    (λ _, raise (CLIError "OSError"));;
  mret zip_file_path.

End Bundler.

(** ** Vocabulary of the properties *)

Section Vocabulary.
Variable E : env.

(** The [.csproj] entries of a directory. *)
Definition csproj_entries (files : gmap path file) (dirPath : string)
  : list string :=
  List.filter (λ x, Py.endswith x ".csproj")
              (dir_entries (dom files) (resolve E dirPath)).

(** The manifests a trace parsed, in order. *)
Definition parsed (t : list event) : list string :=
  omap (λ ev, match ev with EvParse p => Some p | _ => None end) t.

(** The events of the swap of Step 5. *)
Definition is_swap (ev : event) : bool :=
  match ev with EvRemove _ | EvRename _ _ => true | _ => false end.

Definition no_swap (t : list event) : Prop :=
  Forall (λ ev, is_swap ev = false) t.

(** Every file but the one at [K] is as it was. *)
Definition fs_frame (K : path) (w w' : world) : Prop :=
  ∀ k, k ≠ K → fs w' !! k = fs w !! k.

(** Code that writes to no file but [K] and takes no part in the swap. *)
Definition stages (K : path) {A} (m : M A) : Prop :=
  ∀ w r w' t, m w = (r, w', t) → fs_frame K w w' ∧ no_swap t.

(** What bounds the iterations the closure still has before it: the
    references waiting to be parsed, and the declared ones not yet seen. *)
Definition closure_potential (files : gmap path file)
    (result_references : list string) (newReference : gset string) : nat :=
  size newReference
  + size ((list_to_set (all_declared E files) : gset string)
          ∖ list_to_set result_references).

(** The name [ZipFile.write(source, arcname)] gives the member it adds,
    when the files present are [files]. *)
Definition member_name (files : gset path) (source arcname : string)
  : string :=
  let name := PosixPath.lstrip_slashes (PosixPath.normpath arcname) in
  if bool_decide (resolve E source ∈ files) then name else name +:+ "/".

(** [csproj_include]: where [_append_dotnet_references] puts the manifest
    of the reference [include]. *)
Definition archive_path (dirPath include : string) : string :=
  let abs_include := abspath E (PosixPath.join dirPath [include]) in
  let dirname_include := PosixPath.dirname abs_include in
  PosixPath.join (DOTNET_REFERENCES_DIR_IN_ZIP E)
    [PosixPath.basename dirname_include;
     Py.slice_from (String.length dirname_include + 1) abs_include].

(** The names of the members that staging one reference adds: the files of
    its directory, then the backup of its manifest. *)
Definition staged_names (files : gset path) (dirPath include : string)
  : list string :=
  let abs_include := abspath E (PosixPath.join dirPath [include]) in
  let dirname_include := PosixPath.dirname abs_include in
  let basename_dir_include := PosixPath.basename dirname_include in
  map (λ df,
         let absname := abspath E (PosixPath.join (fst df) [snd df]) in
         member_name files absname
           (PosixPath.join (DOTNET_REFERENCES_DIR_IN_ZIP E)
              [basename_dir_include;
               Py.slice_from (String.length dirname_include + 1) absname]))
      (walk_files E files dirname_include skip_build_output)
  ++ [member_name files abs_include (archive_path dirPath include +:+ ".bak")].

(** The distinct elements of a list, each at its first occurrence. *)
Definition first_occurrences (l : list string) : list string :=
  fold_left (λ acc x, if bool_decide (x ∈ acc) then acc else acc ++ [x])
            l [].

(** The members of the original archive that Step 4 carries over. *)
Definition copied_members (original : list member) : list member :=
  flat_map (λ m, if Py.endswith (fst m) ".csproj" then []
                 else match getinfo original (fst m) with
                      | Some (Some data) => [(fst m, Some data)]
                      | _ => []
                      end) original.

(** The archive at [K] has grown by the members [new]; no other file has
    changed. *)
Definition appended (K : path) (w w' : world) (new : list member) : Prop :=
  ∃ ms, fs w !! K = Some (Zip ms)
        ∧ fs w' = <[K := Zip (ms ++ new)]> (fs w).

End Vocabulary.

(** ** Readings of the specification that the code does not meet

    Each is stated here as the specification has it, for one run, and refuted
    further down on a concrete file system. *)

Section Readings.
Variable E : env.

(** Every member of the original archive but the one named like the root
    manifest is in the bundled archive. *)
Definition copies_all_but_root_manifest (dirPath zip_file_path : string)
    (w : world) : Prop :=
  ∀ csproj_path w1 t1 w' t original members,
    _get_dotnet_main_project_csproj E dirPath w = (Ok csproj_path, w1, t1) →
    zip_dotnet_project_references E dirPath zip_file_path w
    = (Ok tt, w', t) →
    fs w !! resolve E zip_file_path = Some (Zip original) →
    fs w' !! resolve E zip_file_path = Some (Zip members) →
    ∀ m, m ∈ original →
         fst m ≠ Py.slice_from (String.length dirPath + 1) csproj_path →
         m ∈ members.


(** A staging pass over the root's references never writes one name
    twice. *)
Definition stages_each_name_once (dirPath tmp_zip_file_path : string)
    (w : world) : Prop :=
  ∀ csproj_path w1 t1 abs_references w2 t2 replace_dict w3 t3 members,
    _get_dotnet_main_project_csproj E dirPath w = (Ok csproj_path, w1, t1) →
    _get_dotnet_project_references E csproj_path w1
    = (Ok abs_references, w2, t2) →
    _append_dotnet_references E dirPath abs_references tmp_zip_file_path w2
    = (Ok replace_dict, w3, t3) →
    fs w3 !! resolve E tmp_zip_file_path = Some (Zip members) →
    NoDup members.*1.




End Readings.

(** ** Concrete projects *)

Module Scenario.

(** A manifest that declares the given project references, as text and as the
    tree that [ElementTree] makes of that text. *)
Definition reference_text (include : string) : string :=
  "<ProjectReference Include='" +:+ include +:+ "' />".

Definition manifest_text (includes : list string) : string :=
  "<Project Sdk='Microsoft.NET.Sdk.Web'><ItemGroup>"
  +:+ fold_right (λ i s, reference_text i +:+ s) "</ItemGroup></Project>"
                 includes.

Definition manifest_tree (includes : list string) : Element :=
  Elem "Project" [("Sdk", "Microsoft.NET.Sdk.Web")]
       [Elem "ItemGroup" []
             (map (λ i, Elem "ProjectReference" [("Include", i)] []) includes)].

(** A parser that knows the manifests of a scenario and rejects any other
    text. *)
Fixpoint parser (manifests : list (list string)) (text : string)
  : option Element :=
  match manifests with
  | [] => None
  | includes :: rest =>
      if String.eqb (manifest_text includes) text
      then Some (manifest_tree includes)
      else parser rest text
  end.

(** Surroundings in which no library call fails and the sets hand out their
    first element.  The runtime names are the ones that the [lang] arguments
    of the command take; the directory of the references has the name the
    specification gives it. *)
Definition surroundings (cwd : string) (manifests : list (list string)) : env :=
  {| cwd := cwd;
     ET_fromstring := parser manifests;
     fault := λ _, false;
     pop_sched := λ _, 0;
     list_sched := λ _, 0;
     gettempdir := "/tmp";
     uuid4 := "0f8fad5b-d9cb-469f-a165-70867728950e";
     NETCORE_RUNTIME_NAME := "dotnetcore";
     NODE_RUNTIME_NAME := "node";
     PYTHON_RUNTIME_NAME := "python";
     DOTNET_REFERENCES_DIR_IN_ZIP := "references" |}.

Definition disk (files : list (path * file)) : world :=
  {| fs := list_to_map files; clock := 0 |}.

(** [App] references [../Lib], which references [../Util].  The project
    tree also holds a second manifest below the root directory, and the
    original archive has a member for it. *)
Definition chain_env : env :=
  surroundings "/home/u/App"
    [["../Lib/Lib.csproj"]; ["../Util/Util.csproj"]; []].

Definition chain_archive : list member :=
  [("App.csproj", Some (Raw (manifest_text ["../Lib/Lib.csproj"])));
   ("Program.cs", Some (Raw "class Program {}"));
   ("sub/Other.csproj", Some (Raw (manifest_text [])))].

Definition chain_files (archive : list member) : list (path * file) :=
  [(["home"; "u"; "App"; "App.csproj"],
    Raw (manifest_text ["../Lib/Lib.csproj"]));
   (["home"; "u"; "App"; "Program.cs"], Raw "class Program {}");
   (["home"; "u"; "App"; "sub"; "Other.csproj"], Raw (manifest_text []));
   (["home"; "u"; "Lib"; "Lib.csproj"],
    Raw (manifest_text ["../Util/Util.csproj"]));
   (["home"; "u"; "Lib"; "Lib.cs"], Raw "class Lib {}");
   (["home"; "u"; "Lib"; "obj"; "Lib.dll"], Raw "binary");
   (["home"; "u"; "Util"; "Util.csproj"], Raw (manifest_text []));
   (["tmp"; "app.zip"], Zip archive)].

Definition chain : world := disk (chain_files chain_archive).

(** The same, with a member of the original archive that cannot be read. *)
Definition chain_corrupt : world :=
  disk (chain_files
          [("App.csproj", Some (Raw (manifest_text ["../Lib/Lib.csproj"])));
           ("Program.cs", None)]).

(** [App] references [Lib], and [Lib] references [App] back, and itself. *)
Definition cycle_env : env :=
  surroundings "/app"
    [["/lib/Lib.csproj"]; ["/app/App.csproj"; "/lib/Lib.csproj"]].

Definition cycle : world :=
  disk [(["app"; "App.csproj"], Raw (manifest_text ["/lib/Lib.csproj"]));
        (["lib"; "Lib.csproj"],
         Raw (manifest_text ["/app/App.csproj"; "/lib/Lib.csproj"]));
        (["tmp"; "app.zip"],
         Zip [("App.csproj", Some (Raw (manifest_text ["/lib/Lib.csproj"])))])].

(** The root manifest declares the same reference twice. *)
Definition twice_env : env :=
  surroundings "/home/u/App"
    [["../Lib/Lib.csproj"; "../Lib/Lib.csproj"]; []].

Definition twice : world :=
  disk [(["home"; "u"; "App"; "App.csproj"],
         Raw (manifest_text ["../Lib/Lib.csproj"; "../Lib/Lib.csproj"]));
        (["home"; "u"; "Lib"; "Lib.csproj"], Raw (manifest_text []));
        (["home"; "u"; "Lib"; "Lib.cs"], Raw "class Lib {}");
        (["tmp"; "app.zip"],
         Zip [("App.csproj",
               Some (Raw (manifest_text
                            ["../Lib/Lib.csproj"; "../Lib/Lib.csproj"])))])].

(** One reference of the root is a substring of another, and comes first. *)
Definition nested_env : env :=
  surroundings "/home/u/App"
    [["../Lib/Lib.csproj"; "../../Lib/Lib.csproj"]; []].

Definition nested : world :=
  disk [(["home"; "u"; "App"; "App.csproj"],
         Raw (manifest_text ["../Lib/Lib.csproj"; "../../Lib/Lib.csproj"]));
        (["home"; "u"; "Lib"; "Lib.csproj"], Raw (manifest_text []));
        (["home"; "Lib"; "Lib.csproj"], Raw (manifest_text []));
        (["tmp"; "app.zip"],
         Zip [("App.csproj",
               Some (Raw (manifest_text
                            ["../Lib/Lib.csproj"; "../../Lib/Lib.csproj"])))])].

(** Two manifests in the root directory. *)
Definition two_roots_env : env := surroundings "/home/u/App" [[]].

Definition two_roots : world :=
  disk [(["home"; "u"; "App"; "App.csproj"], Raw (manifest_text []));
        (["home"; "u"; "App"; "Tests.csproj"], Raw (manifest_text []));
        (["home"; "u"; "App"; "Program.cs"], Raw "class Program {}")].

(** A project without references. *)
Definition alone_env : env := surroundings "/home/u/App" [[]].

Definition alone : world :=
  disk [(["home"; "u"; "App"; "App.csproj"], Raw (manifest_text []));
        (["home"; "u"; "App"; "Program.cs"], Raw "class Program {}");
        (["tmp"; "app.zip"],
         Zip [("App.csproj", Some (Raw (manifest_text [])));
              ("Program.cs", Some (Raw "class Program {}"))])].

(** The runs that the properties below are exercised on. *)
Definition chain_run : result unit * world * list event :=
  zip_dotnet_project_references chain_env "/home/u/App" "/tmp/app.zip" chain.

Definition corrupt_run : result unit * world * list event :=
  zip_dotnet_project_references chain_env "/home/u/App" "/tmp/app.zip"
    chain_corrupt.

Definition cycle_closure : result (list string) * world * list event :=
  _get_dotnet_transitive_missing_references cycle_env ["/lib/Lib.csproj"]
    cycle.

Definition twice_staging
  : result (list (string * string)) * world * list event :=
  _append_dotnet_references twice_env "/home/u/App"
    ["../Lib/Lib.csproj"; "../Lib/Lib.csproj"] "/tmp/app.zip.tmp" twice.

Definition alone_main : result string * world * list event :=
  _get_dotnet_main_project_csproj alone_env "/home/u/App" alone.

Definition alone_references : result (list string) * world * list event :=
  _get_dotnet_project_references alone_env "/home/u/App/App.csproj"
    alone_main.1.2.

End Scenario.

(** ** Vocabulary of the packaging *)

Section Packaging.
Variable E : env.

(** [zip_file_path]: where [zip_contents_from_dir] builds the archive of
    [dirPath]. *)
Definition archive_file (dirPath : string) : string :=
  let relroot := abspath E (gettempdir E) in
  let file_val := PosixPath.basename dirPath in
  let file_val_unique := file_val +:+ Py.slice_to 259 (uuid4 E) in
  relroot +:+ "/" +:+ file_val_unique +:+ ".zip".



(** A manifest is closed in a list of references when it is a file and the
    list has every reference it declares. *)
Definition closed_in (files : gmap path file) (references : list string)
    (reference : string) : Prop :=
  ∃ f, files !! resolve E reference = Some f
       ∧ ∀ s, s ∈ declared_references E f → s ∈ references.

End Packaging.

(** Code that changes no file but those in [S]. *)
Definition touches (S : path → Prop) {A} (m : M A) : Prop :=
  ∀ w r w' t, m w = (r, w', t) → ∀ k, ¬ S k → fs w' !! k = fs w !! k.
(** * The helpers of [az webapp up]

    The functions of the module that compute on what the command line and
    the service hand them: names, locations, versions, lists of apps and
    plans.  What a function gets from the service or the profile is an
    argument of its embedding. *)

(** ** More of Python's [str] *)

Module PyStr.

(** [s.split(sep)] for a separator of one character: always at least one
    component. *)
Fixpoint split (sep : ascii) (s : string) : list string :=
  match s with
  | EmptyString => [EmptyString]
  | String c s' =>
      if Ascii.eqb c sep then EmptyString :: split sep s'
      else match split sep s' with
           | h :: t => String c h :: t
           | [] => [String c EmptyString]
           end
  end.

(** [s.split(sep, 1)]: the text before the first separator and the text
    after it, or [s] alone. *)
Fixpoint split1 (sep : ascii) (s : string) : list string :=
  match s with
  | EmptyString => [EmptyString]
  | String c s' =>
      if Ascii.eqb c sep then [EmptyString; s']
      else match split1 sep s' with
           | h :: t => String c h :: t
           | [] => [String c EmptyString]
           end
  end.

(** [s.rindex(c)] for one character: the last index where it stands;
    [None] is Python's [ValueError]. *)
Fixpoint rindex (c : ascii) (s : string) : option nat :=
  match s with
  | EmptyString => None
  | String c' s' =>
      match rindex c s' with
      | Some i => Some (S i)
      | None => if Ascii.eqb c' c then Some 0 else None
      end
  end.

(** [c in s] for one character. *)
Fixpoint has (c : ascii) (s : string) : bool :=
  match s with
  | EmptyString => false
  | String c' s' => Ascii.eqb c' c || has c s'
  end.

(** The characters that [\d] matches, and those of [\d.]. *)
Definition is_digit (c : ascii) : bool :=
  let n := nat_of_ascii c in (48 <=? n) && (n <=? 57).


(** [re.sub(r'[^...]+', '', s)]: the characters of the class are kept. *)
Fixpoint keep (class : ascii → bool) (s : string) : string :=
  match s with
  | EmptyString => EmptyString
  | String c s' => if class c then String c (keep class s') else keep class s'
  end.

End PyStr.

(** ** Stacks, users and locations *)

(** [l[0]] and [l[1]] of a list of strings; [None] is an [IndexError]. *)
Definition item0 (l : list string) : option string := l !! 0.
Definition item1 (l : list string) : option string := l !! 1.

Definition get_current_stack_from_runtime (runtime : string) : string :=
  let language :=
    Py.lower (default EmptyString (item0 (PyStr.split "|" runtime))) in
  if String.eqb language "aspnet" then "dotnet" else language.

(** [account_user] is [Profile().get_current_account_user()]. *)
Definition get_profile_username (account_user : string) : string :=
  let user := default EmptyString (item0 (PyStr.split1 "@" account_user)) in
  if 1 <? length (PyStr.split1 "#" user)
  then default EmptyString (item1 (PyStr.split1 "#" user))
  else user.

(** [geo_regions] are the names that [client.list_geo_regions(sku, True)]
    yields; the service is asked only when no location is given. *)
Definition set_location (geo_regions : list string)
    (location : option string) : result string :=
  match location with
  | None =>
      match geo_regions with
      | [] => Raise IndexError
      | loc :: _ => Ok (Py.lower (Py.replace loc " " EmptyString))
      end
  | Some loc => Ok (Py.lower (Py.replace loc " " EmptyString))
  end.

(** ** Apps and plans of the subscription *)

(** An app service plan as the service describes it.  [asp_sku] is [None]
    when the plan's [sku] is no [SkuDescription]; [asp_reserved] is the
    plan's [reserved], which the service may leave unset. *)
Record plan : Type := Plan {
  asp_name : string;
  asp_sku : option string;
  asp_location : string;
  asp_reserved : option bool
}.

(** The truth value of an optional flag: unset counts as false. *)
Definition flag_set (b : option bool) : bool :=
  match b with Some true => true | _ => false end.

(** [plans] are the plans that
    [client.app_service_plans.list_by_resource_group(rg_name)] yields. *)
Fixpoint _check_resource_group_supports_os (plans : list plan)
    (is_linux : bool) : bool :=
  match plans with
  | [] => true
  | item :: rest =>
      (* for Linux if an app with reserved==False exists, ASP doesn't
         support Linux *)
      if is_linux && negb (flag_set (asp_reserved item)) then false
      else if negb is_linux && flag_set (asp_reserved item) then false
      else _check_resource_group_supports_os rest is_linux
  end.

Section Apps.
(** The apps of the service: all that the functions read of one is its
    name. *)
Context {app : Type} (name_of : app → string).

(** [apps] are the apps that [client.web_apps.list()] yields. *)
Definition get_app_details (apps : list app) (name : string) : option app :=
  let data :=
    List.filter (λ x, String.eqb (Py.lower name) (Py.lower (name_of x)))
                apps in
  let _num_items := length data in
  if 0 <? _num_items then head data else None.

(** [apps] are those that [client.web_apps.list_by_resource_group(rg_name)]
    yields. *)
Fixpoint should_create_new_app (apps : list app) (app_name : string)
  : bool :=
  match apps with
  | [] => true
  | item :: rest =>
      if String.eqb (Py.lower (name_of item)) (Py.lower app_name)
      then false
      else should_create_new_app rest app_name
  end.

End Apps.

(** ** JSON documents *)

(** What [json.load] returns.  A number is kept as it is written; an
    object is the list of its items in the order of the [dict]. *)
Inductive json : Type :=
  | JNull
  | JBool (b : bool)
  | JNumber (literal : string)
  | JStr (s : string)
  | JList (elements : list json)
  | JDict (items : list (string * json)).


(** The values that [find_key_in_json] yields when the value [v] of an item
    is searched: those of the items of [v] whose key contains [key], and for
    the other items what their own values yield, when [v] is a [dict];
    nothing when it is not. *)
Fixpoint find_key_in_value (key : string) (v : json) : list json :=
  match v with
  | JDict items =>
      (fix items_loop (l : list (string * json)) : list json :=
         match l with
         | [] => []
         | (k, v') :: rest =>
             (if Py.contains k key then [v'] else find_key_in_value key v')
             ++ items_loop rest
         end) items
  | _ => []
  end.

(** The generator, as the list of what it yields. *)
Definition find_key_in_json (json_data : list (string * json))
    (key : string) : list json :=
  find_key_in_value key (JDict json_data).

(** The values under a key containing [key] that can be reached from the
    items [json_data] through values whose keys do not contain it. *)
Inductive reaches (key : string) : list (string * json) → json → Prop :=
  | reaches_here json_data k v :
      (k, v) ∈ json_data → Py.contains k key = true →
      reaches key json_data v
  | reaches_below json_data k d v :
      (k, JDict d) ∈ json_data → Py.contains k key = false →
      reaches key d v →
      reaches key json_data v.

(** ** The Node version of [package.json] *)





Fixpoint all_digits (s : string) : bool :=
  match s with
  | EmptyString => true
  | String c s' => PyStr.is_digit c && all_digits s'
  end.

(** ** Names for new apps *)

(** What [client.check_name_availability(name, 'Site')] answers. *)
Record availability : Type := Availability {
  name_available : option bool;
  reason : string;
  message : string
}.

(** [answer] is the service's answer for [name]. *)
Definition get_site_availability (answer : availability) (name : string)
  : availability :=
  (* check for "." in app name. it is valid for hostnames to contain it,
     but not allowed for webapp names *)
  if Py.contains name "."
  then {| name_available := Some false;
          reason := "Invalid";
          message := "Site names only allow alphanumeric characters and hyphens, cannot start or end in a hyphen, and must be less than 64 chars." |}
  else answer.

(** What [generate_default_app_name] draws on: the word lists of the file
    [GENERATE_RANDOM_APP_NAMES], and for each call of [generate_name],
    counted from 0, the two draws of [random.choice], the identifier that
    [uuid.uuid4().hex] gives and the answer of the service. *)
Record naming : Type := Naming {
  APP_NAME_NOUNS : list string;
  APP_NAME_ADJECTIVES : list string;
  noun_draw : nat → nat;
  adjective_draw : nat → nat;
  uuid4_hex : nat → string;
  check_name_availability : nat → string → availability
}.

Section Naming.
Variable N : naming.

(** [random.choice(seq)]: an [IndexError] on an empty sequence. *)
Definition choice (draw : nat) (seq : list string) : result string :=
  match seq !! (draw `mod` length seq) with
  | Some x => Ok x
  | None => Raise IndexError
  end.

(** The [attempt]-th call of the inner [generate_name]. *)
Definition generate_name (attempt : nat) : result string :=
  match choice (noun_draw N attempt) (APP_NAME_NOUNS N) with
  | Raise e => Raise e
  | Ok noun =>
      match choice (adjective_draw N attempt) (APP_NAME_ADJECTIVES N) with
      | Raise e => Raise e
      | Ok adjective =>
          let random_uuid := uuid4_hex N attempt in
          let name := adjective +:+ "-" +:+ noun +:+ "-" +:+ random_uuid in
          let name_available :=
            name_available
              (get_site_availability
                 (check_name_availability N attempt name) name) in
          if flag_set name_available then Ok name else Ok EmptyString
      end
  end.

(** [while not generated_name and retry_times > 0:], before the call
    number [attempt]. *)
Fixpoint retry (retry_times attempt : nat) (generated_name : string)
  : result string :=
  match retry_times with
  | S retry_times' =>
      if negb (Py.truthy generated_name)
      then match generate_name attempt with
           | Ok generated_name' =>
               retry retry_times' (S attempt) generated_name'
           | Raise e => Raise e
           end
      else Ok generated_name
  | 0 => Ok generated_name
  end.

Definition generate_default_app_name : result string :=
  let retry_times := 5 in
  match generate_name 0 with
  | Raise e => Raise e
  | Ok generated_name =>
      match retry retry_times 1 generated_name with
      | Raise e => Raise e
      | Ok generated_name =>
          if negb (Py.truthy generated_name)
          then Raise (CLIError "Unable to generate a default name for webapp. Please specify webapp name using --name flag")
          else Ok generated_name
      end
  end.

End Naming.

(** ** Names for new plans *)

(** [str(n)] for a natural number, and [str(z)] for an integer. *)
Definition str_of_nat (n : nat) : string :=
  DecimalString.NilZero.string_of_uint (Nat.to_uint n).

Definition str_of_int (z : Z) : string :=
  if (z <? 0)%Z then "-" +:+ str_of_nat (Z.abs_nat z)
  else str_of_nat (Z.to_nat z).

Fixpoint zeros (n : nat) : string :=
  match n with 0 => EmptyString | S n' => String "0" (zeros n') end.

(** ["{:04}".format(n)] for a natural number *)
Definition format_04 (n : nat) : string :=
  let digits := str_of_nat n in
  zeros (4 - String.length digits) +:+ digits.

(** The white space that [int] skips around a number. *)
Definition is_space (c : ascii) : bool :=
  let n := nat_of_ascii c in
  ((9 <=? n) && (n <=? 13)) || (n =? 32) || (n =? 133) || (n =? 160).

Fixpoint lstrip (s : string) : string :=
  match s with
  | String c s' => if is_space c then lstrip s' else s
  | EmptyString => EmptyString
  end.

Definition strip (s : string) : string :=
  String.rev (lstrip (String.rev (lstrip s))).

(** The digits of a number in base ten, single underscores between them
    allowed. *)
Fixpoint digits_value (after_digit : bool) (acc : nat) (s : string)
  : option nat :=
  match s with
  | EmptyString => if after_digit then Some acc else None
  | String c s' =>
      if PyStr.is_digit c
      then digits_value true (10 * acc + (nat_of_ascii c - 48)) s'
      else if Ascii.eqb c "_" && after_digit
      then digits_value false acc s'
      else None
  end.

(** [int(s)]; [None] is a [ValueError]. *)
Definition py_int (s : string) : option Z :=
  match strip s with
  | String "-" digits =>
      (λ n, (- Z.of_nat n)%Z) <$> digits_value false 0 digits
  | String "+" digits => Z.of_nat <$> digits_value false 0 digits
  | digits => Z.of_nat <$> digits_value false 0 digits
  end.

(** [randint] is what [randint(0, 9999)] gave. *)
Definition _get_default_plan_name (user : string) (randint : nat) : string :=
  user +:+ "_asp_" +:+ format_04 randint.

(** [sorted(plans, key=lambda x: x.name)]: sorting keeps the order of plans
    of one name. *)
Fixpoint insert_by_name (a : plan) (l : list plan) : list plan :=
  match l with
  | [] => [a]
  | b :: l' =>
      if String.leb (asp_name a) (asp_name b) then a :: l
      else b :: insert_by_name a l'
  end.

Definition sorted_by_name (l : list plan) : list plan :=
  fold_right insert_by_name [] l.

(** The test of [next(a for a in _asp_list if ...)]. *)
Definition plan_fits (sku loc : string) (is_linux : bool) (a : plan) : bool :=
  match asp_sku a with
  | Some sku_name =>
      String.eqb (Py.lower sku_name) (Py.lower sku)
      && String.eqb (Py.lower (Py.replace (asp_location a) " " EmptyString))
                    (Py.lower loc)
      && bool_decide (asp_reserved a = Some is_linux)
  | None => false
  end.

(** [plans] are the plans that
    [client.app_service_plans.list_by_resource_group(resource_group_name)]
    yields. *)
Definition _determine_if_default_plan_to_use (plans : list plan)
    (plan_name loc sku : string) (create_rg is_linux : bool)
  : result string :=
  if create_rg then Ok plan_name
  else
    (* get all ASPs in the RG & filter to the ones that contain the
       asp_name *)
    match PyStr.rindex "_" plan_name with
    | None => Raise ValueError
    | Some i =>
        let _asp_generic := Py.slice_to i plan_name in
        let _asp_list :=
          List.filter (λ x, Py.contains (asp_name x) _asp_generic) plans in
        let _num_asp := length _asp_list in
        if 0 <? _num_asp then
          (* check if we have at least one app that can be used with the
             combination of loc, sku & os *)
          match List.find (plan_fits sku loc is_linux) _asp_list with
          | Some selected_asp => Ok (asp_name selected_asp)
          | None =>
              (* from the sorted data pick the last one & check if a new
                 ASP needs to be created based on SKU or not *)
              let data_sorted := sorted_by_name _asp_list in
              match data_sorted !! (_num_asp - 1) with
              | None => Raise IndexError
              | Some _plan_info =>
                  let _asp_num :=
                    match last (PyStr.split "_" (asp_name _plan_info)) with
                    | Some number =>
                        match py_int number with
                        | Some n => (n + 1)%Z
                        | None => 1%Z
                        end
                    | None => 1%Z
                    end in
                  Ok (_asp_generic +:+ "_" +:+ str_of_int _asp_num)
              end
          end
        else Ok plan_name
    end.
(** ** Detecting the runtime of a project *)

(** [runtime_details_dict] *)
Record runtime_details : Type := RuntimeDetails {
  language : string;
  file_loc : string;
  default_sku : string
}.

Section Detection.
Variable E : env.
(** Two more constants of [._constants]. *)
Variables (STATIC_RUNTIME_NAME LINUX_SKU_DEFAULT : string).
(** The function that tells the dotnet runtimes apart from the manifest;
    it is called for a manifest only. *)
Variable detect_dotnet_lang : string → bool → M string.

(** [os.path.isfile]: directories are no files, and a path that cannot be
    examined counts as no file. *)
Definition isfile (p : string) : M bool := λ w,
  (Ok (bool_decide (is_Some (fs w !! resolve E p))), w, []).

(** [fnmatch.fnmatch(file, "*.html") or ... "*.htm" or ... "*shtml."] on
    POSIX, where matching does not fold the case. *)
Definition is_html (file : string) : bool :=
  Py.endswith file ".html" || Py.endswith file ".htm"
  || Py.endswith file "shtml.".

(** The triples of [os.walk(top)], without the sub-directories: each
    directory that holds a file, with its files. *)
Definition walk_dirs (pairs : list (string * string))
  : list (string * list string) :=
  map (λ d, (d, map snd (List.filter (λ df, String.eqb (fst df) d) pairs)))
      (remove_dups (map fst pairs)).

(** [for file in files:] up to its [break]; the state is
    [(static_html_file, package_netcore_file)]. *)
Fixpoint scan_files (src_path : string) (html : bool) (_dirpath : string)
    (files : list string) (found : string * string) : M (string * string) :=
  match files with
  | [] => mret found
  | file :: rest =>
      if html && is_html file
      then mret (PosixPath.join src_path [file], snd found)
      else if Py.endswith file ".csproj"
      then
        let package_netcore_file := PosixPath.join src_path [file] in
        isfile package_netcore_file ≫= λ in_root : bool,
        mret (fst found,
              if in_root then package_netcore_file
              else PosixPath.join _dirpath [file])
      else scan_files src_path html _dirpath rest found
  end.

Definition get_lang_from_content (src_path : string) (html is_linux : bool)
  : M runtime_details :=
  let package_json_file := PosixPath.join src_path ["package.json"] in
  let package_python_file := PosixPath.join src_path ["requirements.txt"] in
  pairs ← os_walk E src_path (λ _, true);
  found ← for_fold (walk_dirs pairs) (EmptyString, EmptyString)
             (λ found dir,
                scan_files src_path html (fst dir) (snd dir) found);
  let static_html_file := fst found in
  let package_netcore_file := snd found in
  if html then
    if Py.truthy static_html_file
    then mret {| language := STATIC_RUNTIME_NAME;
                 file_loc := static_html_file;
                 default_sku := "F1" |}
    else raise (CLIError "The html flag was passed, but could not find HTML files, see 'https://go.microsoft.com/fwlink/?linkid=2109470' for more information")
  else
    isfile package_python_file ≫= λ is_python : bool,
    if is_python
    then mret {| language := PYTHON_RUNTIME_NAME E;
                 file_loc := package_python_file;
                 default_sku := LINUX_SKU_DEFAULT |}
    else
      isfile package_json_file ≫= λ has_package : bool,
      (if has_package then mret true else isfile "server.js")
        ≫= λ has_server : bool,
      (if has_server then mret true else isfile "index.js")
        ≫= λ is_node : bool,
      if is_node
      then
        isfile package_json_file ≫= λ has_package' : bool,
        mret {| language := NODE_RUNTIME_NAME E;
                file_loc := if has_package' then package_json_file
                            else EmptyString;
                default_sku := LINUX_SKU_DEFAULT |}
      else if Py.truthy package_netcore_file
      then
        runtime_lang ← detect_dotnet_lang package_netcore_file is_linux;
        mret {| language := runtime_lang;
                file_loc := package_netcore_file;
                default_sku := "F1" |}
      else raise (CLIError "Could not auto-detect the runtime stack of your app.")
.

(** What the scan of one directory can have found. *)
Definition found_in (src_path : string) (html : bool)
    (pairs : list (string * string)) (found : string * string) : Prop :=
  (fst found = EmptyString
   ∨ html = true
     ∧ ∃ d file, (d, file) ∈ pairs ∧ is_html file = true
                 ∧ fst found = PosixPath.join src_path [file])
  ∧ (snd found = EmptyString
     ∨ ∃ d file, (d, file) ∈ pairs ∧ Py.endswith file ".csproj" = true
                 ∧ (snd found = PosixPath.join src_path [file]
                    ∨ snd found = PosixPath.join d [file])).

End Detection.
(** ** More concrete projects *)

Module Packaged.
Import Scenario.

(** The surroundings of [chain_env] in which the library call number [n],
    counted from 0, fails. *)
Definition failing_at (n : nat) : env :=
  {| cwd := cwd chain_env;
     ET_fromstring := ET_fromstring chain_env;
     fault := λ k, k =? n;
     pop_sched := pop_sched chain_env;
     list_sched := list_sched chain_env;
     gettempdir := gettempdir chain_env;
     uuid4 := uuid4 chain_env;
     NETCORE_RUNTIME_NAME := NETCORE_RUNTIME_NAME chain_env;
     NODE_RUNTIME_NAME := NODE_RUNTIME_NAME chain_env;
     PYTHON_RUNTIME_NAME := PYTHON_RUNTIME_NAME chain_env;
     DOTNET_REFERENCES_DIR_IN_ZIP := DOTNET_REFERENCES_DIR_IN_ZIP chain_env |}.

(** The project [chain] packaged as a dotnetcore app, as a Node app, and
    as a dotnetcore app when creating the archive fails. *)
Definition dotnet_packaging : result string * world * list event :=
  zip_contents_from_dir chain_env "/home/u/App" "dotnetcore" chain.



(** The library calls that packaging [chain] makes when none fails; the
    last of them is the renaming of the staging archive. *)
Definition calls_of_packaging : nat := clock dotnet_packaging.1.2.

Definition unrenamed_packaging : result string * world * list event :=
  zip_contents_from_dir (failing_at (calls_of_packaging - 1)) "/home/u/App"
    "dotnetcore" chain.

(** A manifest with a reference that names no project. *)
Definition anonymous_text : string :=
  "<Project><ItemGroup><ProjectReference /></ItemGroup></Project>".

Definition anonymous_reference : Element :=
  Elem "ProjectReference" [] [].

Definition anonymous_group : Element :=
  Elem "ItemGroup" [] [anonymous_reference].

Definition anonymous_tree : Element := Elem "Project" [] [anonymous_group].

Definition anonymous_env : env :=
  {| cwd := "/home/u/App";
     ET_fromstring := λ text, if String.eqb text anonymous_text
                              then Some anonymous_tree else None;
     fault := λ _, false;
     pop_sched := λ _, 0;
     list_sched := λ _, 0;
     gettempdir := "/tmp";
     uuid4 := "0f8fad5b-d9cb-469f-a165-70867728950e";
     NETCORE_RUNTIME_NAME := "dotnetcore";
     NODE_RUNTIME_NAME := "node";
     PYTHON_RUNTIME_NAME := "python";
     DOTNET_REFERENCES_DIR_IN_ZIP := "references" |}.

Definition anonymous : world :=
  disk [(["home"; "u"; "App"; "App.csproj"], Raw anonymous_text);
        (["tmp"; "app.zip"], Zip [("App.csproj", Some (Raw anonymous_text))])].

Definition anonymous_main : result string * world * list event :=
  _get_dotnet_main_project_csproj anonymous_env "/home/u/App" anonymous.

Definition anonymous_parse : result Element * world * list event :=
  ET_parse anonymous_env "/home/u/App/App.csproj" anonymous_main.1.2.

Definition chain_references : result (list string) * world * list event :=
  _get_dotnet_project_references chain_env "/home/u/App/App.csproj" chain.

(** A project with several marks of a runtime, below the current
    directory [/home/u/App] of [chain_env], and a directory without any. *)
Definition mixed : world :=
  disk [(["srv"; "site"; "requirements.txt"], Raw "flask");
        (["srv"; "site"; "package.json"], Raw "{}");
        (["srv"; "site"; "Site.csproj"], Raw (manifest_text []));
        (["srv"; "site"; "static"; "index.html"], Raw "<html/>")].

Definition beside_server_js : world :=
  disk [(["srv"; "site"; "Site.csproj"], Raw (manifest_text []));
        (["home"; "u"; "App"; "server.js"], Raw "listen()")].

Definition unmarked : world :=
  disk [(["srv"; "site"; "README.md"], Raw "hello")].

Definition no_dotnet_detection (csproj_path : string) (is_linux : bool)
  : M string :=
  raise TypeError.

(** The plans of a resource group whose last default plan has the number
    12. *)
Definition group_plans : list plan :=
  [{| asp_name := "ann_asp_0012"; asp_sku := Some "B1";
      asp_location := "West Europe"; asp_reserved := Some true |};
   {| asp_name := "ann_asp_0003"; asp_sku := Some "B1";
      asp_location := "West Europe"; asp_reserved := Some true |};
   {| asp_name := "shared"; asp_sku := Some "F1";
      asp_location := "West Europe"; asp_reserved := Some false |}].

End Packaged.


(** * Properties of the bundler *)

(** ** The library functions on examples *)

Example replace_all_occurrences :
  Py.replace "a/b a/b" "a/b" "x" = "x x".
Proof. reflexivity. Qed.

Example replace_empty_pattern :
  Py.replace "abc" EmptyString "-" = "-a-b-c-".
Proof. reflexivity. Qed.

Example replace_no_overlap : Py.replace "aaa" "aa" "b" = "ba".
Proof. reflexivity. Qed.

Example dirname_basename :
  PosixPath.dirname "/home/u/Lib/Lib.csproj" = "/home/u/Lib"
  ∧ PosixPath.basename "/home/u/Lib" = "Lib"
  ∧ PosixPath.dirname "/Lib.csproj" = "/"
  ∧ PosixPath.basename "Lib.csproj" = "Lib.csproj".
Proof. repeat split; reflexivity. Qed.

Example abspath_dotdot :
  PosixPath.abspath "/home/u" (PosixPath.join "/home/u/App" ["../Lib/Lib.csproj"])
  = "/home/u/Lib/Lib.csproj"
  ∧ PosixPath.abspath "/home/u" "App/./x//y/" = "/home/u/App/x/y"
  ∧ PosixPath.resolve "/home/u" "../../../a" = ["a"]
  ∧ PosixPath.normpath "a/../.." = "..".
Proof. repeat split; reflexivity. Qed.

(** ** Running monadic code *)

Lemma bind_run {A B} (m : M A) (k : A → M B) (w : world) :
  (m ≫= k) w =
  match m w with
  | (Ok a, w1, t1) => let '(r, w2, t2) := k a w1 in (r, w2, t1 ++ t2)
  | (Raise e, w1, t1) => (Raise e, w1, t1)
  end.
Proof. reflexivity. Qed.

Lemma bind_inv {A B} (m : M A) (k : A → M B) w r w' t :
  (m ≫= k) w = (r, w', t) →
  (∃ e, m w = (Raise e, w', t) ∧ r = Raise e)
  ∨ (∃ a w1 t1 t2, m w = (Ok a, w1, t1) ∧ k a w1 = (r, w', t2)
                    ∧ t = t1 ++ t2).
Proof.
  rewrite bind_run. destruct (m w) as [[[a|e] w1] t1].
  - destruct (k a w1) as [[r2 w2] t2] eqn:Hk. intros [= <- <- <-].
    right. by exists a, w1, t1, t2.
  - intros [= <- <- <-]. left. by exists e.
Qed.

Lemma bind_Ok_inv {A B} (m : M A) (k : A → M B) w b w' t :
  (m ≫= k) w = (Ok b, w', t) →
  ∃ a w1 t1 t2, m w = (Ok a, w1, t1) ∧ k a w1 = (Ok b, w', t2) ∧ t = t1 ++ t2.
Proof.
  intros H. apply bind_inv in H as [(e & _ & [=])|H]. done.
Qed.

Lemma mret_run {A} (a : A) (w : world) : (mret a : M A) w = (Ok a, w, []).
Proof. reflexivity. Qed.

Lemma io_run (E : env) {A} ev (act : world → result A * world) w :
  io E ev act w =
  if fault E (clock w) then (Raise OSError, World (fs w) (S (clock w)), [ev])
  else let '(r, w2) := act (World (fs w) (S (clock w))) in (r, w2, [ev]).
Proof. reflexivity. Qed.

Lemma io_Ok_inv (E : env) {A} ev (act : world → result A * world) w a w' t :
  io E ev act w = (Ok a, w', t) →
  fault E (clock w) = false
  ∧ act (World (fs w) (S (clock w))) = (Ok a, w') ∧ t = [ev].
Proof.
  rewrite io_run. destruct (fault E (clock w)); [done|].
  destruct (act _) as [r w2]. by intros [= -> -> <-].
Qed.

(** ** The root manifest must be the only one (C5) *)

(** C5. When the root directory does not hold exactly one [.csproj] entry,
    [zip_dotnet_project_references] fails, and the listing of that directory
    is the only library call it has made: no manifest was parsed, no archive
    was opened, and the file system is as it was. *)
Theorem ambiguous_root_fails_first (E : env) (dirPath zip_file_path : string)
    (w : world) :
  length (csproj_entries E (fs w) dirPath) ≠ 1 →
  ∃ e, zip_dotnet_project_references E dirPath zip_file_path w
       = (Raise e, World (fs w) (S (clock w)), [EvListdir dirPath]).
Proof.
  intros Hlen. unfold zip_dotnet_project_references.
  rewrite bind_run. unfold _get_dotnet_main_project_csproj.
  rewrite bind_run. unfold os_listdir. rewrite io_run.
  destruct (fault E (clock w)); [by eexists|]. cbn [fs].
  unfold csproj_entries in Hlen.
  destruct (dir_entries (dom (fs w)) (resolve E dirPath)) as [|n ns] eqn:Hd;
    [by eexists|].
  destruct (List.filter _ (n :: ns)) as [|x [|y l]] eqn:Hf;
    [by eexists| |by eexists].
  by destruct Hlen.
Qed.

(** ** A manifest without references leaves everything alone (C10) *)

(** C10. When the root manifest is found and declares no project reference,
    [zip_dotnet_project_references] returns normally; it has listed the
    directory and parsed the manifest and done nothing else, so no staging
    archive exists and every file, the original archive included, is as it
    was. *)
Theorem no_references_no_mutation (E : env) (dirPath zip_file_path : string)
    (w w1 w2 : world) (csproj_path : string) (t1 t2 : list event) :
  _get_dotnet_main_project_csproj E dirPath w = (Ok csproj_path, w1, t1) →
  _get_dotnet_project_references E csproj_path w1 = (Ok [], w2, t2) →
  zip_dotnet_project_references E dirPath zip_file_path w
  = (Ok tt, w2, [EvListdir dirPath; EvParse csproj_path])
  ∧ fs w2 = fs w.
Proof.
  intros Hmain Hrefs. unfold zip_dotnet_project_references.
  rewrite bind_run, Hmain, bind_run, Hrefs. cbn.
  unfold _get_dotnet_main_project_csproj in Hmain.
  apply bind_Ok_inv in Hmain as (names & w0 & t0 & t0' & Hl & Hm & ->).
  apply io_Ok_inv in Hl as (_ & Hl & ->).
  destruct (dir_entries _ _) as [|n ns]; [done|]. injection Hl as <- <-.
  destruct (List.filter _ _) as [|x [|y ys]]; [done| |done].
  rewrite mret_run in Hm. injection Hm as <- <- <-.
  unfold _get_dotnet_project_references in Hrefs.
  apply bind_Ok_inv in Hrefs as (root & w3 & t3 & t3' & Hp & Hi & ->).
  apply io_Ok_inv in Hp as (_ & Hp & ->). cbn [fs clock] in Hp.
  assert (fs w3 = fs w) as Hfs.
  { destruct (fs w !! _) as [[text|ms]|]; [|done..].
    destruct (ET_fromstring E text); by simplify_eq. }
  destruct (includes _) as [incs|e]; [|done].
  rewrite mret_run in Hi. by simplify_eq.
Qed.

(** ** The staging archive is another file than the original *)

Lemma str_app_cons c s u : String c s +:+ u = String c (s +:+ u).
Proof. reflexivity. Qed.

Lemma str_app_assoc s u v : (s +:+ u) +:+ v = s +:+ (u +:+ v).
Proof. induction s as [|c s IH]; [done|]. by rewrite !str_app_cons, IH. Qed.

Lemma str_length_app s u :
  String.length (s +:+ u) = String.length s + String.length u.
Proof. induction s as [|c s IH]; [done|]. rewrite str_app_cons. simpl. lia. Qed.

Lemma str_app_tmp_ne s (u : string) : String.length u ≠ 0 → s +:+ u ≠ s.
Proof.
  intros Hu Heq. apply (f_equal String.length) in Heq.
  rewrite str_length_app in Heq. lia.
Qed.

Lemma split_slash_app_tmp s :
  ∃ init last,
    Py.split_slash s = init ++ [last]
    ∧ Py.split_slash (s +:+ ".tmp") = init ++ [last +:+ ".tmp"].
Proof.
  induction s as [|c s (init & last & H1 & H2)].
  - by exists [], EmptyString.
  - rewrite str_app_cons. cbn [Py.split_slash]. rewrite H1, H2.
    destruct (Ascii.eqb c "/").
    + by exists (EmptyString :: init), last.
    + destruct init as [|h init]; cbn.
      * by exists [], (String c last).
      * by exists (String c h :: init), last.
Qed.

Lemma startswith_slash_app_tmp s :
  Py.startswith (s +:+ ".tmp") "/" = Py.startswith s "/".
Proof.
  destruct s as [|c s]; [done|]. rewrite str_app_cons. unfold Py.startswith.
  cbn [String.prefix]. destruct (ascii_dec "/" c); [|done].
  generalize (s +:+ ".tmp"). intros u. by destruct s, u.
Qed.

Lemma norm_step_tmp b stack x :
  PosixPath.norm_step b stack (x +:+ ".tmp") = (x +:+ ".tmp") :: stack.
Proof.
  unfold PosixPath.norm_step.
  assert (∀ y, String.length y < 4 → String.eqb (x +:+ ".tmp") y = false) as H.
  { intros y Hy. apply String.eqb_neq. intros Heq.
    apply (f_equal String.length) in Heq. rewrite str_length_app in Heq.
    cbn in Heq. lia. }
  rewrite !H by (cbn; lia). done.
Qed.

Lemma norm_step_tmp_ne b stack x :
  PosixPath.norm_step b stack x ≠ (x +:+ ".tmp") :: stack.
Proof.
  unfold PosixPath.norm_step. intros H.
  assert (x +:+ ".tmp" ≠ x) as Hx by (by apply str_app_tmp_ne).
  repeat case_match; simplify_eq;
    try (by apply (f_equal length) in H; cbn in H; lia).
Qed.

Lemma norm_comps_tmp_ne q :
  PosixPath.norm_comps (q +:+ ".tmp") ≠ PosixPath.norm_comps q.
Proof.
  unfold PosixPath.norm_comps. rewrite startswith_slash_app_tmp.
  destruct (split_slash_app_tmp q) as (init & last & -> & ->).
  rewrite !fold_left_app. cbn [fold_left]. rewrite norm_step_tmp.
  intros H. apply (f_equal (@rev string)) in H.
  rewrite !rev_involutive in H. symmetry in H.
  by apply norm_step_tmp_ne in H.
Qed.

Lemma absolutize_tmp cwd z :
  PosixPath.absolutize cwd (z +:+ ".tmp")
  = PosixPath.absolutize cwd z +:+ ".tmp".
Proof.
  unfold PosixPath.absolutize, PosixPath.join2.
  rewrite startswith_slash_app_tmp.
  destruct (Py.startswith z "/"); [done|].
  destruct (_ || _); by rewrite ?str_app_assoc.
Qed.

(** The staging path never designates the original archive's file. *)
Lemma resolve_tmp_ne (E : env) (zip_file_path : string) :
  resolve E (zip_file_path +:+ ".tmp") ≠ resolve E zip_file_path.
Proof.
  unfold resolve, PosixPath.resolve. rewrite absolutize_tmp.
  apply norm_comps_tmp_ne.
Qed.

(** ** Staging writes to the staging archive only *)

Section Staging.
Variable E : env.
Implicit Types K : path.

Lemma fs_frame_refl K w : fs_frame K w w.
Proof. by intros k _. Qed.

Lemma fs_frame_trans K w1 w2 w3 :
  fs_frame K w1 w2 → fs_frame K w2 w3 → fs_frame K w1 w3.
Proof. intros H1 H2 k Hk. by rewrite H2, H1. Qed.

Lemma fs_frame_same K w w' : fs w' = fs w → fs_frame K w w'.
Proof. intros H k _. by rewrite H. Qed.

Lemma stages_mret K {A} (a : A) : stages K (mret a : M A).
Proof.
  intros w r w' t [= <- <- <-]. split; [apply fs_frame_refl|constructor].
Qed.

Lemma stages_raise K {A} (e : exn) : stages K (raise e : M A).
Proof.
  intros w r w' t [= <- <- <-]. split; [apply fs_frame_refl|constructor].
Qed.

Lemma stages_bind K {A B} (m : M A) (k : A → M B) :
  stages K m → (∀ a, stages K (k a)) → stages K (m ≫= k).
Proof.
  intros Hm Hk w r w' t
    [(e & H & ->)|(a & w1 & t1 & t2 & H1 & H2 & ->)]%bind_inv.
  - by apply Hm in H.
  - apply Hm in H1 as [? ?]. apply Hk in H2 as [? ?].
    split; [by eapply fs_frame_trans|by apply Forall_app].
Qed.

Lemma stages_for_each K {A} (l : list A) (body : A → M unit) :
  (∀ x, stages K (body x)) → stages K (for_each l body).
Proof.
  intros Hb. induction l as [|x l IH]; [apply stages_mret|].
  apply stages_bind; [apply Hb|by intros _].
Qed.

Lemma stages_for_fold K {A S} (l : list A) (acc : S) (body : S → A → M S) :
  (∀ s x, stages K (body s x)) → stages K (for_fold l acc body).
Proof.
  intros Hb. revert acc. induction l as [|x l IH]; intros acc;
    [apply stages_mret|].
  apply stages_bind; [apply Hb|done].
Qed.

Lemma stages_io K {A} ev (act : world → result A * world) :
  is_swap ev = false →
  (∀ w r w', act w = (r, w') → fs_frame K w w') →
  stages K (io E ev act).
Proof.
  intros Hev Hact w r w' t. rewrite io_run.
  destruct (fault E (clock w)).
  - intros [= <- <- <-]. split; [by apply fs_frame_same|by constructor].
  - destruct (act _) as [r2 w2] eqn:Ha. intros [= <- <- <-].
    apply Hact in Ha. split; [done|by constructor].
Qed.

Lemma stages_os_listdir K dir : stages K (os_listdir E dir).
Proof.
  apply stages_io; [done|]. intros w r w' H. apply fs_frame_same.
  destruct (dir_entries _ _); by simplify_eq.
Qed.

Lemma stages_os_walk K top keep : stages K (os_walk E top keep).
Proof.
  intros w r w' t [= <- <- <-].
  split; [apply fs_frame_refl|by repeat constructor].
Qed.

Lemma stages_ET_parse K p : stages K (ET_parse E p).
Proof.
  apply stages_io; [done|]. intros w r w' H. apply fs_frame_same.
  repeat case_match; by simplify_eq.
Qed.

Lemma stages_read_text K p : stages K (read_text E p).
Proof.
  apply stages_io; [done|]. intros w r w' H. apply fs_frame_same.
  repeat case_match; by simplify_eq.
Qed.

Lemma stages_zip_open_r K p : stages K (zip_open_r E p).
Proof.
  apply stages_io; [done|]. intros w r w' H. apply fs_frame_same.
  repeat case_match; by simplify_eq.
Qed.

Lemma stages_zip_read K p ms name : stages K (zip_read E p ms name).
Proof.
  apply stages_io; [done|]. intros w r w' H. apply fs_frame_same.
  repeat case_match; by simplify_eq.
Qed.

Lemma add_member_frame zip_path m w r w' :
  add_member E zip_path m w = (r, w') →
  fs_frame (resolve E zip_path) w w'.
Proof.
  unfold add_member.
  destruct (fs w !! _) as [[text|ms]|]; intros [= <- <-];
    try apply fs_frame_refl.
  intros k Hk. cbn. by rewrite lookup_insert_ne.
Qed.

Lemma stages_zip_open_w p : stages (resolve E p) (zip_open_w E p).
Proof.
  apply stages_io; [done|]. intros w r w' [= <- <-] k Hk.
  cbn. by rewrite lookup_insert_ne.
Qed.

Lemma stages_zip_open_a p : stages (resolve E p) (zip_open_a E p).
Proof.
  apply stages_io; [done|]. intros w r w' H k Hk.
  repeat case_match; simplify_eq; cbn; by rewrite ?lookup_insert_ne.
Qed.

Lemma stages_zip_mkdir p name : stages (resolve E p) (zip_mkdir E p name).
Proof.
  apply stages_io; [done|]. intros w r w'. apply add_member_frame.
Qed.

Lemma stages_zip_writestr p name data :
  stages (resolve E p) (zip_writestr E p name data).
Proof.
  apply stages_io; [done|]. intros w r w'. apply add_member_frame.
Qed.

Lemma stages_zip_write p source arcname :
  stages (resolve E p) (zip_write E p source arcname).
Proof.
  apply stages_io; [done|]. intros w r w' H. cbv zeta in H.
  repeat case_match; simplify_eq;
    try apply fs_frame_refl; by eapply add_member_frame.
Qed.

Lemma stages_get_main K dirPath :
  stages K (_get_dotnet_main_project_csproj E dirPath).
Proof.
  apply stages_bind; [apply stages_os_listdir|]. intros names. cbv zeta.
  repeat case_match; (apply stages_mret || apply stages_raise).
Qed.

Lemma stages_get_references K p :
  stages K (_get_dotnet_project_references E p).
Proof.
  apply stages_bind; [apply stages_ET_parse|]. intros root.
  case_match; (apply stages_mret || apply stages_raise).
Qed.

Lemma stages_closure_loop K fuel n res new :
  stages K (closure_loop E fuel n res new).
Proof.
  revert n res new. induction fuel as [|fuel IH]; intros n res new; cbn;
    destruct (any_set new); try apply stages_mret; try apply stages_raise.
  destruct (set_pop _ _) as [[x new']|]; [|apply stages_raise].
  apply stages_bind; [apply stages_get_references|]. intros refs.
  destruct (fold_left _ _ _). apply IH.
Qed.

Lemma stages_transitive K current :
  stages K (_get_dotnet_transitive_missing_references E current).
Proof.
  intros w r w' t H. unfold _get_dotnet_transitive_missing_references in H.
  revert H. apply stages_bind; [apply stages_closure_loop|].
  intros res. apply stages_mret.
Qed.

Lemma stages_append dirPath refs p :
  stages (resolve E p) (_append_dotnet_references E dirPath refs p).
Proof.
  apply stages_bind; [apply stages_zip_open_a|]. intros _.
  apply stages_for_fold. intros d include.
  apply stages_bind; [apply stages_os_walk|]. intros files.
  apply stages_bind.
  { apply stages_for_each. intros df. apply stages_zip_write. }
  intros _. apply stages_bind; [apply stages_zip_write|].
  intros _. apply stages_mret.
Qed.

Lemma stages_copy_original zip p :
  stages (resolve E p) (copy_original E zip p).
Proof.
  apply stages_bind; [apply stages_zip_open_r|]. intros ms.
  apply stages_for_each. intros [name data]. cbn [fst].
  destruct (negb _); [|apply stages_mret].
  apply stages_bind; [apply stages_zip_read|]. intros content.
  apply stages_zip_writestr.
Qed.

Lemma stages_build dirPath zip csproj refs p :
  stages (resolve E p) (build_staging_archive E dirPath zip csproj refs p).
Proof.
  unfold build_staging_archive.
  apply stages_bind; [apply stages_zip_open_w|]. intros _.
  apply stages_bind; [apply stages_zip_mkdir|]. intros _.
  apply stages_bind; [apply stages_append|]. intros d.
  apply stages_bind; [apply stages_read_text|]. intros text.
  apply stages_bind; [apply stages_transitive|]. intros trans.
  apply stages_bind.
  { destruct (Py.any trans); [|apply stages_mret].
    apply stages_bind; [apply stages_append|].
    intros _. apply stages_mret. }
  intros _. apply stages_bind; [apply stages_zip_open_a|]. intros _.
  apply stages_bind; [apply stages_zip_write|]. intros _.
  apply stages_bind; [apply stages_zip_writestr|]. intros _.
  apply stages_copy_original.
Qed.

End Staging.

(** ** Finalization swaps the archives last (C2) *)

Lemma io_trace (E : env) {A} ev (act : world → result A * world) w r w' t :
  io E ev act w = (r, w', t) → t = [ev].
Proof.
  rewrite io_run. destruct (fault E (clock w)); [by intros [= <- <- <-]|].
  destruct (act _). by intros [= <- <- <-].
Qed.

Lemma no_swap_app (t1 t2 : list event) :
  no_swap t1 → no_swap t2 → no_swap (t1 ++ t2).
Proof. intros H1 H2. by apply Forall_app. Qed.

Lemma no_swap_not_removed (t : list event) (p : string) :
  no_swap t → EvRemove p ∉ t.
Proof.
  intros Ht Hin. unfold no_swap in Ht. rewrite Forall_forall in Ht.
  by apply Ht in Hin.
Qed.

(** C2. In every run of [zip_dotnet_project_references], whatever the file
    system and whichever library calls fail: when Steps 1 to 4 (the
    construction of the staging archive and the copy of the original's
    members) raise an error, that error leaves the function and the file at
    the original archive's path is what it was before the run; more
    generally that file is untouched as long as [os.remove] has not been
    called on it; and [os.remove] is called only after Steps 1 to 4 have
    returned normally, at which point the original is still unchanged. *)
Theorem finalization_atomic (E : env) (dirPath zip_file_path : string)
    (w w' : world) (r : result unit) (t : list event) :
  zip_dotnet_project_references E dirPath zip_file_path w = (r, w', t) →
  (∀ csproj_path abs_references w1 t1 w2 t2 e w4 t4,
     _get_dotnet_main_project_csproj E dirPath w = (Ok csproj_path, w1, t1) →
     _get_dotnet_project_references E csproj_path w1
     = (Ok abs_references, w2, t2) →
     Py.any abs_references = true →
     build_staging_archive E dirPath zip_file_path csproj_path
       abs_references (zip_file_path +:+ ".tmp") w2 = (Raise e, w4, t4) →
     r = Raise e
     ∧ fs w' !! resolve E zip_file_path = fs w !! resolve E zip_file_path)
  ∧ (EvRemove zip_file_path ∉ t →
     fs w' !! resolve E zip_file_path = fs w !! resolve E zip_file_path)
  ∧ (EvRemove zip_file_path ∈ t →
     ∃ csproj_path abs_references w1 t1 w2 t2 w4 t4 t5,
       _get_dotnet_main_project_csproj E dirPath w = (Ok csproj_path, w1, t1)
       ∧ _get_dotnet_project_references E csproj_path w1
         = (Ok abs_references, w2, t2)
       ∧ build_staging_archive E dirPath zip_file_path csproj_path
           abs_references (zip_file_path +:+ ".tmp") w2 = (Ok tt, w4, t4)
       ∧ fs w4 !! resolve E zip_file_path = fs w !! resolve E zip_file_path
       ∧ no_swap (t1 ++ t2 ++ t4)
       ∧ t = t1 ++ t2 ++ t4 ++ EvRemove zip_file_path :: t5).
Proof.
  set (K := resolve E (zip_file_path +:+ ".tmp")).
  assert (resolve E zip_file_path ≠ K) as Hne.
  { intros Heq. by apply (resolve_tmp_ne E zip_file_path). }
  assert (∀ {A} (m : M A) w0 r0 w0' t0,
            stages K m → m w0 = (r0, w0', t0) →
            fs w0' !! resolve E zip_file_path = fs w0 !! resolve E zip_file_path
            ∧ no_swap t0) as Hq.
  { intros A m w0 r0 w0' t0 Hm Hrun. apply Hm in Hrun as [Hf Ht].
    split; [by apply Hf|done]. }
  intros H. split.
  { intros csproj_path abs_references w1 t1 w2 t2 e w4 t4 Hm Hr Hany Hb.
    unfold zip_dotnet_project_references in H.
    rewrite bind_run, Hm, bind_run, Hr, Hany, bind_run, Hb in H.
    injection H as <- <- <-. split; [done|].
    apply Hq in Hb as [-> _]; [|apply stages_build].
    apply Hq in Hr as [-> _]; [|apply stages_get_references].
    apply Hq in Hm as [-> _]; [done|apply stages_get_main]. }
  revert H.
  intros H. unfold zip_dotnet_project_references in H.
  apply bind_inv in H
    as [(e & H & ->)|(csproj_path & w1 & t1 & ta & H1 & H & ->)].
  { apply Hq in H as [Hf Ht]; [|apply stages_get_main].
    split; [done|]. intros Hin. by apply no_swap_not_removed in Hin. }
  pose proof H1 as [Hf1 Ht1]%Hq; [|apply stages_get_main].
  apply bind_inv in H
    as [(e & H & ->)|(abs_references & w2 & t2 & tb & H2 & H & ->)].
  { apply Hq in H as [Hf Ht]; [|apply stages_get_references].
    split; [by rewrite Hf|]. intros Hin.
    apply (no_swap_not_removed (t1 ++ ta)) in Hin; [done|].
    by apply no_swap_app. }
  pose proof H2 as [Hf2 Ht2]%Hq; [|apply stages_get_references].
  destruct (Py.any abs_references).
  2:{ rewrite mret_run in H. injection H as <- <- <-.
      split; [by rewrite Hf2|]. intros Hin.
      apply (no_swap_not_removed (t1 ++ t2 ++ [])) in Hin; [done|].
      repeat apply no_swap_app; (done || constructor). }
  apply bind_inv in H as [(e & H & ->)|([] & w4 & t4 & tc & H4 & H & ->)].
  { apply Hq in H as [Hf Ht]; [|apply stages_build].
    split; [by rewrite Hf, Hf2|]. intros Hin.
    apply (no_swap_not_removed (t1 ++ t2 ++ tb)) in Hin; [done|].
    repeat apply no_swap_app; (done || constructor). }
  pose proof H4 as [Hf4 Ht4]%Hq; [|apply stages_build].
  assert (∃ t5, tc = EvRemove zip_file_path :: t5) as [t5 ->].
  { apply bind_inv in H
      as [(e & H & ->)|([] & w5 & t5 & t6 & H5 & H & ->)].
    - apply io_trace in H as ->. by eexists.
    - apply io_trace in H5 as ->. by eexists. }
  split.
  - intros Hnot. destruct Hnot. rewrite !elem_of_app.
    do 3 right. by left.
  - intros _. exists csproj_path, abs_references, w1, t1, w2, t2, w4, t4, t5.
    repeat split; try done.
    + by rewrite Hf4, Hf2.
    + repeat apply no_swap_app; (done || constructor).
Qed.

(** ** The closure of the references (C3, C4) *)

Section Closure.
Variable E : env.

Lemma get_references_run p w r w' t :
  _get_dotnet_project_references E p w = (r, w', t) →
  fs w' = fs w ∧ t = [EvParse p]
  ∧ match r with
    | Ok refs =>
        ∃ f, fs w !! resolve E p = Some f ∧ refs = declared_references E f
    | Raise e => e ≠ FuelExhausted
    end.
Proof.
  unfold _get_dotnet_project_references, ET_parse.
  rewrite bind_run, io_run. destruct (fault E (clock w)).
  { intros [= <- <- <-]. by repeat split. }
  cbn [fs clock]. destruct (fs w !! resolve E p) as [[text|ms]|] eqn:Hf;
    try (intros [= <- <- <-]; by repeat split).
  destruct (ET_fromstring E text) as [root|] eqn:Hp;
    [|intros [= <- <- <-]; by repeat split].
  destruct (includes (project_references root)) as [refs|e] eqn:Hi;
    intros [= <- <- <-]; repeat split; try done.
  - exists (Raw text). split; [done|]. cbn. by rewrite Hp, Hi.
  - clear Hp. induction (project_references root) as [|x l IH] in e, Hi |- *;
      [done|]. cbn in Hi. destruct (attrib_get _ _); [|by simplify_eq].
    destruct (includes l); [done|]. simplify_eq. by eapply IH.
Qed.

Lemma declared_in_all (files : gmap path file) k f s :
  files !! k = Some f → s ∈ declared_references E f →
  s ∈ all_declared E files.
Proof.
  intros Hk Hs. unfold all_declared. apply list_elem_of_In, in_flat_map.
  exists (k, f). split; [|by apply list_elem_of_In].
  apply list_elem_of_In. by apply elem_of_map_to_list.
Qed.

Lemma set_pop_spec choice (s s' : gset string) x :
  set_pop choice s = Some (x, s') → x ∈ s ∧ s' = s ∖ {[x]}.
Proof.
  unfold set_pop. destruct (elements s !! _) as [y|] eqn:Hy; [|done].
  intros [= -> <-]. split; [|done].
  apply elem_of_elements. by eapply list_elem_of_lookup_2.
Qed.

Lemma suggest_fold l res new res' new' :
  fold_left suggest l (res, new) = (res', new') →
  (∀ s, s ∈ res' ↔ s ∈ res ∨ s ∈ l)
  ∧ (∀ s, s ∈ new' ↔ s ∈ new ∨ (s ∈ l ∧ s ∉ res)).
Proof.
  revert res new. induction l as [|x l IH]; intros res new; cbn.
  { intros [= <- <-]. split; intros s; rewrite elem_of_nil; naive_solver. }
  case_bool_decide as Hx; intros [H1 H2]%IH; split; intros s;
    rewrite ?H1, ?H2, ?elem_of_cons, ?elem_of_app, ?list_elem_of_singleton,
      ?elem_of_union, ?elem_of_singleton.
  - naive_solver.
  - destruct (decide (s = x)); naive_solver.
  - naive_solver.
  - destruct (decide (s = x)); naive_solver.
Qed.

Lemma suggest_fold_potential files l res new res' new' :
  fold_left suggest l (res, new) = (res', new') →
  (∀ s, s ∈ l → s ∈ all_declared E files) →
  closure_potential E files res' new' ≤ closure_potential E files res new.
Proof.
  unfold closure_potential.
  revert res new. induction l as [|x l IH]; intros res new; cbn.
  { by intros [= <- <-]. }
  intros Hf Hl. case_bool_decide as Hx.
  { apply IH in Hf; [done|]. intros s Hs. apply Hl. by right. }
  apply IH in Hf; [|intros s Hs; apply Hl; by right].
  etrans; [exact Hf|].
  assert (size ({[x]} ∪ new) ≤ S (size new)) as H1.
  { rewrite size_union_alt, size_singleton.
    assert (size (new ∖ {[x]}) ≤ size new); [|lia].
    apply subseteq_size. set_solver. }
  assert (size ((list_to_set (all_declared E files) : gset string)
                  ∖ list_to_set (res ++ [x]))
          < size ((list_to_set (all_declared E files) : gset string)
                    ∖ list_to_set res)) as H2; [|lia].
  apply subset_size. split.
  - rewrite list_to_set_app_L. set_solver.
  - intros Hsub. specialize (Hsub x).
    rewrite !elem_of_difference, !elem_of_list_to_set, elem_of_app in Hsub.
    destruct Hsub as [_ Hsub].
    + split; [apply Hl; by left|done].
    + apply Hsub. right. by left.
Qed.

Lemma closure_step_potential w x (new : gset string) res refs res' new' f :
  x ∈ new → fs w !! resolve E x = Some f → refs = declared_references E f →
  fold_left suggest refs (res, new ∖ {[x]}) = (res', new') →
  closure_potential E (fs w) res' new' < closure_potential E (fs w) res new.
Proof.
  intros Hx Hf -> Hfold.
  eapply Nat.le_lt_trans.
  { eapply suggest_fold_potential; [done|]. intros s. by eapply declared_in_all. }
  unfold closure_potential.
  assert (size (new ∖ {[x]}) < size new); [|lia].
  apply subset_size. set_solver.
Qed.

Lemma closure_loop_enough fuel fuel' n res new w :
  closure_potential E (fs w) res new < fuel →
  closure_potential E (fs w) res new < fuel' →
  closure_loop E fuel n res new w = closure_loop E fuel' n res new w.
Proof.
  revert fuel' n res new w.
  induction fuel as [|fuel IH]; intros fuel' n res new w Hf Hf'; [lia|].
  destruct fuel' as [|fuel']; [lia|]. cbn.
  destruct (any_set new); [|done].
  destruct (set_pop _ _) as [[x new']|] eqn:Hpop; [|done].
  apply set_pop_spec in Hpop as [Hx ->].
  rewrite !bind_run.
  destruct (_get_dotnet_project_references E x w) as [[[refs|e] w1] t1]
    eqn:Hrun; [|done].
  apply get_references_run in Hrun as (Hfs & _ & f & Hlook & Hrefs).
  destruct (fold_left _ _ _) as [res' new''] eqn:Hfold.
  eapply closure_step_potential in Hfold; [|done..].
  rewrite (IH fuel'); [done|rewrite Hfs; lia..].
Qed.

Lemma closure_loop_not_exhausted fuel n res new w r w' t :
  closure_potential E (fs w) res new < fuel →
  closure_loop E fuel n res new w = (r, w', t) →
  r ≠ Raise FuelExhausted.
Proof.
  revert n res new w r w' t.
  induction fuel as [|fuel IH]; intros n res new w r w' t Hf; [lia|]. cbn.
  destruct (any_set new); [|by intros [= <- <- <-]].
  destruct (set_pop _ _) as [[x new']|] eqn:Hpop; [|by intros [= <- <- <-]].
  apply set_pop_spec in Hpop as [Hx ->].
  intros [(e & Hrun & ->)|(refs & w1 & t1 & t2 & Hrun & Hk & ->)]%bind_inv.
  { apply get_references_run in Hrun as (_ & _ & He). congruence. }
  apply get_references_run in Hrun as (Hfs & _ & f & Hlook & Hrefs).
  destruct (fold_left _ _ _) as [res' new''] eqn:Hfold.
  eapply closure_step_potential in Hfold; [|done..].
  eapply IH; [|done]. rewrite Hfs. lia.
Qed.

Lemma closure_potential_init files (current : list string) :
  closure_potential E files current (list_to_set current)
  < closure_bound E files current.
Proof.
  unfold closure_potential, closure_bound.
  assert (∀ l : list string, size (list_to_set l : gset string) ≤ length l)
    as Hsz.
  { induction l as [|x l IH]; [done|]. cbn.
    rewrite size_union_alt, size_singleton.
    assert (size ((list_to_set l : gset string) ∖ {[x]})
            ≤ size (list_to_set l : gset string)); [|lia].
    apply subseteq_size. set_solver. }
  pose proof (Hsz current). pose proof (Hsz (all_declared E files)).
  assert (size ((list_to_set (all_declared E files) : gset string)
                  ∖ list_to_set current)
          ≤ size (list_to_set (all_declared E files) : gset string));
    [|lia].
  apply subseteq_size. set_solver.
Qed.

(** Each manifest the loop parses is either waiting in [newReference] or
    not yet in [result_references]: so none is parsed twice. *)
Lemma closure_loop_parsed fuel n res (new : gset string) w r w' t :
  closure_loop E fuel n res new w = (r, w', t) →
  (∀ s, s ∈ new → s ∈ res) →
  ∃ ps, t = EvParse <$> ps ∧ NoDup ps ∧ ∀ p, p ∈ ps → p ∈ new ∨ p ∉ res.
Proof.
  revert n res new w r w' t.
  induction fuel as [|fuel IH]; intros n res new w r w' t; cbn;
    destruct (any_set new);
    try (intros [= <- <- <-] _; exists []; split; [done|];
         split; [constructor|by intros p ?%elem_of_nil]).
  destruct (set_pop _ _) as [[x new']|] eqn:Hpop.
  2:{ intros [= <- <- <-] _. exists []. split; [done|].
      split; [constructor|by intros p ?%elem_of_nil]. }
  apply set_pop_spec in Hpop as [Hx ->].
  intros [(e & Hrun & ->)|(refs & w1 & t1 & t2 & Hrun & Hk & ->)]%bind_inv
    Hnew.
  { apply get_references_run in Hrun as (_ & -> & _). exists [x].
    split; [done|]. split; [apply NoDup_singleton|].
    intros p ->%list_elem_of_singleton. by left. }
  apply get_references_run in Hrun as (_ & -> & _).
  destruct (fold_left _ _ _) as [res' new''] eqn:Hfold.
  apply suggest_fold in Hfold as [Hres Hnew'].
  apply IH in Hk as (ps & -> & Hnd & Hps).
  2:{ intros s. rewrite Hnew', Hres, elem_of_difference.
      intros [[? _]|[? _]]; [left; by apply Hnew|by right]. }
  exists (x :: ps). split; [done|]. split.
  - apply NoDup_cons. split; [|done]. intros Hin.
    apply Hps in Hin as [Hin|Hin].
    + apply Hnew' in Hin as [Hin|[_ Hin]]; [set_solver|].
      apply Hin. by apply Hnew.
    + apply Hin, Hres. left. by apply Hnew.
  - intros p [->|Hp]%elem_of_cons; [by left|].
    apply Hps in Hp as [Hp|Hp].
    + apply Hnew' in Hp as [Hp|[_ Hp]]; [left; set_solver|by right].
    + right. intros Hin. apply Hp, Hres. by left.
Qed.

Lemma parsed_fmap ps : parsed (EvParse <$> ps) = ps.
Proof. induction ps as [|p ps IH]; [done|]. cbn. f_equal. apply IH. Qed.

Lemma insert_at_perm {A} i (x : A) l : insert_at i x l ≡ₚ x :: l.
Proof.
  unfold insert_at. rewrite <- Permutation_middle.
  by rewrite take_drop.
Qed.

Lemma arrange_perm {A} sched (l : list A) : arrange sched l ≡ₚ l.
Proof.
  induction l as [|x l IH]; [done|]. cbn [arrange].
  by rewrite insert_at_perm, IH.
Qed.

Lemma list_of_set_NoDup (s : gset string) : NoDup (list_of_set E s).
Proof.
  unfold list_of_set. rewrite arrange_perm. apply NoDup_elements.
Qed.

Lemma elem_of_list_of_set (s : gset string) x : x ∈ list_of_set E s ↔ x ∈ s.
Proof.
  unfold list_of_set. by rewrite arrange_perm, elem_of_elements.
Qed.

End Closure.

(** C3. For every file system (every reference graph, cyclic or not, with or
    without repeated edges), every order in which [set.pop] hands out the
    waiting references and every pattern of failing library calls, the
    closure loop of [_get_dotnet_transitive_missing_references] ends: it is
    never cut off at [closure_bound] iterations, and any larger allowance
    gives the same run.  No manifest is parsed twice during the run, and a
    result, when there is one, has no duplicate. *)
Theorem closure_terminates (E : env) (current_references : list string)
    (w w' : world) (r : result (list string)) (t : list event) :
  _get_dotnet_transitive_missing_references E current_references w
  = (r, w', t) →
  r ≠ Raise FuelExhausted
  ∧ (∀ fuel, closure_bound E (fs w) current_references ≤ fuel →
       closure_loop E fuel 0 current_references
                    (list_to_set current_references) w
       = closure_loop E (closure_bound E (fs w) current_references) 0
                      current_references (list_to_set current_references) w)
  ∧ NoDup (parsed t)
  ∧ (∀ l, r = Ok l → NoDup l).
Proof.
  unfold _get_dotnet_transitive_missing_references.
  pose proof (closure_potential_init E (fs w) current_references) as Hinit.
  intros [(e & Hrun & ->)|(res & w1 & t1 & t2 & Hrun & Hk & ->)]%bind_inv.
  - split; [|split; [|split]].
    + by eapply closure_loop_not_exhausted.
    + intros fuel Hfuel. apply closure_loop_enough; lia.
    + apply closure_loop_parsed in Hrun as (ps & -> & Hnd & _).
      * by rewrite parsed_fmap.
      * intros s. by rewrite elem_of_list_to_set.
    + done.
  - rewrite mret_run in Hk. injection Hk as <- <- <-.
    split; [done|]. split; [|split].
    + intros fuel Hfuel. apply closure_loop_enough; lia.
    + apply closure_loop_parsed in Hrun as (ps & -> & Hnd & _).
      * by rewrite app_nil_r, parsed_fmap.
      * intros s. by rewrite elem_of_list_to_set.
    + intros l [= <-]. apply list_of_set_NoDup.
Qed.

(** ** What staging adds to the archive *)

Section Appending.
Variable E : env.
Implicit Types K : path.

Lemma appended_nil K w w' ms :
  fs w !! K = Some (Zip ms) → fs w' = fs w → appended K w w' [].
Proof.
  intros Hk Hfs. exists ms. split; [done|].
  by rewrite app_nil_r, insert_id.
Qed.

Lemma appended_trans K w1 w2 w3 n1 n2 :
  appended K w1 w2 n1 → appended K w2 w3 n2 → appended K w1 w3 (n1 ++ n2).
Proof.
  intros (ms & Hk & H12) (ms' & Hk' & H23). exists ms. split; [done|].
  rewrite H12, lookup_insert_eq in Hk'. injection Hk' as <-.
  by rewrite H23, H12, insert_insert_eq, app_assoc.
Qed.

Lemma appended_dom K w w' new :
  appended K w w' new → dom (fs w') = dom (fs w).
Proof.
  intros (ms & Hk & ->). rewrite dom_insert_L.
  apply elem_of_dom_2 in Hk. set_solver.
Qed.

Lemma appended_lookup K w w' new :
  appended K w w' new →
  ∃ ms, fs w !! K = Some (Zip ms) ∧ fs w' !! K = Some (Zip (ms ++ new)).
Proof.
  intros (ms & Hk & ->). exists ms. by rewrite lookup_insert_eq.
Qed.

Lemma appended_other K w w' new k :
  appended K w w' new → k ≠ K → fs w' !! k = fs w !! k.
Proof. intros (ms & Hk & ->) Hne. by rewrite lookup_insert_ne. Qed.

Lemma add_member_Ok p m w w' :
  add_member E p m w = (Ok tt, w') → appended (resolve E p) w w' [m].
Proof.
  unfold add_member.
  destruct (fs w !! resolve E p) as [[text|ms]|] eqn:Hk; [done| |done].
  intros [= <-]. by exists ms.
Qed.

Lemma zip_write_Ok p source arcname w w' t :
  zip_write E p source arcname w = (Ok tt, w', t) →
  ∃ data,
    appended (resolve E p) w w'
      [(member_name E (dom (fs w)) source arcname, Some data)].
Proof.
  intros (_ & H & _)%io_Ok_inv. cbv zeta in H. cbn [fs] in H.
  unfold member_name.
  destruct (fs w !! resolve E source) as [f|] eqn:Hs.
  - rewrite bool_decide_eq_true_2 by by eapply elem_of_dom_2.
    destruct (PosixPath.lstrip_slashes _); [done|].
    apply add_member_Ok in H. by exists f.
  - rewrite bool_decide_eq_false_2 by by apply not_elem_of_dom.
    destruct (is_dir _ _); [|done].
    destruct (PosixPath.lstrip_slashes _); [done|].
    apply add_member_Ok in H. by exists (Raw EmptyString).
Qed.

Lemma zip_writestr_Ok p name data w w' t :
  zip_writestr E p name data w = (Ok tt, w', t) →
  appended (resolve E p) w w' [(name, Some data)].
Proof. intros (_ & H & _)%io_Ok_inv. by apply add_member_Ok in H. Qed.

Lemma zip_open_a_Ok p w w' t ms :
  fs w !! resolve E p = Some (Zip ms) →
  zip_open_a E p w = (Ok tt, w', t) → fs w' = fs w.
Proof.
  intros Hk (_ & H & _)%io_Ok_inv. cbn [fs] in H. rewrite Hk in H.
  by injection H as <-.
Qed.

(** The inner loop of [_append_dotnet_references]. *)
Lemma write_files_Ok p (source arcname : string * string → string)
    (files : list (string * string)) w w' t ms :
  fs w !! resolve E p = Some (Zip ms) →
  for_each files (λ df, zip_write E p (source df) (arcname df)) w
  = (Ok tt, w', t) →
  ∃ new,
    appended (resolve E p) w w' new
    ∧ new.*1 = map (λ df, member_name E (dom (fs w)) (source df) (arcname df))
                   files.
Proof.
  revert w t ms. induction files as [|df files IH]; intros w t ms Hk; cbn.
  { intros [= <- <-]. exists []. split; [by eapply appended_nil|done]. }
  intros ([] & w1 & t1 & t2 & H1 & H2 & ->)%bind_Ok_inv.
  apply zip_write_Ok in H1 as [data H1].
  pose proof (appended_lookup _ _ _ _ H1) as (ms' & _ & Hk1).
  apply IH with (ms := ms' ++ [(member_name E (dom (fs w)) (source df)
                                   (arcname df), Some data)]) in H2
    as (new & H2 & Hnames); [|done].
  eexists. split; [by eapply appended_trans|].
  cbn. by rewrite Hnames, (appended_dom _ _ _ _ H1).
Qed.

Lemma dict_set_map (f : string → string) (ks : list string) x :
  Py.dict_set (map (λ k, (k, f k)) ks) x (f x)
  = map (λ k, (k, f k)) (if bool_decide (x ∈ ks) then ks else ks ++ [x]).
Proof.
  induction ks as [|k ks IH]; [done|]. cbn [map Py.dict_set].
  destruct (String.eqb_spec k x) as [->|Hne].
  - clear IH. case_bool_decide as Hx; [reflexivity|]. destruct Hx.
    apply elem_of_cons. by left.
  - rewrite IH. repeat case_bool_decide; try reflexivity.
    + exfalso. set_solver.
    + exfalso. set_solver.
Qed.

Lemma replace_dict_first_occurrences (f : string → string) refs :
  fold_left (λ d include, Py.dict_set d include (f include)) refs []
  = map (λ k, (k, f k)) (first_occurrences refs).
Proof.
  unfold first_occurrences.
  assert (∀ ks,
    fold_left (λ d include, Py.dict_set d include (f include)) refs
              (map (λ k, (k, f k)) ks)
    = map (λ k, (k, f k))
          (fold_left (λ acc x, if bool_decide (x ∈ acc) then acc
                               else acc ++ [x]) refs ks)) as H.
  { induction refs as [|x refs IH]; intros ks; [done|].
    cbn [fold_left]. by rewrite dict_set_map, IH. }
  apply (H []).
Qed.


Lemma os_walk_run top keep w :
  os_walk E top keep w
  = (Ok (walk_files E (dom (fs w)) top keep), w, [EvWalk top]).
Proof. reflexivity. Qed.

Lemma stage_reference_Ok dirPath p d include w w' t d' ms :
  fs w !! resolve E p = Some (Zip ms) →
  stage_reference E dirPath p d include w = (Ok d', w', t) →
  ∃ new,
    appended (resolve E p) w w' new
    ∧ new.*1 = staged_names E (dom (fs w)) dirPath include
    ∧ d' = Py.dict_set d include (archive_path E dirPath include).
Proof.
  intros Hk. unfold stage_reference. cbv zeta.
  intros (files & w0 & t0 & t1 & H0 & H & ->)%bind_Ok_inv.
  rewrite os_walk_run in H0. injection H0 as <- <- <-.
  apply bind_Ok_inv in H as ([] & w1 & t1' & t2 & H1 & H & ->).
  eapply write_files_Ok in H1 as (new1 & Ha1 & Hn1); [|done].
  apply bind_Ok_inv in H as ([] & w2 & t2' & t3 & H2 & H & ->).
  apply zip_write_Ok in H2 as (data & Ha2).
  rewrite mret_run in H. injection H as <- <- <-.
  eexists. split; [by eapply appended_trans|]. split; [|done].
  rewrite fmap_app, Hn1. cbn. unfold staged_names.
  by rewrite (appended_dom _ _ _ _ Ha1).
Qed.

Lemma stage_loop_Ok dirPath p refs d w w' t d' ms :
  fs w !! resolve E p = Some (Zip ms) →
  for_fold refs d (stage_reference E dirPath p) w = (Ok d', w', t) →
  ∃ new,
    appended (resolve E p) w w' new
    ∧ new.*1 = flat_map (staged_names E (dom (fs w)) dirPath) refs
    ∧ d' = fold_left (λ d include,
              Py.dict_set d include (archive_path E dirPath include))
            refs d.
Proof.
  revert d w t ms. induction refs as [|x refs IH]; intros d w t ms Hk; cbn.
  { intros [= <- <- <-]. exists []. split; [by eapply appended_nil|done]. }
  intros (d1 & w1 & t1 & t2 & H1 & H2 & ->)%bind_Ok_inv.
  eapply stage_reference_Ok in H1 as (new1 & Ha1 & Hn1 & ->); [|done].
  pose proof (appended_lookup _ _ _ _ Ha1) as (ms' & _ & Hk1).
  eapply IH in H2 as (new2 & Ha2 & Hn2 & ->); [|done].
  eexists. split; [by eapply appended_trans|]. split; [|done].
  by rewrite fmap_app, Hn1, Hn2, (appended_dom _ _ _ _ Ha1).
Qed.

(** Staging a list of references: the archive grows by the members of each
    element of the list in turn, and the dictionary returned maps each
    distinct element to its place in the archive, in order of first
    occurrence. *)
Lemma append_Ok dirPath refs p w w' t replace_dict ms :
  fs w !! resolve E p = Some (Zip ms) →
  _append_dotnet_references E dirPath refs p w = (Ok replace_dict, w', t) →
  ∃ new,
    appended (resolve E p) w w' new
    ∧ new.*1 = flat_map (staged_names E (dom (fs w)) dirPath) refs
    ∧ replace_dict
      = map (λ k, (k, archive_path E dirPath k)) (first_occurrences refs).
Proof.
  intros Hk ([] & w0 & t0 & t1 & H0 & H & ->)%bind_Ok_inv.
  eapply zip_open_a_Ok in H0; [|done].
  rewrite <- replace_dict_first_occurrences.
  eapply stage_loop_Ok in H as (new & (ms0 & Hk0 & Hfs) & Hn & ->);
    [|by rewrite H0].
  exists new. rewrite H0 in Hk0, Hfs, Hn. split; [by exists ms0|done].
Qed.

End Appending.

(** ** The shape of the staging archive *)

Section Shape.
Variable E : env.

Lemma reads_only {A} (m : M A) w r w' t :
  (∀ K, stages K m) → m w = (r, w', t) → fs w' = fs w.
Proof.
  intros Hm Hrun. apply map_eq. intros k.
  destruct (decide (k = [])) as [->|Hk].
  - by apply (Hm [EmptyString]) in Hrun as [Hf _]; apply Hf.
  - by apply (Hm []) in Hrun as [Hf _]; apply Hf.
Qed.

Lemma transitive_fs refs w r w' t :
  _get_dotnet_transitive_missing_references E refs w = (r, w', t) →
  fs w' = fs w.
Proof. apply reads_only. intros K. apply stages_transitive. Qed.

Lemma read_text_Ok p w text w' t :
  read_text E p w = (Ok text, w', t) →
  fs w !! resolve E p = Some (Raw text) ∧ fs w' = fs w.
Proof.
  intros (_ & H & _)%io_Ok_inv. cbn [fs] in H.
  destruct (fs w !! resolve E p) as [[s|ms]|]; by simplify_eq.
Qed.

Lemma zip_open_w_Ok p w w' t :
  zip_open_w E p w = (Ok tt, w', t) →
  fs w' = <[resolve E p := Zip []]> (fs w).
Proof. intros (_ & H & _)%io_Ok_inv. by injection H as <-. Qed.

Lemma zip_mkdir_Ok p name w w' t :
  zip_mkdir E p name w = (Ok tt, w', t) →
  appended (resolve E p) w w'
    [(if Py.endswith name "/" then name else name +:+ "/",
      Some (Raw EmptyString))].
Proof. intros (_ & H & _)%io_Ok_inv. by apply add_member_Ok in H. Qed.

Lemma zip_open_r_Ok p w ms w' t :
  zip_open_r E p w = (Ok ms, w', t) →
  fs w !! resolve E p = Some (Zip ms) ∧ fs w' = fs w.
Proof.
  intros (_ & H & _)%io_Ok_inv. cbn [fs] in H.
  destruct (fs w !! resolve E p) as [[s|ms']|]; by simplify_eq.
Qed.

Lemma zip_read_Ok p ms name w data w' t :
  zip_read E p ms name w = (Ok data, w', t) →
  getinfo ms name = Some (Some data) ∧ fs w' = fs w.
Proof.
  intros (_ & H & _)%io_Ok_inv.
  destruct (getinfo ms name) as [[d|]|]; by simplify_eq.
Qed.

Lemma copy_loop_Ok zip p original l w w' t ms :
  fs w !! resolve E p = Some (Zip ms) →
  for_each l (λ original_info : member,
    if negb (Py.endswith (fst original_info) ".csproj")
    then content ← zip_read E zip original (fst original_info);
         zip_writestr E p (fst original_info) content
    else mret tt) w = (Ok tt, w', t) →
  appended (resolve E p) w w'
    (flat_map (λ m : member, if Py.endswith (fst m) ".csproj" then []
                    else match getinfo original (fst m) with
                         | Some (Some data) => [(fst m, Some data)]
                         | _ => []
                         end) l)
  ∧ ∀ m, m ∈ l → Py.endswith (fst m) ".csproj" = false →
         ∃ data, getinfo original (fst m) = Some (Some data).
Proof.
  revert w t ms. induction l as [|m l IH]; intros w t ms Hk; cbn.
  { intros [= <- <-].
    split; [by eapply appended_nil|by intros m ?%elem_of_nil]. }
  intros ([] & w1 & t1 & t2 & H1 & H2 & ->)%bind_Ok_inv.
  destruct (Py.endswith (fst m) ".csproj") eqn:Hend; cbn in H1.
  - rewrite mret_run in H1. injection H1 as <- <-.
    eapply IH in H2 as [Ha Hall]; [|done]. split; [done|].
    intros m' [->|Hin]%elem_of_cons; [congruence|by apply Hall].
  - apply bind_Ok_inv in H1 as (data & w0 & t0 & t0' & Hr & Hw & ->).
    apply zip_read_Ok in Hr as [Hget Hfs]. rewrite Hget.
    apply zip_writestr_Ok in Hw. destruct Hw as (ms0 & Hk0 & Hw).
    rewrite Hfs in Hk0, Hw.
    assert (appended (resolve E p) w w1 [(fst m, Some data)]) as Ha1
      by by exists ms0.
    pose proof (appended_lookup _ _ _ _ Ha1) as (? & _ & Hk1).
    eapply IH in H2 as [Ha Hall]; [|done].
    split; [by eapply (appended_trans _ _ _ _ [_])|].
    intros m' [->|Hin]%elem_of_cons; [by eexists|by apply Hall].
Qed.

Lemma copy_original_Ok zip p w w' t ms :
  fs w !! resolve E p = Some (Zip ms) →
  copy_original E zip p w = (Ok tt, w', t) →
  ∃ original,
    fs w !! resolve E zip = Some (Zip original)
    ∧ appended (resolve E p) w w' (copied_members original)
    ∧ ∀ m, m ∈ original → Py.endswith (fst m) ".csproj" = false →
           ∃ data, getinfo original (fst m) = Some (Some data).
Proof.
  intros Hk (original & w0 & t0 & t1 & H0 & H & ->)%bind_Ok_inv.
  apply zip_open_r_Ok in H0 as [Hz Hfs].
  eapply copy_loop_Ok in H as [(ms0 & Hk0 & Hw) Hall]; [|by rewrite Hfs].
  exists original. rewrite Hfs in Hk0, Hw. split; [done|].
  split; [by exists ms0|done].
Qed.

Lemma includes_csproj projects refs s :
  includes projects = Ok refs → s ∈ refs → Py.endswith s ".csproj" = true.
Proof.
  revert refs. induction projects as [|x l IH]; intros refs; cbn.
  { intros [= <-]. by intros ?%elem_of_nil. }
  destruct (attrib_get _ _) as [include|]; [|done].
  destruct (includes l) as [refs'|]; [|done].
  destruct (Py.endswith include ".csproj") eqn:Hend; intros [= <-].
  - intros [->|?]%elem_of_cons; [done|by eapply IH].
  - by eapply IH.
Qed.

Lemma declared_csproj f s :
  s ∈ declared_references E f → Py.endswith s ".csproj" = true.
Proof.
  unfold declared_references. destruct f as [text|ms]; [|by intros ?%elem_of_nil].
  destruct (ET_fromstring E text) as [root|]; [|by intros ?%elem_of_nil].
  destruct (includes _) as [refs|] eqn:Hi; [|by intros ?%elem_of_nil].
  by eapply includes_csproj.
Qed.

Lemma all_declared_csproj files s :
  s ∈ all_declared E files → Py.endswith s ".csproj" = true.
Proof.
  unfold all_declared. intros ([k f] & _ & Hs)%list_elem_of_In%in_flat_map.
  apply list_elem_of_In in Hs. by eapply declared_csproj.
Qed.

Lemma endswith_csproj_truthy s :
  Py.endswith s ".csproj" = true → Py.truthy s = true.
Proof. by destruct s. Qed.

Lemma any_false_nil l :
  (∀ s, s ∈ l → Py.truthy s = true) → Py.any l = false → l = [].
Proof.
  destruct l as [|x l]; [done|]. intros Hl. cbn.
  rewrite (Hl x) by by left. done.
Qed.

Lemma closure_loop_result fuel n res new w res' w' t :
  closure_loop E fuel n res new w = (Ok res', w', t) →
  ∀ s, s ∈ res' → s ∈ res ∨ s ∈ all_declared E (fs w).
Proof.
  revert n res new w res' w' t.
  induction fuel as [|fuel IH]; intros n res new w res' w' t; cbn;
    destruct (any_set new); try done;
    try (intros [= <- <- <-] s Hs; by left).
  destruct (set_pop _ _) as [[x new']|]; [|done].
  intros (refs & w1 & t1 & t2 & Hrun & Hk & ->)%bind_Ok_inv s Hs.
  apply get_references_run in Hrun as (Hfs & _ & f & Hlook & ->).
  destruct (fold_left _ _ _) as [res1 new1] eqn:Hfold.
  apply suggest_fold in Hfold as [Hres _].
  eapply IH in Hk; [|done]. rewrite Hfs in Hk.
  destruct Hk as [Hk|Hk]; [|by right].
  apply Hres in Hk as [Hk|Hk]; [by left|right].
  by eapply declared_in_all.
Qed.

Lemma transitive_truthy refs w trans w' t :
  _get_dotnet_transitive_missing_references E refs w = (Ok trans, w', t) →
  ∀ s, s ∈ trans → Py.truthy s = true.
Proof.
  unfold _get_dotnet_transitive_missing_references.
  intros (res & w1 & t1 & t2 & Hrun & Hk & ->)%bind_Ok_inv s.
  rewrite mret_run in Hk. injection Hk as <- <- <-.
  rewrite elem_of_list_of_set, elem_of_difference, !elem_of_list_to_set.
  intros [Hs Hn]. eapply closure_loop_result in Hrun; [|exact Hs].
  destruct Hrun as [?|Hd]; [done|].
  by eapply endswith_csproj_truthy, all_declared_csproj.
Qed.

End Shape.

Section Bundle.
Variable E : env.

(** What Steps 1 to 4 leave at the staging path when they succeed: the
    [references] directory, the members of the direct references, those of
    the transitive ones, the backup of the root manifest, the rewritten
    root manifest, and the members carried over from the original. *)
Lemma build_Ok dirPath zip csproj refs w w' t :
  build_staging_archive E dirPath zip csproj refs (zip +:+ ".tmp") w
  = (Ok tt, w', t) →
  ∃ original text trans wa wb ta staged_d staged_t dir_member bak,
    fs w !! resolve E zip = Some (Zip original)
    ∧ fs w !! resolve E csproj = Some (Raw text)
    ∧ _get_dotnet_transitive_missing_references E refs wa = (Ok trans, wb, ta)
    ∧ staged_d.*1
      = flat_map (staged_names E ({[resolve E (zip +:+ ".tmp")]}
                                    ∪ dom (fs w)) dirPath) refs
    ∧ staged_t.*1
      = flat_map (staged_names E ({[resolve E (zip +:+ ".tmp")]}
                                    ∪ dom (fs w)) dirPath) trans
    ∧ fs w'
      = <[resolve E (zip +:+ ".tmp") :=
            Zip (dir_member :: staged_d ++ staged_t
                 ++ [bak;
                     (Py.slice_from (String.length dirPath + 1) csproj,
                      Some (Raw (rewrite_manifest
                                   (map (λ k, (k, archive_path E dirPath k))
                                        (first_occurrences refs)) text)))]
                 ++ copied_members original)]> (fs w)
    ∧ ∀ m, m ∈ original → Py.endswith (fst m) ".csproj" = false →
           ∃ data, getinfo original (fst m) = Some (Some data).
Proof.
  set (K := resolve E (zip +:+ ".tmp")).
  assert (resolve E zip ≠ K) as Hne.
  { intros Heq. by apply (resolve_tmp_ne E zip). }
  unfold build_staging_archive.
  intros ([] & w1 & t1 & ? & H1 & H & ->)%bind_Ok_inv.
  apply zip_open_w_Ok in H1. fold K in H1.
  assert (fs w1 !! K = Some (Zip [])) as Hk1
    by by rewrite H1, lookup_insert_eq.
  assert (dom (fs w1) = {[K]} ∪ dom (fs w)) as Hdom
    by by rewrite H1, dom_insert_L.
  apply bind_Ok_inv in H as ([] & w2 & t2 & ? & H2 & H & ->).
  apply zip_mkdir_Ok in H2. fold K in H2.
  pose proof (appended_lookup _ _ _ _ H2) as (? & _ & Hk2).
  apply bind_Ok_inv in H as (d & w3 & t3 & ? & H3 & H & ->).
  eapply append_Ok in H3 as (staged_d & H3 & Hnd & ->); [|done].
  fold K in H3. rewrite (appended_dom _ _ _ _ H2), Hdom in Hnd.
  pose proof (appended_trans _ _ _ _ _ _ H2 H3) as H13.
  pose proof (appended_lookup _ _ _ _ H13) as (? & _ & Hk3).
  apply bind_Ok_inv in H as (text & w4 & t4 & ? & H4 & H & ->).
  apply read_text_Ok in H4 as [Htext Hfs4].
  apply bind_Ok_inv in H as (trans & w5 & t5 & ? & H5 & H & ->).
  pose proof (transitive_fs _ _ _ _ _ _ H5) as Hfs5.
  pose proof (transitive_truthy _ _ _ _ _ _ H5) as Htruthy.
  apply bind_Ok_inv in H as ([] & w6 & t6 & ? & H6 & H & ->).
  assert (∃ staged_t,
            appended K w3 w6 staged_t
            ∧ staged_t.*1
              = flat_map (staged_names E ({[K]} ∪ dom (fs w)) dirPath) trans)
    as (staged_t & H36 & Hnt).
  { destruct (Py.any trans) eqn:Hany.
    - apply bind_Ok_inv in H6 as (d' & w6' & ? & ? & H6 & Hr & ->).
      rewrite mret_run in Hr. injection Hr as <- <-.
      eapply append_Ok in H6 as (staged_t & (ms & Hk & Hfs) & Hnt & _);
        [|by rewrite Hfs5, Hfs4].
      rewrite Hfs5, Hfs4 in Hk, Hfs, Hnt.
      rewrite (appended_dom _ _ _ _ H13), Hdom in Hnt.
      exists staged_t. split; [by exists ms|done].
    - rewrite mret_run in H6. injection H6 as <- <-.
      apply any_false_nil in Hany as ->; [|done].
      exists []. split; [|done].
      eapply appended_nil; [done|by rewrite Hfs5, Hfs4]. }
  pose proof (appended_trans _ _ _ _ _ _ H13 H36) as H16.
  pose proof (appended_lookup _ _ _ _ H16) as (? & _ & Hk6).
  apply bind_Ok_inv in H as ([] & w7 & t7 & ? & H7 & H & ->).
  eapply zip_open_a_Ok in H7; [|exact Hk6].
  apply bind_Ok_inv in H as ([] & w8 & t8 & ? & H8 & H & ->).
  apply zip_write_Ok in H8 as (bakdata & (ms8 & Hk8 & Hfs8)). fold K in Hk8, Hfs8.
  rewrite H7 in Hk8, Hfs8.
  assert (∃ bak, appended K w6 w8 [bak]) as [bak H68]
    by (eexists; by exists ms8).
  pose proof (appended_trans _ _ _ _ _ _ H16 H68) as H18.
  apply bind_Ok_inv in H as ([] & w9 & t9 & ? & H9 & H & ->).
  apply zip_writestr_Ok in H9. fold K in H9.
  pose proof (appended_trans _ _ _ _ _ _ H18 H9) as H19.
  pose proof (appended_lookup _ _ _ _ H19) as (? & _ & Hk9).
  eapply copy_original_Ok in H as (original & Hz & H910 & Hall); [|done].
  fold K in H910.
  pose proof (appended_trans _ _ _ _ _ _ H19 H910) as (ms & Hk & Hfs).
  rewrite Hk1 in Hk. injection Hk as <-.
  rewrite H1, insert_insert_eq in Hfs.
  rewrite (appended_other _ _ _ _ _ H19), H1, lookup_insert_ne in Hz
    by done.
  assert (resolve E csproj ≠ K) as Hcs.
  { intros Heq. rewrite Heq in Htext. congruence. }
  rewrite (appended_other _ _ _ _ _ H13), H1, lookup_insert_ne in Htext
    by done.
  eexists original, text, trans, w4, w5, t5, staged_d, staged_t, _, _.
  repeat split; try done.
  rewrite Hfs. f_equal. f_equal. cbn. by rewrite <- !app_assoc.
Qed.

End Bundle.

Section Bundled.
Variable E : env.

Lemma swap_Ok zip tmp w w' t :
  (os_remove E zip;; os_rename E tmp zip) w = (Ok tt, w', t) →
  t = [EvRemove zip; EvRename tmp zip]
  ∧ ∃ f, delete (resolve E zip) (fs w) !! resolve E tmp = Some f
         ∧ fs w' = <[resolve E zip := f]>
                     (delete (resolve E tmp) (delete (resolve E zip) (fs w))).
Proof.
  intros ([] & w1 & t1 & t2 & H1 & H2 & ->)%bind_Ok_inv.
  apply io_Ok_inv in H1 as (_ & H1 & ->).
  apply io_Ok_inv in H2 as (_ & H2 & ->). cbn [fs] in H1.
  destruct (fs w !! resolve E zip) as [f0|]; [|done]. injection H1 as <-.
  cbn [fs] in H2. split; [done|].
  destruct (delete _ _ !! resolve E tmp) as [f|] eqn:Hf; [|done].
  injection H2 as <-. by exists f.
Qed.

(** A run of [zip_dotnet_project_references] that ends normally after the
    swap leaves, at the original archive's path, the staging archive that
    Steps 1 to 4 built. *)
Lemma bundled dirPath zip w w' t :
  zip_dotnet_project_references E dirPath zip w = (Ok tt, w', t) →
  EvRemove zip ∈ t →
  ∃ csproj refs w1 t1 w2 t2 original text trans wa wb ta
    staged_d staged_t dir_member bak,
    _get_dotnet_main_project_csproj E dirPath w = (Ok csproj, w1, t1)
    ∧ _get_dotnet_project_references E csproj w1 = (Ok refs, w2, t2)
    ∧ fs w !! resolve E zip = Some (Zip original)
    ∧ fs w !! resolve E csproj = Some (Raw text)
    ∧ _get_dotnet_transitive_missing_references E refs wa = (Ok trans, wb, ta)
    ∧ staged_d.*1
      = flat_map (staged_names E ({[resolve E (zip +:+ ".tmp")]}
                                    ∪ dom (fs w)) dirPath) refs
    ∧ staged_t.*1
      = flat_map (staged_names E ({[resolve E (zip +:+ ".tmp")]}
                                    ∪ dom (fs w)) dirPath) trans
    ∧ fs w' !! resolve E zip
      = Some (Zip (dir_member :: staged_d ++ staged_t
                   ++ [bak;
                       (Py.slice_from (String.length dirPath + 1) csproj,
                        Some (Raw (rewrite_manifest
                                     (map (λ k, (k, archive_path E dirPath k))
                                          (first_occurrences refs)) text)))]
                   ++ copied_members original))
    ∧ ∀ m, m ∈ original → Py.endswith (fst m) ".csproj" = false →
           ∃ data, getinfo original (fst m) = Some (Some data).
Proof.
  unfold zip_dotnet_project_references.
  intros (csproj & w1 & t1 & ? & H1 & H & ->)%bind_Ok_inv.
  apply bind_Ok_inv in H as (refs & w2 & t2 & ? & H2 & H & ->).
  pose proof (reads_only _ _ _ _ _ (λ K, stages_get_main E K dirPath) H1)
    as Hfs1.
  pose proof (reads_only _ _ _ _ _
                (λ K, stages_get_references E K csproj) H2) as Hfs2.
  destruct (Py.any refs).
  2:{ rewrite mret_run in H. injection H as <- <-. intros Hin.
      pose proof (stages_get_main E [] dirPath _ _ _ _ H1) as [_ Ht1].
      pose proof (stages_get_references E [] csproj _ _ _ _ H2) as [_ Ht2].
      apply (no_swap_not_removed (t1 ++ t2 ++ [])) in Hin; [done|].
      repeat apply no_swap_app; (done || constructor). }
  intros _.
  apply bind_Ok_inv in H as ([] & w4 & t4 & ? & H4 & H & ->).
  apply build_Ok in H4
    as (original & text & trans & wa & wb & ta & staged_d & staged_t
        & dir_member & bak & Hz & Htext & Htrans & Hnd & Hnt & Hfs & Hall).
  apply swap_Ok in H as (_ & f & Hf & Hfs').
  rewrite Hfs2, Hfs1 in Hz, Htext, Hnd, Hnt, Hfs.
  exists csproj, refs, w1, t1, w2, t2, original, text, trans, wa, wb, ta,
    staged_d, staged_t, dir_member, bak.
  repeat split; try done.
  rewrite Hfs', lookup_insert_eq. f_equal.
  rewrite lookup_delete_ne, Hfs, lookup_insert_eq in Hf
    by (intros Heq; by apply (resolve_tmp_ne E zip)).
  by injection Hf as <-.
Qed.

Lemma getinfo_NoDup (ms : list member) name data :
  NoDup ms.*1 → (name, data) ∈ ms → getinfo ms name = Some data.
Proof.
  induction ms as [|[n d] ms IH]; [by intros _ ?%elem_of_nil|].
  cbn. intros [Hn Hnd]%NoDup_cons [[= -> ->]|Hin]%elem_of_cons.
  - destruct (getinfo ms n) as [d'|] eqn:Hg; [|by rewrite String.eqb_refl].
    destruct Hn. clear IH Hnd.
    induction ms as [|[n' d''] ms IH]; [done|]. cbn in *.
    destruct (getinfo ms n); [right; by apply IH|].
    destruct (String.eqb_spec n' n) as [->|]; [by left|done].
  - by rewrite (IH Hnd Hin).
Qed.

Lemma elem_of_copied_members original name data :
  (name, data) ∈ copied_members original ↔
  name ∈ original.*1 ∧ Py.endswith name ".csproj" = false
  ∧ ∃ bytes, data = Some bytes ∧ getinfo original name = Some (Some bytes).
Proof.
  unfold copied_members. rewrite list_elem_of_In, in_flat_map. split.
  - intros ([n d] & Hin%list_elem_of_In & H). cbn [fst] in H.
    destruct (Py.endswith n ".csproj") eqn:Hend; [by destruct H|].
    destruct (getinfo original n) as [[bytes|]|] eqn:Hg;
      try (by destruct H).
    destruct H as [[= <- <-]|[]]. split; [|by eauto].
    apply list_elem_of_fmap. by exists (n, d).
  - intros (([n d] & -> & Hin)%list_elem_of_fmap & Hend & bytes & -> & Hg).
    exists (n, d). split; [by apply list_elem_of_In|]. cbn [fst] in *.
    rewrite Hend, Hg. by left.
Qed.


End Bundled.

(** ** The bundled archive (C1, C4, C7, C8, C9) *)



(** C1, as the code has it.  When [zip_dotnet_project_references] ends
    normally after the swap, the archive at the original path ends with the
    members carried over from the original archive: one for every member of
    the original whose name does not end in [.csproj], under the same name and
    with the bytes the original archive gives for that name (the member's own
    bytes when the names of the original are distinct); and none for any
    member whose name ends in [.csproj], the root manifest's or another's. *)
Theorem finalization_copies_non_csproj (E : env)
    (dirPath zip_file_path : string) (w w' : world) (t : list event) :
  zip_dotnet_project_references E dirPath zip_file_path w = (Ok tt, w', t) →
  EvRemove zip_file_path ∈ t →
  ∃ original staged,
    fs w !! resolve E zip_file_path = Some (Zip original)
    ∧ fs w' !! resolve E zip_file_path
      = Some (Zip (staged ++ copied_members original))
    ∧ (∀ name data, (name, data) ∈ original →
         Py.endswith name ".csproj" = false →
         ∃ bytes, getinfo original name = Some (Some bytes)
                  ∧ (name, Some bytes) ∈ copied_members original
                  ∧ (NoDup original.*1 → data = Some bytes))
    ∧ (∀ name data, (name, data) ∈ copied_members original →
         name ∈ original.*1 ∧ Py.endswith name ".csproj" = false).
Proof.
  intros Hrun Hin.
  destruct (bundled E _ _ _ _ _ Hrun Hin)
    as (csproj & refs & w1 & t1 & w2 & t2 & original & text & trans & wa & wb
        & ta & staged_d & staged_t & dir_member & bak & _ & _ & Hz & _ & _ & _
        & _ & Hfs & Hall).
  exists original. eexists (dir_member :: staged_d ++ staged_t ++ [bak; _]).
  split; [done|]. split.
  { rewrite Hfs. do 2 f_equal. cbn. f_equal.
    rewrite <- !app_assoc. do 2 f_equal. }
  split.
  - intros name data Hm Hend.
    destruct (Hall (name, data) Hm Hend) as [bytes Hg]. cbn [fst] in Hg.
    exists bytes.
    split; [done|]. split.
    + apply elem_of_copied_members. split; [|by eauto].
      apply list_elem_of_fmap. by exists (name, data).
    + intros Hnd. rewrite (getinfo_NoDup _ _ _ Hnd Hm) in Hg. congruence.
  - intros name data (? & ? & _)%elem_of_copied_members. done.
Qed.

Lemma zip_open_a_run_Ok (E : env) p w w' t :
  zip_open_a E p w = (Ok tt, w', t) →
  fs w' = <[resolve E p :=
              Zip (match fs w !! resolve E p with
                   | Some (Zip ms) => ms
                   | _ => []
                   end)]> (fs w).
Proof.
  intros (_ & H & _)%io_Ok_inv. cbn [fs] in H.
  destruct (fs w !! resolve E p) as [[s|ms]|] eqn:Hk; injection H as <-;
    try done.
  by rewrite insert_id.
Qed.

(** C7, as the code has it.  A staging pass adds to the archive, for each
    element of the list it is given and in the order of the list, the members
    of that reference: the files of its directory, then the backup of its
    manifest.  It works by list element, not by distinct project, and checks
    no name against those already written. *)
Theorem staging_per_list_element (E : env) (dirPath : string)
    (abs_references : list string) (zip_file_path : string) (w w' : world)
    (t : list event) (replace_dict : list (string * string)) :
  _append_dotnet_references E dirPath abs_references zip_file_path w
  = (Ok replace_dict, w', t) →
  ∃ new,
    fs w' !! resolve E zip_file_path
    = Some (Zip (match fs w !! resolve E zip_file_path with
                 | Some (Zip ms) => ms
                 | _ => []
                 end ++ new))
    ∧ new.*1
      = flat_map (staged_names E ({[resolve E zip_file_path]} ∪ dom (fs w))
                               dirPath) abs_references.
Proof.
  intros ([] & w0 & t0 & t1 & H0 & H & ->)%bind_Ok_inv.
  apply zip_open_a_run_Ok in H0.
  eapply stage_loop_Ok in H as (new & Ha & Hn & _);
    [|by rewrite H0, lookup_insert_eq].
  exists new. split.
  - apply appended_lookup in Ha as (ms & Hk & ->).
    rewrite H0, lookup_insert_eq in Hk. by injection Hk as <-.
  - by rewrite Hn, H0, dom_insert_L.
Qed.



(** ** The readings refuted, and the theorems at work *)

Import Scenario.

Ltac run_eq := vm_compute; reflexivity.
Ltac decided := apply (bool_decide_unpack _); vm_compute; exact I.

(** C1 refuted as stated: the member [sub/Other.csproj] of the original
    archive is not the root manifest's, and the bundled archive has lost
    it. *)
Lemma other_manifests_are_dropped :
  ¬ copies_all_but_root_manifest chain_env "/home/u/App" "/tmp/app.zip" chain.
Proof.
  intros H.
  pose (r1 := _get_dotnet_main_project_csproj chain_env "/home/u/App" chain).
  pose (r := zip_dotnet_project_references chain_env "/home/u/App"
               "/tmp/app.zip" chain).
  pose (members := match fs r.1.2 !! resolve chain_env "/tmp/app.zip" with
                   | Some (Zip ms) => ms
                   | _ => []
                   end).
  assert (r1 = (Ok "/home/u/App/App.csproj", r1.1.2, r1.2)) as H1 by run_eq.
  assert (r = (Ok tt, r.1.2, r.2)) as H2 by run_eq.
  assert (fs chain !! resolve chain_env "/tmp/app.zip"
          = Some (Zip chain_archive)) as H3 by run_eq.
  assert (fs r.1.2 !! resolve chain_env "/tmp/app.zip" = Some (Zip members))
    as H4 by run_eq.
  specialize (H _ _ _ _ _ _ _ H1 H2 H3 H4
                ("sub/Other.csproj", Some (Raw (manifest_text [])))).
  apply (list_elem_of_fmap_2 fst) in H.
  - revert H. decided.
  - do 2 (apply elem_of_cons; right). apply elem_of_cons. by left.
  - by vm_compute.
Qed.


(** C7 refuted as stated: the root manifest names [../Lib/Lib.csproj] twice,
    and the staging pass over its references writes every member of [Lib]
    twice, under the same names. *)
Lemma listed_twice_staged_twice :
  ¬ stages_each_name_once twice_env "/home/u/App" "/tmp/app.zip.tmp" twice.
Proof.
  intros H.
  pose (r1 := _get_dotnet_main_project_csproj twice_env "/home/u/App" twice).
  pose (r2 := _get_dotnet_project_references twice_env
                "/home/u/App/App.csproj" r1.1.2).
  pose (r3 := _append_dotnet_references twice_env "/home/u/App"
                ["../Lib/Lib.csproj"; "../Lib/Lib.csproj"] "/tmp/app.zip.tmp"
                r2.1.2).
  pose (members := match fs r3.1.2 !! resolve twice_env "/tmp/app.zip.tmp" with
                   | Some (Zip ms) => ms
                   | _ => []
                   end).
  assert (r1 = (Ok "/home/u/App/App.csproj", r1.1.2, r1.2)) as H1 by run_eq.
  assert (r2 = (Ok ["../Lib/Lib.csproj"; "../Lib/Lib.csproj"], r2.1.2, r2.2))
    as H2 by run_eq.
  assert (r3 = (Ok [("../Lib/Lib.csproj", "references/Lib/Lib.csproj")],
                r3.1.2, r3.2)) as H3 by run_eq.
  assert (fs r3.1.2 !! resolve twice_env "/tmp/app.zip.tmp"
          = Some (Zip members)) as H4 by run_eq.
  specialize (H _ _ _ _ _ _ _ _ _ _ H1 H2 H3 H4). revert H. decided.
Qed.


(** The manifest that the shorter reference first leaves behind. *)
Example nested_manifest_in_archive :
  match fs (zip_dotnet_project_references nested_env "/home/u/App"
              "/tmp/app.zip" nested).1.2 !! ["tmp"; "app.zip"] with
  | Some (Zip members) => getinfo members "App.csproj"
  | _ => None
  end
  = Some (Some (Raw (manifest_text ["references/Lib/Lib.csproj";
                                    "../references/Lib/Lib.csproj"]))).
Proof. run_eq. Qed.

(** C6 on a root directory with two manifests: the failure of
    [_get_dotnet_main_project_csproj] is a plain [Exception], which neither
    [except] clause of [zip_contents_from_dir] names; it leaves
    [zip_contents_from_dir] as it is, no warning is logged and no path is
    returned. *)
Theorem ambiguous_root_aborts_packaging :
  (zip_contents_from_dir two_roots_env "/home/u/App" "dotnetcore"
     two_roots).1.1
  = Raise (PlainException "/home/u/App should contain only one .csproj file")
  ∧ omap (λ ev, match ev with EvWarning msg => Some msg | _ => None end)
         (zip_contents_from_dir two_roots_env "/home/u/App" "dotnetcore"
            two_roots).2
    = []
  ∧ bundling_guard
      (PlainException "/home/u/App should contain only one .csproj file")
    = false.
Proof. repeat split; run_eq. Qed.

(** Packaging when the bundler fails with an exception that the [except]
    clause names, here the [OSError] of a directory that does not exist: a
    warning and the archive's path. *)
Example missing_directory_only_warns :
  let run := zip_contents_from_dir chain_env "/home/u/NoSuchDir" "dotnetcore"
               chain in
  run.1.1 = Ok "/tmp/NoSuchDir0f8fad5b-d9cb-469f-a165-70867728950e.zip"
  ∧ omap (λ ev, match ev with EvWarning msg => Some msg | _ => None end) run.2
    = ["Analysing and bundling dotnet project references have failed."].
Proof. split; run_eq. Qed.

(** ** The theorems at concrete projects *)

Lemma ambiguous_root_fails_first_witness :
  ∃ e, zip_dotnet_project_references two_roots_env "/home/u/App" "/tmp/app.zip"
         two_roots
       = (Raise e, World (fs two_roots) (S (clock two_roots)),
          [EvListdir "/home/u/App"]).
Proof.
  apply (ambiguous_root_fails_first two_roots_env "/home/u/App" "/tmp/app.zip"
           two_roots).
  vm_compute. discriminate.
Defined.

Lemma no_references_no_mutation_witness :
  zip_dotnet_project_references alone_env "/home/u/App" "/tmp/app.zip" alone
  = (Ok tt, alone_references.1.2,
     [EvListdir "/home/u/App"; EvParse "/home/u/App/App.csproj"])
  ∧ fs alone_references.1.2 = fs alone.
Proof.
  apply (no_references_no_mutation alone_env "/home/u/App" "/tmp/app.zip"
           alone alone_main.1.2 alone_references.1.2 "/home/u/App/App.csproj"
           alone_main.2 alone_references.2); run_eq.
Defined.

Lemma finalization_atomic_witness :
  corrupt_run.1.1 = Raise BadZipFile
  ∧ fs corrupt_run.1.2 !! resolve chain_env "/tmp/app.zip"
    = fs chain_corrupt !! resolve chain_env "/tmp/app.zip".
Proof.
  split; [run_eq|].
  assert (zip_dotnet_project_references chain_env "/home/u/App" "/tmp/app.zip"
            chain_corrupt
          = (corrupt_run.1.1, corrupt_run.1.2, corrupt_run.2)) as H by run_eq.
  apply (finalization_atomic _ _ _ _ _ _ _ H). decided.
Defined.

Lemma closure_terminates_witness :
  Ok ["/app/App.csproj"] ≠ Raise FuelExhausted
  ∧ NoDup (parsed cycle_closure.2)
  ∧ NoDup ["/app/App.csproj"].
Proof.
  assert (_get_dotnet_transitive_missing_references cycle_env
            ["/lib/Lib.csproj"] cycle
          = (Ok ["/app/App.csproj"], cycle_closure.1.2, cycle_closure.2))
    as H by run_eq.
  destruct (closure_terminates _ _ _ _ _ _ H) as (H1 & _ & H3 & H4).
  split; [exact H1|]. split; [exact H3|]. by apply H4.
Defined.


Lemma finalization_copies_non_csproj_witness :
  ∃ original staged,
    fs chain !! resolve chain_env "/tmp/app.zip" = Some (Zip original)
    ∧ fs chain_run.1.2 !! resolve chain_env "/tmp/app.zip"
      = Some (Zip (staged ++ copied_members original))
    ∧ (∀ name data, (name, data) ∈ original →
         Py.endswith name ".csproj" = false →
         ∃ bytes, getinfo original name = Some (Some bytes)
                  ∧ (name, Some bytes) ∈ copied_members original
                  ∧ (NoDup original.*1 → data = Some bytes))
    ∧ (∀ name data, (name, data) ∈ copied_members original →
         name ∈ original.*1 ∧ Py.endswith name ".csproj" = false).
Proof.
  assert (zip_dotnet_project_references chain_env "/home/u/App" "/tmp/app.zip"
            chain = (Ok tt, chain_run.1.2, chain_run.2)) as H by run_eq.
  apply (finalization_copies_non_csproj _ _ _ _ _ _ H). decided.
Defined.

Lemma staging_per_list_element_witness :
  ∃ new,
    fs twice_staging.1.2 !! resolve twice_env "/tmp/app.zip.tmp"
    = Some (Zip (match fs twice !! resolve twice_env "/tmp/app.zip.tmp" with
                 | Some (Zip ms) => ms
                 | _ => []
                 end ++ new))
    ∧ new.*1
      = flat_map (staged_names twice_env
                    ({[resolve twice_env "/tmp/app.zip.tmp"]} ∪ dom (fs twice))
                    "/home/u/App")
                 ["../Lib/Lib.csproj"; "../Lib/Lib.csproj"].
Proof.
  assert (_append_dotnet_references twice_env "/home/u/App"
            ["../Lib/Lib.csproj"; "../Lib/Lib.csproj"] "/tmp/app.zip.tmp" twice
          = (Ok [("../Lib/Lib.csproj", "references/Lib/Lib.csproj")],
             twice_staging.1.2, twice_staging.2)) as H by run_eq.
  apply (staging_per_list_element _ _ _ _ _ _ _ _ H).
Defined.



(** ** What packaging leaves alone *)

Lemma try_except_inv {A} (m : M A) caught handler w r w' t :
  try_except m caught handler w = (r, w', t) →
  (m w = (r, w', t) ∧ match r with Raise e => caught e = false | _ => True end)
  ∨ ∃ e w1 t1 t2, m w = (Raise e, w1, t1) ∧ caught e = true
                  ∧ handler e w1 = (r, w', t2) ∧ t = t1 ++ t2.
Proof.
  unfold try_except. destruct (m w) as [[[a|e] w1] t1].
  - intros [= <- <- <-]. by left.
  - destruct (caught e) eqn:Hc.
    + destruct (handler e w1) as [[r2 w2] t2] eqn:Hh.
      intros [= <- <- <-]. right. by exists e, w1, t1, t2.
    + intros [= <- <- <-]. by left.
Qed.

Section Touching.
Variable E : env.
Implicit Types S : path → Prop.

Lemma touches_stages S K {A} (m : M A) : stages K m → S K → touches S m.
Proof.
  intros Hm HK w r w' t Hrun k Hk. apply Hm in Hrun as [Hf _].
  apply Hf. by intros ->.
Qed.

Lemma touches_reads S {A} (m : M A) : (∀ K, stages K m) → touches S m.
Proof.
  intros Hm w r w' t Hrun k _. by rewrite (reads_only m w r w' t Hm Hrun).
Qed.

Lemma touches_mret S {A} (a : A) : touches S (mret a : M A).
Proof. by intros w r w' t [= <- <- <-]. Qed.

Lemma touches_raise S {A} (e : exn) : touches S (raise e : M A).
Proof. by intros w r w' t [= <- <- <-]. Qed.

Lemma touches_bind S {A B} (m : M A) (k : A → M B) :
  touches S m → (∀ a, touches S (k a)) → touches S (m ≫= k).
Proof.
  intros Hm Hk w r w' t
    [(e & H & ->)|(a & w1 & t1 & t2 & H1 & H2 & ->)]%bind_inv j Hj.
  - by eapply Hm.
  - rewrite (Hk a w1 r w' t2 H2 j Hj). by eapply Hm.
Qed.

Lemma touches_try_except S {A} (m : M A) caught handler :
  touches S m → (∀ e, touches S (handler e)) →
  touches S (try_except m caught handler).
Proof.
  intros Hm Hh w r w' t
    [[H _]|(e & w1 & t1 & t2 & H1 & _ & H2 & ->)]%try_except_inv j Hj.
  - by eapply Hm.
  - rewrite (Hh e w1 r w' t2 H2 j Hj). by eapply Hm.
Qed.

Lemma touches_os_remove S p : S (resolve E p) → touches S (os_remove E p).
Proof.
  intros Hp w r w' t. unfold os_remove. rewrite io_run.
  destruct (fault E (clock w)); [by intros [= <- <- <-]|]. cbn [fs clock].
  destruct (fs w !! resolve E p); intros [= <- <- <-] k Hk; [|done].
  cbn. apply lookup_delete_ne. by intros <-.
Qed.

Lemma touches_os_rename S p q :
  S (resolve E p) → S (resolve E q) → touches S (os_rename E p q).
Proof.
  intros Hp Hq w r w' t. unfold os_rename. rewrite io_run.
  destruct (fault E (clock w)); [by intros [= <- <- <-]|]. cbn [fs clock].
  destruct (fs w !! resolve E p); intros [= <- <- <-] k Hk; [|done].
  cbn. rewrite lookup_insert_ne by by intros <-.
  apply lookup_delete_ne. by intros <-.
Qed.

Lemma touches_bundler S dirPath zip :
  S (resolve E zip) → S (resolve E (zip +:+ ".tmp")) →
  touches S (zip_dotnet_project_references E dirPath zip).
Proof.
  intros Hz Ht. unfold zip_dotnet_project_references.
  apply touches_bind.
  { apply touches_reads. intros K. apply stages_get_main. }
  intros csproj_path. apply touches_bind.
  { apply touches_reads. intros K. apply stages_get_references. }
  intros refs. destruct (Py.any refs); [|apply touches_mret].
  apply touches_bind.
  { eapply touches_stages; [apply stages_build|done]. }
  intros _. apply touches_bind; [by apply touches_os_remove|].
  intros _. by apply touches_os_rename.
Qed.

Lemma touches_packaging S dirPath lang :
  S (resolve E (archive_file E dirPath)) →
  S (resolve E (archive_file E dirPath +:+ ".tmp")) →
  touches S (zip_contents_from_dir E dirPath lang).
Proof.
  intros Hz Ht. unfold zip_contents_from_dir.
  apply touches_bind; [|intros _; apply touches_mret].
  apply touches_try_except; [|intros e; apply touches_raise].
  apply touches_bind.
  { eapply touches_stages; [apply stages_zip_open_w|done]. }
  intros _. apply touches_bind.
  { apply touches_reads. intros K. apply stages_os_walk. }
  intros files. apply touches_bind.
  { eapply touches_stages; [|exact Hz].
    apply stages_for_each. intros [d f]. apply stages_zip_write. }
  intros _. destruct (String.eqb _ _); [|apply touches_mret].
  apply touches_try_except; [by apply touches_bundler|].
  intros e w r w' t. by intros [= <- <- <-].
Qed.

End Touching.

(** X1. Whatever the language, the file system and the outcome, a call of
    [zip_contents_from_dir] changes no file but the archive it builds and
    the staging archive next to it ([zip_file_path] and
    [zip_file_path + ".tmp"]): the project's files, the referenced projects
    and every other file are afterwards what they were before. *)
Theorem packaging_touches_only_the_archives (E : env)
    (dirPath lang : string) (w w' : world) (r : result string)
    (t : list event) (k : path) :
  zip_contents_from_dir E dirPath lang w = (r, w', t) →
  k ≠ resolve E (archive_file E dirPath) →
  k ≠ resolve E (archive_file E dirPath +:+ ".tmp") →
  fs w' !! k = fs w !! k.
Proof.
  intros Hrun Hk1 Hk2.
  eapply (touches_packaging E
            (λ j, j = resolve E (archive_file E dirPath)
                  ∨ j = resolve E (archive_file E dirPath +:+ ".tmp")));
    [by left|by right|exact Hrun|by intros [?|?]].
Qed.




(** ** The closure is closed *)

Section Closed.
Variable E : env.

Lemma closed_in_mono files l l' r :
  (∀ s, s ∈ l → s ∈ l') → closed_in E files l r → closed_in E files l' r.
Proof. intros Hl (f & Hf & Hd). exists f. split; [done|]. auto. Qed.

Lemma any_set_false (new : gset string) r :
  any_set new = false → r ∈ new → r = EmptyString.
Proof.
  unfold any_set, Py.any. intros Hany Hr.
  destruct (Py.truthy r) eqn:Ht; [|by destruct r].
  assert (existsb Py.truthy (elements new) = true) as Hex; [|congruence].
  apply existsb_exists. exists r. split; [|done].
  by apply list_elem_of_In, elem_of_elements.
Qed.

Lemma closure_loop_closed fuel n res new w res' w' t :
  closure_loop E fuel n res new w = (Ok res', w', t) →
  EmptyString ∉ res →
  (∀ s, s ∈ new → s ∈ res) →
  (∀ r, r ∈ res → r ∈ new ∨ closed_in E (fs w) res r) →
  (∀ r, r ∈ res → r ∈ res') ∧ ∀ r, r ∈ res' → closed_in E (fs w) res' r.
Proof.
  revert n res new w res' w' t.
  assert (∀ res (new : gset string) files,
            any_set new = false → EmptyString ∉ res →
            (∀ r, r ∈ res → r ∈ new ∨ closed_in E files res r) →
            ∀ r, r ∈ res → closed_in E files res r) as Hend.
  { intros res new files Hany He Hinv r Hr.
    destruct (Hinv r Hr) as [Hn|?]; [|done].
    apply any_set_false in Hn; [|done]. by subst. }
  induction fuel as [|fuel IH]; intros n res new w res' w' t; cbn;
    destruct (any_set new) eqn:Hany; try done;
    try (intros [= <- <- <-] He Hsub Hinv; split; [done|]; by eapply Hend).
  destruct (set_pop _ _) as [[x new']|] eqn:Hpop; [|done].
  apply set_pop_spec in Hpop as [Hx ->].
  intros (refs & w1 & t1 & t2 & Hrun & Hk & ->)%bind_Ok_inv He Hsub Hinv.
  apply get_references_run in Hrun as (Hfs & _ & f & Hlook & ->).
  destruct (fold_left _ _ _) as [res1 new1] eqn:Hfold.
  apply suggest_fold in Hfold as [Hres Hnew].
  apply IH in Hk.
  - destruct Hk as [Hk1 Hk2]. rewrite Hfs in Hk2. split; [|done].
    intros r Hr. apply Hk1, Hres. by left.
  - intros [Hr|Hr]%Hres; [done|].
    by apply declared_csproj in Hr.
  - intros s [Hs|[Hs _]]%Hnew; apply Hres; [left|by right].
    apply Hsub. set_solver.
  - rewrite Hfs. intros r Hr.
    destruct (decide (r ∈ res)) as [Hin|Hin].
    + destruct (Hinv r Hin) as [Hn|Hc].
      * destruct (decide (r = x)) as [->|Hne].
        -- right. exists f. split; [done|]. intros s Hs. apply Hres.
           by right.
        -- left. apply Hnew. left. set_solver.
      * right. eapply closed_in_mono; [|done]. intros s Hs. apply Hres.
        by left.
    + left. apply Hnew. right. apply Hres in Hr as [?|?]; done.
Qed.

End Closed.

(** X4. When no reference of the list given is the empty string and
    [_get_dotnet_transitive_missing_references] returns, the given
    references together with the returned ones are closed: each of them is
    a file on disk, and every [.csproj] reference which that file declares,
    as the string written in it, is again a given or a returned
    reference. *)
Theorem closure_is_closed (E : env) (current_references : list string)
    (w w' : world) (l : list string) (t : list event) :
  EmptyString ∉ current_references →
  _get_dotnet_transitive_missing_references E current_references w
  = (Ok l, w', t) →
  ∀ r, r ∈ current_references ++ l →
       closed_in E (fs w) (current_references ++ l) r.
Proof.
  intros He. unfold _get_dotnet_transitive_missing_references.
  intros (res & w1 & t1 & t2 & Hrun & Hk & ->)%bind_Ok_inv.
  rewrite mret_run in Hk. injection Hk as <- <- <-.
  apply closure_loop_closed in Hrun as [Hsub Hclosed]; [|done|set_solver|].
  2:{ intros r Hr. left. set_solver. }
  assert (∀ r, r ∈ current_references
                   ++ list_of_set E (list_to_set res
                                       ∖ list_to_set current_references)
               ↔ r ∈ res) as Hiff.
  { intros r.
    rewrite elem_of_app, elem_of_list_of_set, elem_of_difference,
      !elem_of_list_to_set.
    split; [intros [?|[? _]]; auto|]. intros Hr.
    destruct (decide (r ∈ current_references)); auto. }
  intros r Hr%Hiff. eapply closed_in_mono; [|by apply Hclosed].
  intros s. apply Hiff.
Qed.

(** ** Reading the references of a manifest *)

Lemma elem_of_includes projects refs x :
  includes projects = Ok refs →
  x ∈ refs ↔
  Py.endswith x ".csproj" = true
  ∧ ∃ project, project ∈ projects
               ∧ attrib_get (attrib project) "Include" = Some x.
Proof.
  revert refs. induction projects as [|p l IH]; intros refs; cbn.
  { intros [= <-]. split; [by intros ?%elem_of_nil|].
    by intros (_ & ? & ?%elem_of_nil & _). }
  destruct (attrib_get _ _) as [include|] eqn:Hi; [|done].
  destruct (includes l) as [refs'|]; [|done].
  specialize (IH refs' eq_refl).
  assert (x ∈ refs' ∨ (x = include ∧ Py.endswith x ".csproj" = true)
          ↔ Py.endswith x ".csproj" = true
            ∧ ∃ project, project ∈ p :: l
                         ∧ attrib_get (attrib project) "Include" = Some x)
    as Hiff.
  { rewrite IH. split.
    - intros [(? & q & ? & ?)|[-> ?]]; (split; [done|]).
      + exists q. split; [by right|done].
      + exists p. split; [by left|done].
    - intros (Hend & q & [->|Hq]%elem_of_cons & Ha).
      + right. split; [congruence|done].
      + left. split; [done|]. by exists q. }
  destruct (Py.endswith include ".csproj") eqn:Hend; intros [= <-];
    rewrite <- Hiff.
  - rewrite elem_of_cons. split; [intros [->|?]; auto|].
    intros [?|[-> _]]; auto.
  - split; [auto|]. intros [?|[-> ?]]; [done|congruence].
Qed.

Lemma includes_Raise projects e :
  includes projects = Raise e →
  e = KeyError
  ∧ ∃ project, project ∈ projects
               ∧ attrib_get (attrib project) "Include" = None.
Proof.
  induction projects as [|p l IH]; cbn; [done|].
  destruct (attrib_get _ _) as [include|] eqn:Hi.
  - destruct (includes l) as [refs'|e']; [done|]. intros [= <-].
    destruct (IH eq_refl) as (-> & q & ? & ?). split; [done|].
    exists q. split; [by right|done].
  - intros [= <-]. split; [done|]. exists p. split; [by left|done].
Qed.

Lemma includes_KeyError projects project :
  project ∈ projects → attrib_get (attrib project) "Include" = None →
  includes projects = Raise KeyError.
Proof.
  intros Hin Hnone. induction projects as [|p l IH];
    [by apply elem_of_nil in Hin|]. cbn.
  apply elem_of_cons in Hin as [<-|Hin]; [by rewrite Hnone|].
  destruct (attrib_get (attrib p) _); [|done]. by rewrite (IH Hin).
Qed.

Lemma elem_of_List_filter {A} (f : A → bool) (l : list A) x :
  x ∈ List.filter f l ↔ f x = true ∧ x ∈ l.
Proof. rewrite !list_elem_of_In, filter_In. tauto. Qed.

Lemma elem_of_project_references root project :
  project ∈ project_references root ↔
  tag project = "ProjectReference"
  ∧ ∃ item, item ∈ children root ∧ tag item = "ItemGroup"
            ∧ project ∈ children item.
Proof.
  unfold project_references.
  rewrite list_elem_of_In, in_flat_map. split.
  - intros (item & Hitem & Hp). apply list_elem_of_In in Hitem, Hp.
    apply elem_of_List_filter in Hp as [Htag Hp].
    apply elem_of_List_filter in Hitem as [_ Hitem].
    unfold findall in Hitem. apply elem_of_List_filter in Hitem as [Hg Hitem].
    apply String.eqb_eq in Htag, Hg.
    split; [done|]. by exists item.
  - intros (Htag & item & Hitem & Hg & Hp). exists item.
    rewrite <- !list_elem_of_In.
    assert (project ∈ List.filter
              (λ c, String.eqb (tag c) "ProjectReference") (children item))
      as Hin.
    { apply elem_of_List_filter. split; [|done]. by apply String.eqb_eq. }
    split; [|done].
    apply elem_of_List_filter. split.
    + apply bool_decide_eq_true. unfold find, findall.
      destruct (List.filter _ (children item)) as [|c cs]; [|done].
      by apply elem_of_nil in Hin.
    + unfold findall. apply elem_of_List_filter. split; [|done].
      by apply String.eqb_eq.
Qed.

(** X5. When [_get_dotnet_project_references] returns, the manifest is a
    text file which the parser accepted and which is left as it was, and the
    references returned are exactly the [Include] attributes ending in
    [.csproj] of the [ProjectReference] children of the [ItemGroup] children
    of the root element: a reference declared at another depth of the
    manifest is not among them. *)
Theorem references_are_itemgroup_children (E : env) (csproj_path : string)
    (w w' : world) (abs_references : list string) (t : list event) :
  _get_dotnet_project_references E csproj_path w
  = (Ok abs_references, w', t) →
  ∃ text root,
    fs w !! resolve E csproj_path = Some (Raw text)
    ∧ ET_fromstring E text = Some root
    ∧ fs w' = fs w
    ∧ ∀ x, x ∈ abs_references ↔
           Py.endswith x ".csproj" = true
           ∧ ∃ item project,
               item ∈ children root ∧ tag item = "ItemGroup"
               ∧ project ∈ children item
               ∧ tag project = "ProjectReference"
               ∧ attrib_get (attrib project) "Include" = Some x.
Proof.
  unfold _get_dotnet_project_references.
  intros (root & w1 & t1 & t2 & Hparse & H & ->)%bind_Ok_inv.
  apply io_Ok_inv in Hparse as (_ & Hparse & _). cbn [fs] in Hparse.
  destruct (fs w !! resolve E csproj_path) as [[text|ms]|] eqn:Hf; try done.
  destruct (ET_fromstring E text) as [root'|] eqn:Hp; [|done].
  injection Hparse as -> <-.
  destruct (includes (project_references root)) as [refs|e] eqn:Hi; [|done].
  rewrite mret_run in H. injection H as <- <- <-.
  exists text, root. do 3 (split; [done|]). intros x.
  rewrite (elem_of_includes _ _ _ Hi). split.
  - intros (Hend & project
            & (Htag & item & ? & ? & ?)%elem_of_project_references & ?).
    split; [done|]. by exists item, project.
  - intros (Hend & item & project & ? & ? & ? & ? & ?). split; [done|].
    exists project. split; [|done].
    apply elem_of_project_references. split; [done|]. by exists item.
Qed.

(** X6. When a [ProjectReference] child of an [ItemGroup] child of the root
    manifest has no [Include] attribute, [zip_dotnet_project_references]
    raises [KeyError] once the manifest is parsed: nothing has been staged,
    every file is as it was, and the [except] clause that guards the
    bundler in [zip_contents_from_dir] does not name this exception. *)
Theorem reference_without_include_raises_KeyError (E : env)
    (dirPath zip_file_path csproj_path : string) (w w1 w2 : world)
    (t1 t2 : list event) (root item project : Element) :
  _get_dotnet_main_project_csproj E dirPath w = (Ok csproj_path, w1, t1) →
  ET_parse E csproj_path w1 = (Ok root, w2, t2) →
  item ∈ children root → tag item = "ItemGroup" →
  project ∈ children item → tag project = "ProjectReference" →
  attrib_get (attrib project) "Include" = None →
  zip_dotnet_project_references E dirPath zip_file_path w
  = (Raise KeyError, w2, t1 ++ t2)
  ∧ fs w2 = fs w
  ∧ bundling_guard KeyError = false.
Proof.
  intros Hmain Hparse Hitem Hg Hp Htag Hnone.
  assert (includes (project_references root) = Raise KeyError) as Hi.
  { eapply includes_KeyError; [|done].
    apply elem_of_project_references. split; [done|]. by exists item. }
  split; [|split; [|done]].
  - unfold zip_dotnet_project_references.
    rewrite bind_run, Hmain, bind_run.
    unfold _get_dotnet_project_references.
    rewrite bind_run, Hparse, Hi. cbn. by rewrite app_nil_r.
  - apply reads_only in Hmain; [|intros K; apply stages_get_main].
    apply reads_only in Hparse; [|intros K; apply stages_ET_parse].
    congruence.
Qed.

(** ** Rewriting the root manifest *)

Lemma replace_go_absent old new s :
  Py.contains s old = false → Py.replace_go old new 0 s = s.
Proof.
  induction s as [|c s IH]; [done|]. cbn [Py.contains Py.replace_go].
  intros [Hp Hc]%orb_false_elim. rewrite Hp. by rewrite IH.
Qed.

Lemma replace_absent s old new :
  Py.contains s old = false → Py.replace s old new = s.
Proof.
  destruct old as [|c old]; [by destruct s|]. apply replace_go_absent.
Qed.

(** X7. The rewriting of the root manifest is textual: when none of the
    keys of the dictionary occurs in the text of the manifest as a
    substring, the text written to the archive is the text read from
    disk, unchanged, whatever the references resolve to. *)
Theorem rewriting_needs_a_textual_occurrence
    (replace_dict : list (string * string)) (csproj_content : string) :
  (∀ k v, (k, v) ∈ replace_dict → Py.contains csproj_content k = false) →
  rewrite_manifest replace_dict csproj_content = csproj_content.
Proof.
  unfold rewrite_manifest.
  induction replace_dict as [|[k v] d IH]; intros Hd; [done|]. cbn.
  rewrite replace_absent by (eapply Hd; by left).
  apply IH. intros k' v' Hin. eapply Hd. by right.
Qed.

(** ** A swap that fails half-way *)

Lemma no_swap_not_renamed (t : list event) (p q : string) :
  no_swap t → EvRename p q ∉ t.
Proof.
  intros Ht Hin. unfold no_swap in Ht. rewrite Forall_forall in Ht.
  by apply Ht in Hin.
Qed.

Section Swap.
Variable E : env.

Lemma failed_rename dirPath zip w e w' t :
  zip_dotnet_project_references E dirPath zip w = (Raise e, w', t) →
  EvRename (zip +:+ ".tmp") zip ∈ t →
  e = OSError
  ∧ fs w' !! resolve E zip = None
  ∧ ∃ staged, fs w' !! resolve E (zip +:+ ".tmp") = Some (Zip staged).
Proof.
  unfold zip_dotnet_project_references.
  intros [(e' & H & _)|(csproj & w1 & t1 & ta & H1 & H & ->)]%bind_inv Hin.
  { apply (stages_get_main E []) in H as [_ Ht].
    by apply no_swap_not_renamed in Hin. }
  apply (stages_get_main E []) in H1 as [_ Ht1].
  apply bind_inv in H
    as [(e' & H & _)|(refs & w2 & t2 & tb & H2 & H & ->)].
  { apply (stages_get_references E []) in H as [_ Ht].
    apply (no_swap_not_renamed (t1 ++ ta)) in Hin; [done|].
    by apply no_swap_app. }
  apply (stages_get_references E []) in H2 as [_ Ht2].
  destruct (Py.any refs); [|by rewrite mret_run in H].
  apply bind_inv in H as [(e' & H & _)|([] & w4 & t4 & tc & H4 & H & ->)].
  { apply (stages_build E) in H as [_ Ht].
    apply (no_swap_not_renamed (t1 ++ t2 ++ tb)) in Hin; [done|].
    by repeat apply no_swap_app. }
  pose proof H4 as [_ Ht4]%(stages_build E).
  apply build_Ok in H4
    as (original & text & trans & wa & wb & ta & sd & st & dm & bak
        & Hzip & _ & _ & _ & _ & Hfs & _).
  assert (resolve E (zip +:+ ".tmp") ≠ resolve E zip) as Hne
    by apply resolve_tmp_ne.
  apply bind_inv in H as [(e' & H & _)|([] & w5 & t5 & td & H5 & H & ->)].
  { apply io_trace in H as ->.
    rewrite !elem_of_app, list_elem_of_singleton in Hin.
    destruct Hin as [Hin|[Hin|[Hin|Hin]]]; [| | |done];
      by eapply no_swap_not_renamed in Hin. }
  apply io_Ok_inv in H5 as (_ & H5 & _). cbn [fs] in H5.
  destruct (fs w4 !! resolve E zip) as [f0|]; [|done]. injection H5 as <-.
  unfold os_rename in H. rewrite io_run in H. cbn [fs clock] in H.
  rewrite Hfs, lookup_delete_ne, lookup_insert_eq in H by done.
  destruct (fault E _); [|done]. injection H as <- <- <-.
  cbn [fs]. rewrite lookup_delete_eq, lookup_delete_ne by done.
  rewrite lookup_insert_eq. split; [done|]. split; [done|]. by eexists.
Qed.

Lemma bundler_Ok_trace dirPath zip w w' t :
  zip_dotnet_project_references E dirPath zip w = (Ok tt, w', t) →
  no_swap t ∨ last t = Some (EvRename (zip +:+ ".tmp") zip).
Proof.
  unfold zip_dotnet_project_references.
  intros (csproj & w1 & t1 & ta & H1 & H & ->)%bind_Ok_inv.
  apply (stages_get_main E []) in H1 as [_ Ht1].
  apply bind_Ok_inv in H as (refs & w2 & t2 & tb & H2 & H & ->).
  apply (stages_get_references E []) in H2 as [_ Ht2].
  destruct (Py.any refs).
  2:{ rewrite mret_run in H. injection H as <- <-. left.
      repeat apply no_swap_app; (done || constructor). }
  apply bind_Ok_inv in H as ([] & w4 & t4 & tc & H4 & H & ->).
  apply swap_Ok in H as [-> _]. right.
  by rewrite !last_app.
Qed.

Lemma packaging_inv dirPath lang w r w' t :
  zip_contents_from_dir E dirPath lang w = (r, w', t) →
  no_swap t
  ∨ ∃ w1 t1 rb tb,
      no_swap t1
      ∧ try_except
          (zip_dotnet_project_references E (abspath E dirPath)
                                         (archive_file E dirPath))
          bundling_guard
          (λ _, logger_warning
                  "Analysing and bundling dotnet project references have failed.")
          w1 = (rb, w', tb)
      ∧ t = t1 ++ tb
      ∧ r = match rb with
            | Ok _ => Ok (archive_file E dirPath)
            | Raise e => Raise e
            end.
Proof.
  unfold zip_contents_from_dir. cbv zeta. fold (archive_file E dirPath).
  set (zip := archive_file E dirPath).
  set (warn := λ _ : exn, logger_warning _).
  set (tail := if String.eqb _ _ then _ else _).
  assert (no_swap [] ) as Hnil by constructor.
  intros H.
  assert (∃ r0 t0, try_except
                     (zip_open_w E zip;;
                      files ← os_walk E dirPath (keep_subdir E lang);
                      for_each
                        (List.filter (λ df, keep_file E lang df.2) files)
                        (λ '(dirname, filename),
                           zip_write E zip
                             (abspath E (PosixPath.join dirname [filename]))
                             (Py.slice_from
                                (String.length (abspath E dirPath) + 1)
                                (abspath E
                                   (PosixPath.join dirname [filename]))));;
                      tail)
                     is_OSError (λ _, raise (CLIError "OSError")) w
                   = (r0, w', t0)
                   ∧ t = t0
                   ∧ r = match r0 with
                         | Ok _ => Ok zip
                         | Raise e => Raise e
                         end) as (r0 & t0 & H0 & -> & ->).
  { apply bind_inv in H
      as [(e & H & ->)|([] & w1 & t1 & t2 & H1 & H & ->)].
    - by exists (Raise e), t.
    - rewrite mret_run in H. injection H as <- <- <-.
      exists (Ok tt), t1. by rewrite app_nil_r. }
  clear H.
  assert (∀ w0 r1 w1 t1,
            (zip_open_w E zip;;
             files ← os_walk E dirPath (keep_subdir E lang);
             for_each
               (List.filter (λ df, keep_file E lang df.2) files)
               (λ '(dirname, filename),
                  zip_write E zip
                    (abspath E (PosixPath.join dirname [filename]))
                    (Py.slice_from
                       (String.length (abspath E dirPath) + 1)
                       (abspath E (PosixPath.join dirname [filename]))));;
             tail) w0 = (r1, w1, t1) →
            no_swap t1
            ∨ ∃ w2 t2 tb, no_swap t2
                          ∧ String.eqb (Py.lower lang) (NETCORE_RUNTIME_NAME E)
                            = true
                          ∧ tail w2 = (r1, w1, tb) ∧ t1 = t2 ++ tb) as Hinner.
  { intros w0 r1 w1 t1 H.
    apply bind_inv in H
      as [(e & H & ->)|([] & w2 & t2 & ta & H2 & H & ->)].
    { left. by apply (stages_zip_open_w E zip) in H as [_ ?]. }
    apply (stages_zip_open_w E zip) in H2 as [_ Ht2].
    apply bind_inv in H
      as [(e & H & ->)|(files & w3 & t3 & tb & H3 & H & ->)]; [done|].
    apply (stages_os_walk E (resolve E zip)) in H3 as [_ Ht3].
    apply bind_inv in H
      as [(e & H & ->)|([] & w4 & t4 & tc & H4 & H & ->)].
    { left. apply (stages_for_each (resolve E zip)) in H as [_ ?].
      - by repeat apply no_swap_app.
      - intros [d f]. apply stages_zip_write. }
    apply (stages_for_each (resolve E zip)) in H4 as [_ Ht4];
      [|intros [d f]; apply stages_zip_write].
    subst tail. destruct (String.eqb _ _) eqn:Hlang.
    - right. exists w4, (t2 ++ t3 ++ t4), tc.
      split; [by repeat apply no_swap_app|]. split; [done|].
      split; [done|]. by rewrite <- !app_assoc.
    - rewrite mret_run in H. injection H as <- <- <-. left.
      by repeat apply no_swap_app. }
  apply try_except_inv in H0
    as [[H0 Hc]|(e & w1 & t1 & t2 & H1 & Hc & H0 & ->)].
  - apply Hinner in H0 as [?|(w2 & t2 & tb & Ht2 & Hlang & H0 & ->)];
      [by left|]. right. subst tail. rewrite Hlang in H0.
    exists w2, t2, r0, tb. by repeat split.
  - injection H0 as <- <- <-. rewrite app_nil_r.
    apply Hinner in H1 as [?|(w2 & t2 & tb & Ht2 & Hlang & H1 & ->)];
      [by left|]. subst tail. rewrite Hlang in H1.
    apply try_except_inv in H1
      as [[H1 Hg]|(e' & w3 & t3 & t4 & H1 & Hg & H3 & ->)]; [|done].
    by destruct e.
Qed.

End Swap.

(** X8. When the bundler has called [os.rename] and the last thing
    [zip_contents_from_dir] did was to log the bundler's warning, the
    renaming has failed after the original archive was removed:
    [zip_contents_from_dir] returns [zip_file_path] all the same, and no
    file is at that path; the archive that staging built is still at
    [zip_file_path + ".tmp"]. *)
Theorem failed_rename_returns_a_missing_archive (E : env)
    (dirPath lang : string) (w w' : world) (r : result string)
    (t : list event) :
  zip_contents_from_dir E dirPath lang w = (r, w', t) →
  EvRename (archive_file E dirPath +:+ ".tmp") (archive_file E dirPath) ∈ t →
  last t
  = Some (EvWarning
            "Analysing and bundling dotnet project references have failed.") →
  r = Ok (archive_file E dirPath)
  ∧ fs w' !! resolve E (archive_file E dirPath) = None
  ∧ ∃ staged,
      fs w' !! resolve E (archive_file E dirPath +:+ ".tmp")
      = Some (Zip staged).
Proof.
  intros Hrun Hren Hwarn.
  apply packaging_inv in Hrun
    as [Hns|(w1 & t1 & rb & tb & Ht1 & Hrun & -> & ->)].
  { by apply no_swap_not_renamed in Hren. }
  apply elem_of_app in Hren as [Hren|Hren];
    [by apply no_swap_not_renamed in Hren|].
  apply try_except_inv in Hrun
    as [[Hrun Hg]|(e & w2 & t2 & t3 & Hrun & Hg & Hh & ->)].
  - destruct rb as [[]|e].
    + apply bundler_Ok_trace in Hrun as [Hns|Hlast];
        [by apply no_swap_not_renamed in Hren|].
      destruct tb as [|ev tb _] using rev_ind; [done|].
      rewrite app_assoc, last_snoc in Hwarn. rewrite last_snoc in Hlast.
      congruence.
    + apply failed_rename in Hrun as (-> & _); done.
  - injection Hh as <- <- <-.
    apply elem_of_app in Hren as [Hren|Hren].
    + by apply failed_rename in Hrun as (_ & ? & ?).
    + by apply list_elem_of_singleton in Hren.
Qed.

(** ** Facts about strings *)

Lemma contains_char s c : Py.contains s (String c EmptyString) = PyStr.has c s.
Proof.
  induction s as [|c' s IH]; [done|]. cbn. rewrite IH.
  destruct (ascii_dec c c') as [->|Hne].
  - rewrite Ascii.eqb_refl. by destruct s.
  - rewrite (proj2 (Ascii.eqb_neq c' c)) by congruence. done.
Qed.

Lemma lower_ascii_idemp c : Py.lower_ascii (Py.lower_ascii c) = Py.lower_ascii c.
Proof. by destruct c as [[] [] [] [] [] [] [] []]. Qed.

Lemma lower_idemp s : Py.lower (Py.lower s) = Py.lower s.
Proof.
  induction s as [|c s IH]; [done|]. cbn. by rewrite lower_ascii_idemp, IH.
Qed.

Lemma lower_ascii_pipe c :
  Ascii.eqb (Py.lower_ascii c) "|" = Ascii.eqb c "|".
Proof. by destruct c as [[] [] [] [] [] [] [] []]. Qed.

Lemma lower_ascii_space c :
  Ascii.eqb (Py.lower_ascii c) " " = Ascii.eqb c " ".
Proof. by destruct c as [[] [] [] [] [] [] [] []]. Qed.

Lemma has_lower (sep : ascii) s :
  (∀ c, Ascii.eqb (Py.lower_ascii c) sep = Ascii.eqb c sep) →
  PyStr.has sep (Py.lower s) = PyStr.has sep s.
Proof.
  intros Hsep. induction s as [|c s IH]; [done|].
  cbn [PyStr.has Py.lower]. by rewrite Hsep, IH.
Qed.

Lemma split_head sep s :
  ∃ h t, PyStr.split sep s = h :: t ∧ PyStr.has sep h = false.
Proof.
  induction s as [|c s (h & t & IH & Hh)]; [by exists EmptyString, []|].
  cbn [PyStr.split]. destruct (Ascii.eqb c sep) eqn:Hc; [by eexists _, _|].
  rewrite IH. exists (String c h), t. split; [done|].
  cbn [PyStr.has]. by rewrite Hc.
Qed.

Lemma split_app sep h rest :
  PyStr.has sep h = false →
  PyStr.split sep (h +:+ String sep rest) = h :: PyStr.split sep rest.
Proof.
  induction h as [|c h IH].
  - intros _. change (EmptyString +:+ String sep rest) with (String sep rest).
    cbn [PyStr.split]. by rewrite Ascii.eqb_refl.
  - rewrite str_app_cons. cbn [PyStr.split PyStr.has].
    intros [Hc Hh]%orb_false_elim. by rewrite Hc, IH.
Qed.

Lemma split_whole sep h :
  PyStr.has sep h = false → PyStr.split sep h = [h].
Proof.
  induction h as [|c h IH]; cbn [PyStr.split PyStr.has]; [done|].
  intros [Hc Hh]%orb_false_elim. by rewrite Hc, IH.
Qed.

(** ** The stack of a runtime *)

(** X9. The stack that [get_current_stack_from_runtime] gives for the
    portal is in lower case, holds no [|] and is never [aspnet], whatever
    the runtime string is. *)
Theorem stack_is_a_lowercase_language (runtime : string) :
  Py.contains (get_current_stack_from_runtime runtime) "|" = false
  ∧ get_current_stack_from_runtime runtime ≠ "aspnet"
  ∧ Py.lower (get_current_stack_from_runtime runtime)
    = get_current_stack_from_runtime runtime.
Proof.
  unfold get_current_stack_from_runtime.
  destruct (split_head "|" runtime) as (h & t & -> & Hh).
  change (default EmptyString (item0 (h :: t))) with h.
  destruct (String.eqb (Py.lower h) "aspnet") eqn:Heq.
  - split; [reflexivity|]. split; [discriminate|reflexivity].
  - apply String.eqb_neq in Heq. rewrite contains_char, has_lower
      by apply lower_ascii_pipe.
    by rewrite lower_idemp.
Qed.

(** X10. The stack depends on the runtime string up to its first [|]
    only: a runtime [language|version] has the stack of [language]. *)
Theorem stack_ignores_the_version (language version : string) :
  Py.contains language "|" = false →
  get_current_stack_from_runtime (language +:+ "|" +:+ version)
  = get_current_stack_from_runtime language.
Proof.
  rewrite contains_char. intros Hl. unfold get_current_stack_from_runtime.
  change ("|" +:+ version) with (String "|" version).
  rewrite split_app, (split_whole _ language) by done. reflexivity.
Qed.

(** ** The user of the profile *)

Lemma has_app c a b : PyStr.has c (a +:+ b) = PyStr.has c a || PyStr.has c b.
Proof.
  induction a as [|c' a IH]; [done|]. rewrite str_app_cons.
  cbn [PyStr.has]. by rewrite IH, orb_assoc.
Qed.

Lemma split1_cases sep s :
  (PyStr.split1 sep s = [s] ∧ PyStr.has sep s = false)
  ∨ ∃ h r, PyStr.split1 sep s = [h; r] ∧ s = h +:+ String sep r
           ∧ PyStr.has sep h = false.
Proof.
  induction s as [|c s IH]; [by left|]. cbn [PyStr.split1 PyStr.has].
  destruct (Ascii.eqb c sep) eqn:Hc.
  - apply Ascii.eqb_eq in Hc as ->. right. by exists EmptyString, s.
  - destruct IH as [[-> Hs]|(h & r & -> & -> & Hh)].
    + left. by rewrite Hs.
    + right. exists (String c h), r. split; [done|]. split; [done|].
      cbn [PyStr.has]. by rewrite Hc.
Qed.

Lemma split1_app sep h r :
  PyStr.has sep h = false →
  PyStr.split1 sep (h +:+ String sep r) = [h; r].
Proof.
  induction h as [|c h IH].
  - intros _. change (EmptyString +:+ String sep r) with (String sep r).
    cbn [PyStr.split1]. by rewrite Ascii.eqb_refl.
  - rewrite str_app_cons. cbn [PyStr.split1 PyStr.has].
    intros [Hc Hh]%orb_false_elim. by rewrite Hc, IH.
Qed.

Lemma after_hash_has_no_at user :
  PyStr.has "@" user = false →
  PyStr.has "@"
    (if 1 <? length (PyStr.split1 "#" user)
     then default EmptyString (item1 (PyStr.split1 "#" user))
     else user) = false.
Proof.
  intros Hu.
  destruct (split1_cases "#" user) as [[-> _]|(h & r & -> & -> & _)];
    [done|].
  change (PyStr.has "@" r = false).
  rewrite has_app in Hu. apply orb_false_elim in Hu as [_ Hu].
  cbn [PyStr.has] in Hu. by apply orb_false_elim in Hu as [_ Hu].
Qed.

(** X11. The user name that [get_profile_username] makes of the account
    holds no [@], whatever the account is called. *)
Theorem profile_username_has_no_at (account_user : string) :
  Py.contains (get_profile_username account_user) "@" = false.
Proof.
  rewrite contains_char. unfold get_profile_username.
  destruct (split1_cases "@" account_user)
    as [[-> Hu]|(user & rest & -> & _ & Hu)];
    change (default EmptyString (item0 (?x :: _))) with x;
    by apply after_hash_has_no_at.
Qed.

(** X12. For an account [name@host] whose name holds no [#] the user is
    [name]; for an account [domain#name@host], as in the cloud shell, the
    user is [name] again, the text between the first [#] and the first
    [@]. *)
Theorem profile_username_of_an_account (domain name host : string) :
  Py.contains name "@" = false →
  Py.contains domain "@" = false →
  Py.contains domain "#" = false →
  (Py.contains name "#" = false →
   get_profile_username (name +:+ "@" +:+ host) = name)
  ∧ get_profile_username (domain +:+ "#" +:+ name +:+ "@" +:+ host) = name.
Proof.
  rewrite !contains_char. intros Hn Hd1 Hd2. split.
  - intros Hn2. unfold get_profile_username.
    change ("@" +:+ host) with (String "@" host).
    rewrite split1_app by done.
    change (default EmptyString (item0 [name; host])) with name.
    destruct (split1_cases "#" name) as [[-> _]|(h & r & _ & -> & _)];
      [done|].
    rewrite has_app in Hn2. apply orb_false_elim in Hn2 as [_ Hn2].
    cbn [PyStr.has] in Hn2. by rewrite Ascii.eqb_refl in Hn2.
  - unfold get_profile_username.
    change ("@" +:+ host) with (String "@" host).
    rewrite <- !str_app_assoc. rewrite split1_app.
    2:{ rewrite !has_app, Hd1, Hn. reflexivity. }
    change (default EmptyString (item0 [?x; host])) with x.
    change ("#" +:+ name) with (String "#" name).
    rewrite str_app_assoc.
    change ("#" +:+ name) with (String "#" name).
    by rewrite split1_app.
Qed.

(** ** Locations *)

Lemma prefix_char (c c' : ascii) s :
  String.prefix (String c EmptyString) (String c' s) = Ascii.eqb c' c.
Proof.
  cbn [String.prefix]. destruct (ascii_dec c c') as [->|Hne].
  - rewrite Ascii.eqb_refl. by destruct s.
  - symmetry. apply Ascii.eqb_neq. congruence.
Qed.

Lemma replace_char_has c s :
  PyStr.has c (Py.replace s (String c EmptyString) EmptyString) = false.
Proof.
  unfold Py.replace. induction s as [|c' s IH]; [done|].
  cbn [Py.replace_go String.length Nat.sub]. rewrite prefix_char.
  destruct (Ascii.eqb c' c) eqn:Hc; [exact IH|].
  cbn [PyStr.has]. by rewrite Hc, IH.
Qed.

(** X13. The location that [set_location] returns, be it the one given or
    the first the service offers, holds no space and is in lower case. *)
Theorem location_is_normalised (geo_regions : list string)
    (location : option string) (loc : string) :
  set_location geo_regions location = Ok loc →
  Py.contains loc " " = false ∧ Py.lower loc = loc.
Proof.
  assert (∀ l, Py.contains (Py.lower (Py.replace l " " EmptyString)) " "
               = false
               ∧ Py.lower (Py.lower (Py.replace l " " EmptyString))
                 = Py.lower (Py.replace l " " EmptyString)) as Hl.
  { intros l. split; [|apply lower_idemp].
    rewrite contains_char, has_lower by apply lower_ascii_space.
    apply replace_char_has. }
  unfold set_location.
  destruct location as [l|]; [|destruct geo_regions as [|l ?]; [done|]];
    intros [= <-]; apply Hl.
Qed.

(** ** The plans of a resource group *)

(** X14. [_check_resource_group_supports_os] answers yes exactly when
    every plan of the resource group is of the operating system asked for,
    a plan whose [reserved] is unset counting as Windows; so a group without
    plans supports both systems, and no group with a plan does. *)
Theorem resource_group_supports_one_os (plans : list plan) (is_linux : bool) :
  (_check_resource_group_supports_os plans is_linux = true
   ↔ ∀ item, item ∈ plans → flag_set (asp_reserved item) = is_linux)
  ∧ (plans ≠ [] →
     _check_resource_group_supports_os plans true
     && _check_resource_group_supports_os plans false = false).
Proof.
  assert (∀ b, _check_resource_group_supports_os plans b = true
               ↔ ∀ item, item ∈ plans → flag_set (asp_reserved item) = b)
    as Hiff.
  { intros b. induction plans as [|item rest IH]; cbn.
    { split; [by intros _ ? ?%elem_of_nil|done]. }
    destruct b, (flag_set (asp_reserved item)) eqn:Hf; cbn;
      rewrite ?IH; split; try done.
    all: try (intros H x [->|?]%elem_of_cons; by auto).
    all: try (intros H x ?; apply H; by right).
    all: intros H; specialize (H item ltac:(by left)); congruence. }
  split; [apply Hiff|]. intros Hne.
  destruct plans as [|item rest]; [done|].
  destruct (_check_resource_group_supports_os (item :: rest) true) eqn:H1;
    [|done].
  destruct (_check_resource_group_supports_os (item :: rest) false) eqn:H2;
    [|done].
  pose proof (proj1 (Hiff true) H1 item ltac:(by left)).
  pose proof (proj1 (Hiff false) H2 item ltac:(by left)).
  congruence.
Qed.

(** ** The apps of the subscription *)

Section AppFacts.
Context {app : Type} (name_of : app → string).

Lemma get_app_details_None (apps : list app) name :
  get_app_details name_of apps name = None
  ↔ ∀ x, x ∈ apps → Py.lower name ≠ Py.lower (name_of x).
Proof.
  unfold get_app_details.
  destruct (List.filter _ apps) as [|y data] eqn:Hf; cbn.
  - split; [|done]. intros _ x Hx Heq.
    assert (x ∈ List.filter
              (λ x, String.eqb (Py.lower name) (Py.lower (name_of x))) apps)
      as Hin.
    { apply elem_of_List_filter. split; [|done]. by apply String.eqb_eq. }
    rewrite Hf in Hin. by apply elem_of_nil in Hin.
  - split; [done|]. intros H. exfalso.
    assert (y ∈ List.filter
              (λ x, String.eqb (Py.lower name) (Py.lower (name_of x))) apps)
      as [Hy Hin]%elem_of_List_filter by (rewrite Hf; by left).
    apply String.eqb_eq in Hy. by apply (H y).
Qed.

Lemma should_create_new_app_true (apps : list app) name :
  should_create_new_app name_of apps name = true
  ↔ ∀ x, x ∈ apps → Py.lower name ≠ Py.lower (name_of x).
Proof.
  induction apps as [|item rest IH]; cbn.
  { split; [by intros _ ? ?%elem_of_nil|done]. }
  destruct (String.eqb _ _) eqn:Heq.
  - apply String.eqb_eq in Heq. split; [done|]. intros H.
    by destruct (H item ltac:(by left)).
  - apply String.eqb_neq in Heq. rewrite IH. split.
    + intros H x [->|?]%elem_of_cons; [done|]. by apply H.
    + intros H x ?. apply H. by right.
Qed.

End AppFacts.

(** X15. The two look-ups of an app by name agree: both compare names
    without regard to case, so [get_app_details] finds no app of that name
    among the apps of the subscription exactly when
    [should_create_new_app] says yes for them; and when no app of the
    subscription has the name, [should_create_new_app] says yes for the
    apps of any resource group, those being among the subscription's. *)
Theorem app_lookups_agree {app : Type} (name_of : app → string)
    (apps group_apps : list app) (name : string) :
  (get_app_details name_of apps name = None
   ↔ should_create_new_app name_of apps name = true)
  ∧ ((∀ x, x ∈ group_apps → x ∈ apps) →
     get_app_details name_of apps name = None →
     should_create_new_app name_of group_apps name = true).
Proof.
  rewrite get_app_details_None, !should_create_new_app_true.
  split; [done|]. auto.
Qed.

(** ** Searching a JSON document *)

Lemma json_values_ind (P : json → Prop) :
  P JNull → (∀ b, P (JBool b)) → (∀ n, P (JNumber n)) → (∀ s, P (JStr s)) →
  (∀ l, P (JList l)) →
  (∀ items, Forall (λ kv, P (snd kv)) items → P (JDict items)) →
  ∀ v, P v.
Proof.
  intros Hnull Hbool Hnum Hstr Hlist Hdict.
  fix IH 1.
  intros [| | | | l|items];
    [exact Hnull|apply Hbool|apply Hnum|apply Hstr|apply Hlist|].
  apply Hdict. induction items as [|[k v] items IHitems]; constructor.
  - apply IH.
  - exact IHitems.
Qed.

Lemma find_key_in_value_dict key k v rest :
  find_key_in_value key (JDict ((k, v) :: rest))
  = (if Py.contains k key then [v] else find_key_in_value key v)
    ++ find_key_in_value key (JDict rest).
Proof. reflexivity. Qed.

Lemma find_key_sound key v' :
  ∀ d, v' = JDict d → ∀ v, v ∈ find_key_in_value key v' → reaches key d v.
Proof.
  induction v' as [| | | | |items IH] using json_values_ind; try done.
  intros d [= <-]. induction IH as [|[k v1] items Hv1 _ IHitems].
  { by intros v ?%elem_of_nil. }
  intros v. rewrite find_key_in_value_dict.
  intros [Hv|Hv]%elem_of_app.
  - destruct (Py.contains k key) eqn:Hk.
    + apply list_elem_of_singleton in Hv as ->.
      eapply reaches_here; [by left|done].
    + destruct v1 as [| | | | |d]; try by apply elem_of_nil in Hv.
      eapply reaches_below; [by left|done|]. by apply (Hv1 d).
  - apply IHitems in Hv. destruct Hv as [? k' ? Hin Hk|? k' d' ? Hin Hk Hr].
    + eapply reaches_here; [by right|done].
    + eapply reaches_below; [by right|done|done].
Qed.

Lemma find_key_complete key d v :
  reaches key d v → v ∈ find_key_in_value key (JDict d).
Proof.
  induction 1 as [items k v Hin Hk|items k d v Hin Hk _ IH].
  - induction items as [|[k1 v1] items IHitems];
      [by apply elem_of_nil in Hin|].
    rewrite find_key_in_value_dict, elem_of_app.
    apply elem_of_cons in Hin as [[= <- <-]|Hin]; [|right; auto].
    left. rewrite Hk. by left.
  - induction items as [|[k1 v1] items IHitems];
      [by apply elem_of_nil in Hin|].
    rewrite find_key_in_value_dict, elem_of_app.
    apply elem_of_cons in Hin as [[= <- <-]|Hin]; [|right; auto].
    left. by rewrite Hk.
Qed.

(** X16. [find_key_in_json] yields exactly the values that stand under a
    key containing [key] and are reached from the document through objects
    under keys that do not contain it: it does not look into the value of
    a key that matched, nor into the objects inside a list. *)
Theorem find_key_in_json_yields_what_it_reaches
    (json_data : list (string * json)) (key : string) (v : json) :
  v ∈ find_key_in_json json_data key ↔ reaches key json_data v.
Proof.
  split; [by apply find_key_sound|apply find_key_complete].
Qed.

Lemma contains_empty s : Py.contains s EmptyString = true.
Proof. by destruct s. Qed.

(** X17. With the empty string for [key], [find_key_in_json] yields the
    values of the items of the document, one for each item and in their
    order, and looks no deeper: every key contains the empty string. *)
Theorem find_key_in_json_with_empty_key (json_data : list (string * json)) :
  find_key_in_json json_data EmptyString = map snd json_data.
Proof.
  unfold find_key_in_json.
  induction json_data as [|[k v] rest IH]; [done|].
  by rewrite find_key_in_value_dict, contains_empty, IH.
Qed.

(** ** The Node version *)





(** ** Names for new apps *)

Section NamingFacts.
Variable N : naming.

Lemma generate_name_Ok attempt name :
  generate_name N attempt = Ok name → name ≠ EmptyString →
  Py.contains name "." = false
  ∧ name_available (check_name_availability N attempt name) = Some true.
Proof.
  unfold generate_name.
  destruct (choice _ (APP_NAME_NOUNS N)) as [noun|]; [|done].
  destruct (choice _ (APP_NAME_ADJECTIVES N)) as [adjective|]; [|done].
  cbv zeta. unfold get_site_availability.
  destruct (Py.contains _ ".") eqn:Hdot; cbn [name_available flag_set];
    [by intros [= <-]|].
  by destruct (name_available _) as [[]|] eqn:Ha; cbn [flag_set];
    intros [= <-].
Qed.

Lemma retry_inv retry_times attempt generated_name r :
  retry N retry_times attempt generated_name = r →
  (generated_name ≠ EmptyString ∧ r = Ok generated_name)
  ∨ (generated_name = EmptyString
     ∧ ((∃ i, attempt ≤ i < attempt + retry_times
              ∧ (∀ j, attempt ≤ j < i →
                      generate_name N j = Ok EmptyString)
              ∧ ((∃ name, generate_name N i = Ok name
                          ∧ name ≠ EmptyString ∧ r = Ok name)
                 ∨ ∃ e, generate_name N i = Raise e ∧ r = Raise e))
        ∨ ((∀ j, attempt ≤ j < attempt + retry_times →
                 generate_name N j = Ok EmptyString)
           ∧ r = Ok EmptyString))).
Proof.
  revert attempt generated_name.
  induction retry_times as [|n IH]; intros attempt generated_name; cbn.
  { intros <-. destruct generated_name; [right|left; done].
    split; [done|]. right. split; [|done]. intros j Hj. lia. }
  destruct generated_name as [|c s]; cbn; [|intros <-; by left].
  intros H. right. split; [done|].
  destruct (generate_name N attempt) as [g|e] eqn:Hg.
  2:{ left. exists attempt. split; [lia|]. split; [intros j Hj; lia|].
      right. by exists e. }
  apply IH in H as [[Hne ->]|[-> H]].
  { left. exists attempt. split; [lia|]. split; [intros j Hj; lia|].
    left. by exists g. }
  destruct H as [(i & Hi & Hbefore & Hat)|[Hall ->]].
  - left. exists i. split; [lia|]. split; [|done].
    intros j Hj. destruct (decide (j = attempt)) as [->|]; [done|].
    apply Hbefore. lia.
  - right. split; [|done].
    intros j Hj. destruct (decide (j = attempt)) as [->|]; [done|].
    apply Hall. lia.
Qed.

End NamingFacts.

(** X19. [generate_default_app_name] calls [generate_name] six times at
    most.  The name it returns is the first of these six that the service
    reported available; that name holds no dot, since a name with a dot
    counts as taken whatever the service answers; and every call before it
    came back without a name.  It fails with [CLIError] when all six calls
    came back without a name, and otherwise only with the error of the
    first call that raised one. *)
Theorem default_app_name_is_the_first_available (N : naming) :
  match generate_default_app_name N with
  | Ok name =>
      ∃ i, i ≤ 5
           ∧ generate_name N i = Ok name
           ∧ name ≠ EmptyString
           ∧ Py.contains name "." = false
           ∧ name_available (check_name_availability N i name) = Some true
           ∧ ∀ j, j < i → generate_name N j = Ok EmptyString
  | Raise e =>
      ((∃ msg, e = CLIError msg)
       ∧ ∀ j, j ≤ 5 → generate_name N j = Ok EmptyString)
      ∨ ∃ i, i ≤ 5 ∧ generate_name N i = Raise e
             ∧ ∀ j, j < i → generate_name N j = Ok EmptyString
  end.
Proof.
  unfold generate_default_app_name. cbv zeta.
  destruct (generate_name N 0) as [g0|e] eqn:H0.
  2:{ right. exists 0. split; [lia|]. split; [done|]. intros j Hj. lia. }
  destruct (retry N 5 1 g0) as [g|e] eqn:Hr.
  - apply retry_inv in Hr as [[Hne [= ->]]|[-> Hr]].
    + destruct g0 as [|c s]; [done|]. cbn [Py.truthy negb].
      exists 0. split; [lia|]. split; [done|]. split; [done|].
      apply generate_name_Ok in H0 as [? ?]; [|done].
      repeat split; try done. intros j Hj. lia.
    + destruct Hr as [(i & Hi & Hbefore & [(name & Hg & Hne & [= ->])
                                           |(e & _ & [=])])|[Hall [= ->]]].
      * destruct name as [|c s]; [done|]. cbn [Py.truthy negb].
        exists i. split; [lia|]. split; [done|]. split; [done|].
        apply generate_name_Ok in Hg as [? ?]; [|done].
        repeat split; try done. intros j Hj.
        destruct (decide (j = 0)) as [->|]; [done|]. apply Hbefore. lia.
      * cbn [Py.truthy negb]. left. split; [by eexists|]. intros j Hj.
        destruct (decide (j = 0)) as [->|]; [done|]. apply Hall. lia.
  - apply retry_inv in Hr as [[_ [=]]|[-> Hr]].
    destruct Hr as [(i & Hi & Hbefore & [(name & _ & _ & [=])
                                         |(e' & Hg & [= ->])])|[_ [=]]].
    right. exists i. split; [lia|]. split; [done|]. intros j Hj.
    destruct (decide (j = 0)) as [->|]; [done|]. apply Hbefore. lia.
Qed.

(** ** Names for new plans *)

Lemma digits_of_uint d : all_digits (DecimalString.NilEmpty.string_of_uint d) = true.
Proof. induction d; cbn; done. Qed.

Lemma all_digits_str_of_nat n : all_digits (str_of_nat n) = true.
Proof.
  unfold str_of_nat, DecimalString.NilZero.string_of_uint.
  destruct (Nat.to_uint n) eqn:Hd; try done; rewrite <- Hd at 1;
    rewrite Hd; apply (digits_of_uint (_ _)).
Qed.

Lemma all_digits_app a b :
  all_digits (a +:+ b) = all_digits a && all_digits b.
Proof.
  induction a as [|c a IH]; [done|]. rewrite str_app_cons.
  cbn [all_digits]. by rewrite IH, andb_assoc.
Qed.

Lemma all_digits_zeros k : all_digits (zeros k) = true.
Proof. induction k; [done|]. cbn [zeros all_digits]. by rewrite IHk. Qed.

Lemma all_digits_format_04 n : all_digits (format_04 n) = true.
Proof.
  unfold format_04. cbv zeta.
  by rewrite all_digits_app, all_digits_zeros, all_digits_str_of_nat.
Qed.

Lemma all_digits_has c s :
  PyStr.is_digit c = false → all_digits s = true → PyStr.has c s = false.
Proof.
  intros Hc. induction s as [|c' s IH]; [done|]. cbn [all_digits PyStr.has].
  intros [Hd Hs]%andb_true_iff. rewrite IH by done.
  destruct (Ascii.eqb c' c) eqn:Heq; [|done].
  apply Ascii.eqb_eq in Heq as ->. congruence.
Qed.

Lemma rindex_app c a b :
  PyStr.has c b = false →
  PyStr.rindex c (a +:+ String c b) = Some (String.length a).
Proof.
  intros Hb.
  assert (PyStr.rindex c b = None) as Hnone.
  { induction b as [|c' b IH]; [done|]. cbn [PyStr.has] in Hb.
    apply orb_false_elim in Hb as [Hc Hb]. cbn [PyStr.rindex].
    by rewrite IH, Hc. }
  induction a as [|c' a IH].
  - change (EmptyString +:+ String c b) with (String c b).
    cbn [PyStr.rindex String.length]. by rewrite Hnone, Ascii.eqb_refl.
  - rewrite str_app_cons. cbn [PyStr.rindex String.length]. by rewrite IH.
Qed.

Lemma slice_to_app a b : Py.slice_to (String.length a) (a +:+ b) = a.
Proof.
  induction a as [|c a IH]; [by destruct b|]. rewrite str_app_cons.
  cbn [String.length Py.slice_to]. by rewrite IH.
Qed.

Lemma contains_prefix a b : Py.contains (a +:+ b) a = true.
Proof.
  assert (String.prefix a (a +:+ b) = true) as Hp.
  { induction a as [|c a IH]; [by destruct b|]. rewrite str_app_cons.
    cbn [String.prefix]. by destruct (ascii_dec c c). }
  destruct (a +:+ b); cbn [Py.contains]; by rewrite Hp.
Qed.

Lemma insert_by_name_length a l :
  length (insert_by_name a l) = S (length l).
Proof.
  induction l as [|b l IH]; [done|]. cbn.
  destruct (String.leb _ _); [done|]. cbn. by rewrite IH.
Qed.

Lemma sorted_by_name_length l : length (sorted_by_name l) = length l.
Proof.
  induction l as [|a l IH]; [done|].
  change (sorted_by_name (a :: l))
    with (insert_by_name a (sorted_by_name l)).
  by rewrite insert_by_name_length, IH.
Qed.

(** The generic name of a default plan name. *)
Lemma default_plan_generic user randint :
  _get_default_plan_name user randint
  = (user +:+ "_asp") +:+ String "_" (format_04 randint)
  ∧ PyStr.rindex "_" (_get_default_plan_name user randint)
    = Some (String.length (user +:+ "_asp"))
  ∧ Py.slice_to (String.length (user +:+ "_asp"))
                (_get_default_plan_name user randint)
    = user +:+ "_asp".
Proof.
  assert (_get_default_plan_name user randint
          = (user +:+ "_asp") +:+ String "_" (format_04 randint)) as ->.
  { unfold _get_default_plan_name. by rewrite str_app_assoc. }
  split; [done|]. split; [|apply slice_to_app].
  apply rindex_app, all_digits_has; [done|apply all_digits_format_04].
Qed.


(** *** Reading back the number of a default plan name *)

Lemma str_app_nil_r s : s +:+ EmptyString = s.
Proof. induction s as [|c s IH]; [done|]. by rewrite str_app_cons, IH. Qed.

Lemma rev_app_rev_app s acc acc' :
  String.rev_app (String.rev_app s acc) acc'
  = String.rev_app acc (s +:+ acc').
Proof.
  revert acc acc'. induction s as [|c s IH]; intros acc acc'; [done|].
  cbn [String.rev_app]. by rewrite IH.
Qed.

Lemma str_rev_involutive s : String.rev (String.rev s) = s.
Proof.
  unfold String.rev. rewrite rev_app_rev_app. apply str_app_nil_r.
Qed.

Lemma all_digits_rev_app s acc :
  all_digits (String.rev_app s acc) = all_digits s && all_digits acc.
Proof.
  revert acc. induction s as [|c s IH]; intros acc; [done|].
  cbn [String.rev_app all_digits]. rewrite IH. cbn [all_digits].
  by destruct (PyStr.is_digit c), (all_digits s).
Qed.

Lemma all_digits_rev s : all_digits (String.rev s) = all_digits s.
Proof. unfold String.rev. by rewrite all_digits_rev_app, andb_true_r. Qed.

Lemma is_digit_not_space c : PyStr.is_digit c = true → is_space c = false.
Proof.
  unfold PyStr.is_digit, is_space. generalize (nat_of_ascii c). intros n.
  rewrite andb_true_iff, !Nat.leb_le. intros [? ?].
  repeat (apply orb_false_intro); try (apply Nat.eqb_neq; lia).
  apply andb_false_iff. right. apply Nat.leb_gt. lia.
Qed.

Lemma lstrip_digits s : all_digits s = true → lstrip s = s.
Proof.
  destruct s as [|c s]; [done|]. cbn [all_digits lstrip].
  intros [Hc _]%andb_true_iff. by rewrite is_digit_not_space.
Qed.

Lemma strip_digits s : all_digits s = true → strip s = s.
Proof.
  intros Hs. unfold strip. rewrite (lstrip_digits s) by done.
  rewrite lstrip_digits by by rewrite all_digits_rev.
  apply str_rev_involutive.
Qed.

Lemma digits_value_of_uint d after acc :
  (d ≠ Decimal.Nil ∨ after = true) →
  digits_value after acc (DecimalString.NilEmpty.string_of_uint d)
  = Some (Nat.of_uint_acc d acc).
Proof.
  revert after acc.
  induction d as [|d IH|d IH|d IH|d IH|d IH|d IH|d IH|d IH|d IH|d IH];
    intros after acc Hd;
    [by destruct Hd as [?| ->]|..];
    cbn [DecimalString.NilEmpty.string_of_uint digits_value Nat.of_uint_acc];
    change (PyStr.is_digit _) with true; cbv iota;
    rewrite IH by (by right); rewrite Nat.tail_mul_spec; f_equal; f_equal;
    cbn [nat_of_ascii]; vm_compute Nat.sub; lia.
Qed.

Lemma digits_value_zeros k after s :
  digits_value after 0 (zeros k +:+ s)
  = digits_value (after || (0 <? k)) 0 s.
Proof.
  revert after. induction k as [|k IH]; intros after.
  - by rewrite orb_false_r.
  - cbn [zeros]. rewrite str_app_cons. cbn [digits_value].
    change (PyStr.is_digit "0") with true. cbv iota.
    change (10 * 0 + (nat_of_ascii "0" - 48)) with 0. rewrite IH.
    by rewrite orb_true_r.
Qed.

Lemma digits_value_str_of_nat after n :
  digits_value after 0 (str_of_nat n) = Some n.
Proof.
  unfold str_of_nat, DecimalString.NilZero.string_of_uint.
  pose proof (DecimalNat.Unsigned.of_to n) as Hn. unfold Nat.of_uint in Hn.
  destruct (Nat.to_uint n) eqn:Hd;
    [cbn in Hn; by subst|
     rewrite <- Hd at 1; rewrite Hd;
     rewrite digits_value_of_uint by (by left); by rewrite Hn ..].
Qed.

Lemma py_int_digits s :
  all_digits s = true → py_int s = Z.of_nat <$> digits_value false 0 s.
Proof.
  intros Hs. unfold py_int. rewrite strip_digits by done.
  destruct s as [|c r]; [done|]. cbn [all_digits] in Hs.
  apply andb_true_iff in Hs as [Hc _].
  by destruct c as [[] [] [] [] [] [] [] []].
Qed.

(** [int] reads back the number that [{:04}] wrote. *)
Lemma py_int_format_04 n : py_int (format_04 n) = Some (Z.of_nat n).
Proof.
  rewrite py_int_digits by apply all_digits_format_04.
  unfold format_04. cbv zeta.
  by rewrite digits_value_zeros, digits_value_str_of_nat.
Qed.

Lemma split_nonempty sep s : PyStr.split sep s ≠ [].
Proof. by destruct (split_head sep s) as (h & t & -> & _). Qed.

Lemma split_snoc sep a b :
  PyStr.has sep b = false →
  PyStr.split sep (a +:+ String sep b) = PyStr.split sep a ++ [b].
Proof.
  intros Hb. induction a as [|c a IH].
  - change (EmptyString +:+ String sep b) with (String sep b).
    cbn [PyStr.split]. by rewrite Ascii.eqb_refl, split_whole.
  - rewrite str_app_cons. cbn [PyStr.split]. rewrite IH.
    destruct (Ascii.eqb c sep); [done|].
    destruct (PyStr.split sep a) as [|h t] eqn:Hsplit; [|done].
    by apply split_nonempty in Hsplit.
Qed.

Lemma last_split_app sep a b :
  PyStr.has sep b = false →
  last (PyStr.split sep (a +:+ String sep b)) = Some b.
Proof. intros Hb. by rewrite split_snoc, last_snoc. Qed.

(** *** The order of plan names *)

Lemma string_compare_trans a b c :
  String.compare a b ≠ Gt → String.compare b c ≠ Gt →
  String.compare a c ≠ Gt.
Proof.
  revert b c. induction a as [|c1 a IH]; intros [|c2 b] [|c3 c]; cbn;
    try done.
  unfold Ascii.compare.
  destruct (N.compare_spec (N_of_ascii c1) (N_of_ascii c2)) as [H12|H12|H12];
    destruct (N.compare_spec (N_of_ascii c2) (N_of_ascii c3))
      as [H23|H23|H23]; try done.
  - rewrite H12, H23, N.compare_refl. apply IH.
  - intros _ _. rewrite H12. by rewrite (proj2 (N.compare_lt_iff _ _) H23).
  - intros _ _. rewrite <- H23.
    by rewrite (proj2 (N.compare_lt_iff _ _) H12).
  - intros _ _.
    by rewrite (proj2 (N.compare_lt_iff _ _) (N.lt_trans _ _ _ H12 H23)).
Qed.

Lemma string_leb_trans a b c :
  String.leb a b = true → String.leb b c = true → String.leb a c = true.
Proof.
  unfold String.leb. intros Hab Hbc.
  pose proof (string_compare_trans a b c) as H.
  destruct (String.compare a b), (String.compare b c),
    (String.compare a c); try done; by destruct H.
Qed.

Lemma elem_of_insert_by_name a l x :
  x ∈ insert_by_name a l ↔ x = a ∨ x ∈ l.
Proof.
  induction l as [|b l IH]; cbn.
  { rewrite list_elem_of_singleton. set_solver. }
  destruct (String.leb _ _); [by rewrite elem_of_cons|].
  rewrite !elem_of_cons, IH. tauto.
Qed.

Lemma elem_of_sorted_by_name l x : x ∈ sorted_by_name l ↔ x ∈ l.
Proof.
  induction l as [|a l IH]; [done|].
  change (sorted_by_name (a :: l))
    with (insert_by_name a (sorted_by_name l)).
  by rewrite elem_of_insert_by_name, IH, elem_of_cons.
Qed.

(** In a list whose last element is greatest, inserting keeps it so. *)
Lemma insert_by_name_last a l :
  (∀ q, last l = Some q →
        ∀ x, x ∈ l → String.leb (asp_name x) (asp_name q) = true) →
  ∃ q, last (insert_by_name a l) = Some q
       ∧ ∀ x, x ∈ insert_by_name a l →
              String.leb (asp_name x) (asp_name q) = true.
Proof.
  induction l as [|b l IH]; intros Hl.
  { exists a. split; [done|]. intros x ->%list_elem_of_singleton.
    by destruct (String.leb_total (asp_name a) (asp_name a)). }
  cbn [insert_by_name]. destruct (String.leb _ _) eqn:Hab.
  - destruct (last (b :: l)) as [q|] eqn:Hq; [|by apply last_None in Hq].
    exists q. split; [exact Hq|].
    intros x [->|Hx]%elem_of_cons; [|by eapply Hl].
    eapply string_leb_trans; [exact Hab|]. eapply Hl; [done|by left].
  - destruct IH as (q & Hq & Hmax).
    { intros q Hq x Hx. eapply Hl; [|by right].
      destruct l; [done|exact Hq]. }
    exists q. split.
    { cbn [last]. destruct (insert_by_name a l) eqn:Hi; [done|exact Hq]. }
    intros x [->|Hx]%elem_of_cons; [|by apply Hmax].
    assert (String.leb (asp_name b) (asp_name a) = true) as Hba.
    { destruct (String.leb_total (asp_name a) (asp_name b)); congruence. }
    destruct l as [|b' l].
    + cbn in Hq. by injection Hq as <-.
    + destruct (last (b' :: l)) as [q'|] eqn:Hq';
        [|by apply last_None in Hq'].
      pose proof (Hl q' Hq' b ltac:(by left)) as Hbq.
      assert (q' ∈ insert_by_name a (b' :: l)) as Hin.
      { apply elem_of_insert_by_name. right.
        clear -Hq'. apply last_Some in Hq' as [l' ->].
        rewrite elem_of_app. right. by left. }
      eapply string_leb_trans; [exact Hbq|by apply Hmax].
Qed.

Lemma sorted_by_name_last l :
  l ≠ [] →
  ∃ q, last (sorted_by_name l) = Some q
       ∧ ∀ x, x ∈ l → String.leb (asp_name x) (asp_name q) = true.
Proof.
  induction l as [|a l IH]; [done|]. intros _.
  change (sorted_by_name (a :: l))
    with (insert_by_name a (sorted_by_name l)).
  destruct (insert_by_name_last a (sorted_by_name l)) as (q & Hq & Hmax).
  { destruct l as [|b l]; [done|].
    destruct IH as (q & Hq & Hmax); [done|].
    intros q' Hq' x Hx. apply (proj1 (elem_of_sorted_by_name _ _)) in Hx.
    rewrite Hq in Hq'. injection Hq' as <-. by apply Hmax. }
  exists q. split; [done|]. intros x Hx. apply Hmax.
  apply elem_of_insert_by_name. rewrite elem_of_sorted_by_name.
  by apply elem_of_cons in Hx.
Qed.

Lemma find_None {A} (f : A → bool) (l : list A) :
  (∀ x, x ∈ l → f x = false) → List.find f l = None.
Proof.
  induction l as [|a l IH]; [done|]. intros Hl. cbn.
  rewrite (Hl a) by by left. apply IH. intros x Hx. apply Hl. by right.
Qed.

(** X21. When the plan of the resource group that comes last by name among
    those with [user_asp] in their names is itself called as
    [_get_default_plan_name] calls plans, with the number [number], and
    none of those plans fits the sku, the location and the operating system
    asked for, [_determine_if_default_plan_to_use] returns [user_asp_]
    followed by [number + 1]: it reads the number back from the four
    digits, and writes the next one without padding. *)
Theorem new_plan_is_numbered_after_the_last (plans : list plan)
    (user loc sku : string) (randint number : nat) (is_linux : bool)
    (last_plan : plan) :
  last_plan ∈ plans →
  asp_name last_plan = _get_default_plan_name user number →
  (∀ a, a ∈ plans → Py.contains (asp_name a) (user +:+ "_asp") = true →
        plan_fits sku loc is_linux a = false
        ∧ String.leb (asp_name a) (asp_name last_plan) = true) →
  _determine_if_default_plan_to_use plans
    (_get_default_plan_name user randint) loc sku false is_linux
  = Ok (user +:+ "_asp_" +:+ str_of_nat (S number)).
Proof.
  intros Hin Hname Hall. unfold _determine_if_default_plan_to_use.
  destruct (default_plan_generic user randint) as (_ & -> & ->).
  destruct (default_plan_generic user number) as (Hshape & _ & _).
  cbv zeta.
  pose proof (elem_of_List_filter
                (λ x, Py.contains (asp_name x) (user +:+ "_asp")) plans)
    as Hcand.
  remember (List.filter
              (λ x, Py.contains (asp_name x) (user +:+ "_asp")) plans)
    as candidates eqn:Hc.
  clear Hc.
  assert (last_plan ∈ candidates) as Hlast.
  { apply Hcand. split; [|done]. rewrite Hname, Hshape.
    apply contains_prefix. }
  assert (candidates ≠ []) as Hne.
  { intros ->. by apply elem_of_nil in Hlast. }
  assert ((0 <? length candidates) = true) as ->.
  { destruct candidates; [done|]. done. }
  rewrite find_None.
  2:{ intros x [? ?]%Hcand. by apply Hall. }
  destruct (sorted_by_name_last candidates Hne) as (q & Hq & Hmax).
  rewrite last_lookup, sorted_by_name_length in Hq.
  replace (length candidates - 1) with (pred (length candidates)) by lia.
  rewrite Hq.
  assert (asp_name q = asp_name last_plan) as ->.
  { assert (q ∈ candidates) as Hqc.
    { apply elem_of_sorted_by_name. by eapply list_elem_of_lookup_2. }
    apply Hcand in Hqc as [Hq1 Hq2].
    apply String.leb_antisym; [by apply Hall|by apply Hmax]. }
  rewrite Hname, Hshape, last_split_app.
  2:{ apply all_digits_has; [done|apply all_digits_format_04]. }
  rewrite py_int_format_04. f_equal.
  rewrite str_app_assoc. change ("_asp" +:+ "_" +:+ ?s) with ("_asp_" +:+ s).
  do 2 f_equal. unfold str_of_int.
  destruct (Z.ltb_spec (Z.of_nat number + 1) 0) as [?|_]; [lia|].
  f_equal. lia.
Qed.

(** ** Detecting the runtime of a project *)

Section DetectionFacts.
Variable E : env.
Variables (STATIC_RUNTIME_NAME LINUX_SKU_DEFAULT : string).
Variable detect_dotnet_lang : string → bool → M string.

Lemma isfile_run p w :
  isfile E p w = (Ok (bool_decide (is_Some (fs w !! resolve E p))), w, []).
Proof. reflexivity. Qed.

Lemma scan_files_run src_path html pairs d files found w :
  (∀ file, file ∈ files → (d, file) ∈ pairs) →
  found_in src_path html pairs found →
  ∃ found', scan_files E src_path html d files found w = (Ok found', w, [])
            ∧ found_in src_path html pairs found'
            ∧ ((∀ file, file ∈ files → Py.endswith file ".csproj" = false) →
               snd found' = snd found).
Proof.
  intros Hfiles Hfound. induction files as [|file rest IH]; cbn [scan_files].
  { by exists found. }
  destruct (html && is_html file) eqn:Hhtml.
  { apply andb_true_iff in Hhtml as [-> Hhtml]. eexists.
    split; [reflexivity|]. split; [|done]. split.
    - right. split; [done|]. exists d, file.
      split; [apply Hfiles; by left|done].
    - apply Hfound. }
  destruct (Py.endswith file ".csproj") eqn:Hcs.
  { cbv zeta. rewrite bind_run, isfile_run. eexists.
    split; [reflexivity|]. split.
    - split; [apply Hfound|]. right. exists d, file.
      split; [apply Hfiles; by left|]. split; [done|].
      cbn [snd]. destruct (bool_decide _); auto.
    - intros Hno. rewrite Hno in Hcs by by left. done. }
  destruct IH as (found' & Hrun & Hin & Hsnd).
  { intros f Hf. apply Hfiles. by right. }
  exists found'. split; [done|]. split; [done|].
  intros Hno. apply Hsnd. intros f Hf. apply Hno. by right.
Qed.

Lemma elem_of_walk_dirs pairs d files file :
  (d, files) ∈ walk_dirs pairs → file ∈ files → (d, file) ∈ pairs.
Proof.
  unfold walk_dirs. intros (d' & [= <- ->] & _)%list_elem_of_fmap Hfile.
  apply list_elem_of_fmap in Hfile as ([d'' f] & -> & Hin).
  apply elem_of_List_filter in Hin as [Heq Hin]. cbn in Heq.
  by apply String.eqb_eq in Heq as ->.
Qed.

Lemma scan_dirs_run src_path html pairs dirs found w :
  (∀ d files, (d, files) ∈ dirs → ∀ file, file ∈ files → (d, file) ∈ pairs) →
  found_in src_path html pairs found →
  ∃ found',
    for_fold dirs found
      (λ found dir, scan_files E src_path html (fst dir) (snd dir) found) w
    = (Ok found', w, [])
    ∧ found_in src_path html pairs found'
    ∧ ((∀ d file, (d, file) ∈ pairs → Py.endswith file ".csproj" = false) →
       snd found' = snd found).
Proof.
  revert found. induction dirs as [|[d files] dirs IH]; intros found Hd Hf.
  { by exists found. }
  cbn [for_fold fst snd].
  destruct (scan_files_run src_path html pairs d files found w)
    as (found1 & Hrun1 & Hf1 & Hs1); [|done|].
  { apply Hd. by left. }
  destruct (IH found1) as (found' & Hrun & Hf' & Hs'); [|done|].
  { intros d' files' Hin. apply Hd. by right. }
  exists found'. rewrite bind_run, Hrun1, Hrun. split; [done|].
  split; [done|]. intros Hno. rewrite Hs' by done. apply Hs1.
  intros file Hfile. eapply Hno, Hd; [by left|done].
Qed.

(** The two loops of [get_lang_from_content]: they change nothing and do
    not fail. *)
Lemma scan_run src_path html w :
  ∃ found,
    for_fold (walk_dirs (walk_files E (dom (fs w)) src_path (λ _, true)))
      (EmptyString, EmptyString)
      (λ found dir, scan_files E src_path html (fst dir) (snd dir) found) w
    = (Ok found, w, [])
    ∧ found_in src_path html
        (walk_files E (dom (fs w)) src_path (λ _, true)) found
    ∧ ((∀ d file, (d, file) ∈ walk_files E (dom (fs w)) src_path (λ _, true)
                  → Py.endswith file ".csproj" = false) →
       snd found = EmptyString).
Proof.
  apply scan_dirs_run; [|split; by left].
  intros d files Hin file. by apply elem_of_walk_dirs.
Qed.

Lemma isfile_Some p w f :
  fs w !! resolve E p = Some f →
  bool_decide (is_Some (fs w !! resolve E p)) = true.
Proof. intros ->. by apply bool_decide_eq_true. Qed.

Lemma isfile_None p w :
  fs w !! resolve E p = None →
  bool_decide (is_Some (fs w !! resolve E p)) = false.
Proof. intros ->. apply bool_decide_eq_false. by intros [? ?]. Qed.

End DetectionFacts.

(** X22. Without the html flag, a file [requirements.txt] in [src_path]
    decides: [get_lang_from_content] answers Python, with that file and the
    default Linux sku, whatever else the directory holds, a [package.json]
    or manifests of dotnet projects included; it has walked the directory
    and changed nothing. *)
Theorem requirements_txt_makes_a_python_app (E : env)
    (STATIC_RUNTIME_NAME LINUX_SKU_DEFAULT : string)
    (detect_dotnet_lang : string → bool → M string)
    (src_path : string) (is_linux : bool) (w : world) (f : file) :
  fs w !! resolve E (PosixPath.join src_path ["requirements.txt"])
  = Some f →
  get_lang_from_content E STATIC_RUNTIME_NAME LINUX_SKU_DEFAULT
    detect_dotnet_lang src_path false is_linux w
  = (Ok {| language := PYTHON_RUNTIME_NAME E;
           file_loc := PosixPath.join src_path ["requirements.txt"];
           default_sku := LINUX_SKU_DEFAULT |},
     w, [EvWalk src_path]).
Proof.
  intros Hreq. unfold get_lang_from_content. cbv zeta.
  destruct (scan_run E src_path false w) as (found & Hrun & _).
  rewrite bind_run, os_walk_run, bind_run, Hrun, bind_run, isfile_run.
  by rewrite (isfile_Some E _ _ _ Hreq).
Qed.

(** X23. The files [server.js] and [index.js] are looked for in the
    current directory of the process and not in [src_path]: without the
    html flag, when [src_path] holds neither [requirements.txt] nor
    [package.json] and one of the two is in the current directory,
    [get_lang_from_content] answers Node for [src_path], with no file
    location, whatever [src_path] holds. *)
Theorem server_js_of_the_current_directory_makes_a_node_app (E : env)
    (STATIC_RUNTIME_NAME LINUX_SKU_DEFAULT : string)
    (detect_dotnet_lang : string → bool → M string)
    (src_path : string) (is_linux : bool) (w : world) :
  fs w !! resolve E (PosixPath.join src_path ["requirements.txt"]) = None →
  fs w !! resolve E (PosixPath.join src_path ["package.json"]) = None →
  is_Some (fs w !! resolve E "server.js")
  ∨ is_Some (fs w !! resolve E "index.js") →
  get_lang_from_content E STATIC_RUNTIME_NAME LINUX_SKU_DEFAULT
    detect_dotnet_lang src_path false is_linux w
  = (Ok {| language := NODE_RUNTIME_NAME E;
           file_loc := EmptyString;
           default_sku := LINUX_SKU_DEFAULT |},
     w, [EvWalk src_path]).
Proof.
  intros Hreq Hpkg Hjs. unfold get_lang_from_content. cbv zeta.
  destruct (scan_run E src_path false w) as (found & Hrun & _).
  rewrite bind_run, os_walk_run, bind_run, Hrun, bind_run, isfile_run.
  rewrite (isfile_None E _ _ Hreq).
  rewrite bind_run, isfile_run, (isfile_None E _ _ Hpkg).
  rewrite bind_run, isfile_run.
  destruct (bool_decide (is_Some (fs w !! resolve E "server.js"))) eqn:Hs.
  - rewrite bind_run, mret_run, bind_run, isfile_run.
    by rewrite (isfile_None E _ _ Hpkg).
  - rewrite bind_run, isfile_run.
    destruct Hjs as [Hjs|Hjs];
      [by apply bool_decide_eq_false in Hs|].
    rewrite (bool_decide_eq_true_2 _ Hjs).
    rewrite bind_run, isfile_run. by rewrite (isfile_None E _ _ Hpkg).
Qed.

(** X24. With the html flag, [get_lang_from_content] looks at nothing but
    the names of the files below [src_path]: it answers the static
    runtime, with the F1 sku, or fails with [CLIError], and never Python,
    Node or dotnet, whatever the directory holds.  The file location it
    gives is [src_path] joined with the name of an html file found
    somewhere below [src_path], be it in a sub-directory. *)
Theorem html_flag_makes_a_static_app (E : env)
    (STATIC_RUNTIME_NAME LINUX_SKU_DEFAULT : string)
    (detect_dotnet_lang : string → bool → M string)
    (src_path : string) (is_linux : bool) (w : world) :
  ∃ r,
    get_lang_from_content E STATIC_RUNTIME_NAME LINUX_SKU_DEFAULT
      detect_dotnet_lang src_path true is_linux w
    = (r, w, [EvWalk src_path])
    ∧ ((∃ msg, r = Raise (CLIError msg))
       ∨ ∃ d file,
           (d, file) ∈ walk_files E (dom (fs w)) src_path (λ _, true)
           ∧ is_html file = true
           ∧ r = Ok {| language := STATIC_RUNTIME_NAME;
                       file_loc := PosixPath.join src_path [file];
                       default_sku := "F1" |}).
Proof.
  unfold get_lang_from_content. cbv zeta.
  destruct (scan_run E src_path true w) as (found & Hrun & [Hhtml _] & _).
  rewrite bind_run, os_walk_run, bind_run, Hrun.
  destruct Hhtml as [Hnone|(_ & d & file & Hin & Hfile & Hfound)].
  - rewrite Hnone. eexists. split; [reflexivity|]. left. by eexists.
  - rewrite Hfound. destruct (Py.truthy _).
    + eexists. split; [reflexivity|]. right. by exists d, file.
    + eexists. split; [reflexivity|]. left. by eexists.
Qed.

(** X25. Without the html flag, when [src_path] holds neither
    [requirements.txt] nor [package.json], the current directory neither
    [server.js] nor [index.js], and no file below [src_path] has a name
    ending in [.csproj], [get_lang_from_content] fails with [CLIError]: it
    knows no other runtime. *)
Theorem unknown_project_is_a_CLIError (E : env)
    (STATIC_RUNTIME_NAME LINUX_SKU_DEFAULT : string)
    (detect_dotnet_lang : string → bool → M string)
    (src_path : string) (is_linux : bool) (w : world) :
  fs w !! resolve E (PosixPath.join src_path ["requirements.txt"]) = None →
  fs w !! resolve E (PosixPath.join src_path ["package.json"]) = None →
  fs w !! resolve E "server.js" = None →
  fs w !! resolve E "index.js" = None →
  (∀ d file, (d, file) ∈ walk_files E (dom (fs w)) src_path (λ _, true) →
             Py.endswith file ".csproj" = false) →
  ∃ msg,
    get_lang_from_content E STATIC_RUNTIME_NAME LINUX_SKU_DEFAULT
      detect_dotnet_lang src_path false is_linux w
    = (Raise (CLIError msg), w, [EvWalk src_path]).
Proof.
  intros Hreq Hpkg Hserver Hindex Hno. unfold get_lang_from_content.
  cbv zeta.
  destruct (scan_run E src_path false w) as (found & Hrun & _ & Hsnd).
  rewrite bind_run, os_walk_run, bind_run, Hrun, bind_run, isfile_run.
  rewrite (isfile_None E _ _ Hreq).
  rewrite bind_run, isfile_run, (isfile_None E _ _ Hpkg).
  rewrite bind_run, isfile_run, (isfile_None E _ _ Hserver).
  rewrite bind_run, isfile_run, (isfile_None E _ _ Hindex).
  rewrite (Hsnd Hno). by eexists.
Qed.

(** ** The further properties at concrete inputs *)

Import Packaged.

Lemma packaging_touches_only_the_archives_witness :
  fs dotnet_packaging.1.2 !! ["home"; "u"; "Lib"; "Lib.csproj"]
  = fs chain !! ["home"; "u"; "Lib"; "Lib.csproj"].
Proof.
  apply (packaging_touches_only_the_archives chain_env "/home/u/App"
           "dotnetcore" chain dotnet_packaging.1.2 dotnet_packaging.1.1
           dotnet_packaging.2).
  - unfold dotnet_packaging. by destruct (zip_contents_from_dir _ _ _ _)
      as [[? ?] ?].
  - vm_compute. discriminate.
  - vm_compute. discriminate.
Defined.



Lemma closure_is_closed_witness :
  closed_in cycle_env (fs cycle) (["/lib/Lib.csproj"] ++ ["/app/App.csproj"])
    "/app/App.csproj".
Proof.
  apply (closure_is_closed cycle_env ["/lib/Lib.csproj"] cycle
           cycle_closure.1.2 ["/app/App.csproj"] cycle_closure.2).
  - intros [[=]|[]%elem_of_nil]%elem_of_cons.
  - run_eq.
  - apply elem_of_app. right. by left.
Defined.

Lemma references_are_itemgroup_children_witness :
  ∃ text root,
    fs chain !! resolve chain_env "/home/u/App/App.csproj" = Some (Raw text)
    ∧ ET_fromstring chain_env text = Some root
    ∧ fs chain_references.1.2 = fs chain
    ∧ ∀ x, x ∈ ["../Lib/Lib.csproj"] ↔
           Py.endswith x ".csproj" = true
           ∧ ∃ item project,
               item ∈ children root ∧ tag item = "ItemGroup"
               ∧ project ∈ children item
               ∧ tag project = "ProjectReference"
               ∧ attrib_get (attrib project) "Include" = Some x.
Proof.
  apply (references_are_itemgroup_children chain_env
           "/home/u/App/App.csproj" chain chain_references.1.2
           ["../Lib/Lib.csproj"] chain_references.2).
  run_eq.
Defined.

Lemma reference_without_include_raises_KeyError_witness :
  zip_dotnet_project_references anonymous_env "/home/u/App" "/tmp/app.zip"
    anonymous
  = (Raise KeyError, anonymous_parse.1.2,
     anonymous_main.2 ++ anonymous_parse.2)
  ∧ fs anonymous_parse.1.2 = fs anonymous
  ∧ bundling_guard KeyError = false.
Proof.
  apply (reference_without_include_raises_KeyError anonymous_env
           "/home/u/App" "/tmp/app.zip" "/home/u/App/App.csproj" anonymous
           anonymous_main.1.2 anonymous_parse.1.2 anonymous_main.2
           anonymous_parse.2 anonymous_tree anonymous_group
           anonymous_reference).
  - run_eq.
  - run_eq.
  - by left.
  - reflexivity.
  - by left.
  - reflexivity.
  - reflexivity.
Defined.

Lemma rewriting_needs_a_textual_occurrence_witness :
  rewrite_manifest [("../R&D/Lib.csproj", "references/R&D/Lib.csproj")]
    "<ProjectReference Include='../R&amp;D/Lib.csproj' />"
  = "<ProjectReference Include='../R&amp;D/Lib.csproj' />".
Proof.
  apply (rewriting_needs_a_textual_occurrence
           [("../R&D/Lib.csproj", "references/R&D/Lib.csproj")]
           "<ProjectReference Include='../R&amp;D/Lib.csproj' />").
  intros k v [[= -> ->]|[]%elem_of_nil]%elem_of_cons. reflexivity.
Defined.

Lemma failed_rename_returns_a_missing_archive_witness :
  unrenamed_packaging.1.1 = Ok (archive_file chain_env "/home/u/App")
  ∧ fs unrenamed_packaging.1.2
      !! resolve chain_env (archive_file chain_env "/home/u/App")
    = None
  ∧ ∃ staged,
      fs unrenamed_packaging.1.2
        !! resolve chain_env (archive_file chain_env "/home/u/App" +:+ ".tmp")
      = Some (Zip staged).
Proof.
  apply (failed_rename_returns_a_missing_archive
           (failing_at (calls_of_packaging - 1)) "/home/u/App" "dotnetcore"
           chain unrenamed_packaging.1.2 unrenamed_packaging.1.1
           unrenamed_packaging.2).
  - unfold unrenamed_packaging. by destruct (zip_contents_from_dir _ _ _ _)
      as [[? ?] ?].
  - decided.
  - run_eq.
Defined.

Lemma stack_ignores_the_version_witness :
  get_current_stack_from_runtime ("ASPNET" +:+ "|" +:+ "V4.8")
  = get_current_stack_from_runtime "ASPNET".
Proof. apply (stack_ignores_the_version "ASPNET" "V4.8"). reflexivity. Defined.

Lemma profile_username_of_an_account_witness :
  (Py.contains "ann" "#" = false →
   get_profile_username ("ann" +:+ "@" +:+ "contoso.com") = "ann")
  ∧ get_profile_username
      ("live.com" +:+ "#" +:+ "ann" +:+ "@" +:+ "contoso.com")
    = "ann".
Proof.
  apply (profile_username_of_an_account "live.com" "ann" "contoso.com");
    reflexivity.
Defined.

Lemma location_is_normalised_witness :
  Py.contains "westeurope" " " = false ∧ Py.lower "westeurope" = "westeurope".
Proof.
  apply (location_is_normalised [] (Some "West Europe") "westeurope").
  reflexivity.
Defined.


Lemma new_plan_is_numbered_after_the_last_witness :
  _determine_if_default_plan_to_use group_plans
    (_get_default_plan_name "ann" 4711) "westeurope" "S1" false true
  = Ok ("ann" +:+ "_asp_" +:+ str_of_nat 13).
Proof.
  apply (new_plan_is_numbered_after_the_last group_plans "ann" "westeurope"
           "S1" 4711 12 true
           {| asp_name := "ann_asp_0012"; asp_sku := Some "B1";
              asp_location := "West Europe"; asp_reserved := Some true |}).
  - by left.
  - reflexivity.
  - intros a Ha. unfold group_plans in Ha.
    repeat (apply elem_of_cons in Ha as [->|Ha]);
      [| |by intros [=]|by apply elem_of_nil in Ha]; intros _;
      split; reflexivity.
Defined.

Lemma requirements_txt_makes_a_python_app_witness :
  get_lang_from_content chain_env "static" "P1V2" no_dotnet_detection
    "/srv/site" false false mixed
  = (Ok {| language := PYTHON_RUNTIME_NAME chain_env;
           file_loc := PosixPath.join "/srv/site" ["requirements.txt"];
           default_sku := "P1V2" |},
     mixed, [EvWalk "/srv/site"]).
Proof.
  apply (requirements_txt_makes_a_python_app chain_env "static" "P1V2"
           no_dotnet_detection "/srv/site" false mixed (Raw "flask")).
  run_eq.
Defined.

Lemma server_js_of_the_current_directory_makes_a_node_app_witness :
  get_lang_from_content chain_env "static" "P1V2" no_dotnet_detection
    "/srv/site" false false beside_server_js
  = (Ok {| language := NODE_RUNTIME_NAME chain_env;
           file_loc := EmptyString;
           default_sku := "P1V2" |},
     beside_server_js, [EvWalk "/srv/site"]).
Proof.
  apply (server_js_of_the_current_directory_makes_a_node_app chain_env
           "static" "P1V2" no_dotnet_detection "/srv/site" false
           beside_server_js).
  - run_eq.
  - run_eq.
  - left. exists (Raw "listen()"). run_eq.
Defined.

Lemma unknown_project_is_a_CLIError_witness :
  ∃ msg,
    get_lang_from_content chain_env "static" "P1V2" no_dotnet_detection
      "/srv/site" false false unmarked
    = (Raise (CLIError msg), unmarked, [EvWalk "/srv/site"]).
Proof.
  apply (unknown_project_is_a_CLIError chain_env "static" "P1V2"
           no_dotnet_detection "/srv/site" false unmarked); try run_eq.
  intros d file Hin.
  assert (walk_files chain_env (dom (fs unmarked)) "/srv/site" (λ _, true)
          = [("/srv/site", "README.md")]) as Hwalk by run_eq.
  rewrite Hwalk in Hin.
  by apply list_elem_of_singleton in Hin as [= -> ->].
Defined.
